(** * The weather pipeline of [drew-work/dw_weather_scrape.py]

    A shallow embedding of the three Airflow tasks of the file,
    [scrape_weather_data], [transform_weather_data] and
    [write_weather_data_to_bigquery], together with the parts of the
    Python runtime, of [re], of pandas/numpy and of [dateutil] that the
    tasks call, and the properties of the pipeline stated over them.

    Layout: the embedding comes first (modules [Py], [Re], [Num],
    [Dt], [Pd], [Extractor], [Normalizer], [Loader]); the lemmas and the
    theorems follow. *)

From Stdlib Require Import ZArith List Ascii String Bool Lia Floats.
From stdpp Require Import gmap strings list.
Import ListNotations.

Set Warnings "-inexact-float".
Set Default Proof Using "Type".

(* ===================================================================== *)
(** * Part I: the embedding                                               *)
(* ===================================================================== *)

(** ** Exceptions

    A Python call either returns or raises.  The exception classes are the
    ones the tasks can meet; none of them is caught inside
    [transform_weather_data], and inside [scrape_weather_data] only the
    ones raised by [requests.get] are. *)

Inductive exn : Set :=
| AttributeError   (* [None.text], [.str] on a numeric column *)
| ValueError       (* unpacking, [int()]/[float()] of bad text, NaN to int *)
| TypeError        (* ["in" in None], [parse(None)], [round] on objects *)
| OverflowError    (* an integer outside int64 *)
| KeyError         (* a column that does not exist *)
| IndexError       (* [[][0]] *)
| ParserError.     (* [dateutil.parser.parse] on text it cannot read *)

Inductive result (A : Type) : Type :=
| Ok (a : A)
| Raise (e : exn).
Arguments Ok {A} a.
Arguments Raise {A} e.

Definition bind {A B} (m : result A) (f : A -> result B) : result B :=
  match m with
  | Ok a => f a
  | Raise e => Raise e
  end.

Declare Scope py_scope.
Delimit Scope py_scope with py.
Notation "'do' x <- m ; k" := (bind m (fun x => k))
  (at level 10, x pattern, m at level 100, k at level 200) : py_scope.
Open Scope py_scope.

(** [[f(x) for x in xs]] where [f] may raise: the first exception, in list
    order, aborts the whole comprehension. *)
Fixpoint traverse {A B} (f : A -> result B) (xs : list A) : result (list B) :=
  match xs with
  | [] => Ok []
  | x :: xs' => do y <- f x; do ys <- traverse f xs'; Ok (y :: ys)
  end.

Definition is_ok {A} (m : result A) : bool :=
  match m with Ok _ => true | Raise _ => false end.

(** ** Python strings *)

Module Py.

(** A [str] is a sequence of code points.  The embedding covers the code
    points below U+0100, one [ascii] each: the degree sign of the readings
    is the single character U+00B0.  On this range [\d] and [str.isdigit]
    hold of '0'..'9' only, and [str.isspace] of the characters listed in
    [isspace]. *)
Definition str := list ascii.

Definition of_string (s : string) : str := list_ascii_of_string s.

Definition code (c : ascii) : nat := nat_of_ascii c.

Definition isdigit (c : ascii) : bool :=
  (48 <=? code c)%nat && (code c <=? 57)%nat.

Definition isspace (c : ascii) : bool :=
  let n := code c in
  ((9 <=? n)%nat && (n <=? 13)%nat) || ((28 <=? n)%nat && (n <=? 32)%nat)
  || (n =? 133)%nat || (n =? 160)%nat.

Definition ch_eqb (a b : ascii) : bool := Ascii.eqb a b.

Arguments code : simpl never.
Arguments isdigit : simpl never.
Arguments isspace : simpl never.
Arguments ch_eqb : simpl never.

(** The degree sign U+00B0, the newline, the comma. *)
Definition degree : ascii := ascii_of_nat 176.
Definition newline : ascii := ascii_of_nat 10.
Definition comma : ascii := ","%char.

Fixpoint str_eqb (a b : str) : bool :=
  match a, b with
  | [], [] => true
  | x :: a', y :: b' => ch_eqb x y && str_eqb a' b'
  | _, _ => false
  end.

(** [s.startswith(p)] *)
Fixpoint startswith (p s : str) : bool :=
  match p, s with
  | [], _ => true
  | x :: p', y :: s' => ch_eqb x y && startswith p' s'
  | _ :: _, [] => false
  end.

(** [p in s] for strings: [p] occurs in [s] as a substring. *)
Fixpoint contains (p s : str) : bool :=
  startswith p s ||
  match s with
  | [] => false
  | _ :: s' => contains p s'
  end.

(** [s.lstrip()], [s.rstrip()], [s.strip()] *)
Fixpoint lstrip (s : str) : str :=
  match s with
  | c :: s' => if isspace c then lstrip s' else s
  | [] => []
  end.

Definition rstrip (s : str) : str := rev (lstrip (rev s)).

Definition strip (s : str) : str := rstrip (lstrip s).

(** [s.split()]: the maximal runs of characters that are not whitespace.
    [cur] holds the run being read, reversed. *)
Fixpoint split_ws_from (cur : str) (s : str) : list str :=
  match s with
  | [] => match cur with [] => [] | _ => [rev cur] end
  | c :: s' =>
      if isspace c then
        match cur with
        | [] => split_ws_from [] s'
        | _ => rev cur :: split_ws_from [] s'
        end
      else split_ws_from (c :: cur) s'
  end.

Definition split_ws (s : str) : list str := split_ws_from [] s.

(** [s.split(sep)] for a non-empty [sep]: the pieces between the
    occurrences of [sep], found from the left and not overlapping.  [skip]
    counts the characters of a separator that are still to be passed. *)
Fixpoint split_from (sep cur s : str) (skip : nat) : list str :=
  match s with
  | [] => [rev cur]
  | c :: s' =>
      match skip with
      | S k => split_from sep cur s' k
      | O =>
          if startswith sep s
          then rev cur :: split_from sep [] s' (length sep - 1)
          else split_from sep (c :: cur) s' 0
      end
  end.

Definition split (sep s : str) : list str := split_from sep [] s 0.

(** The value of a run of decimal digits, most significant first. *)
Definition digit_val (c : ascii) : Z := Z.of_nat (code c) - 48.

Definition digits_val (ds : str) : Z :=
  fold_left (fun acc c => 10 * acc + digit_val c)%Z ds 0%Z.

(** Shapes of texts: [s] is empty or starts outside the class [p]; no
    character of [s] is a digit; every character of [s] is one; [s] is
    empty or starts with neither a digit nor an underscore. *)
Definition stops (p : ascii -> bool) (s : str) : Prop :=
  match s with
  | [] => True
  | c :: _ => p c = false
  end.

Definition no_digit (s : str) : Prop :=
  forallb (fun c => negb (isdigit c)) s = true.

Definition all_digits (s : str) : Prop := forallb isdigit s = true.

Definition ends_digits (s : str) : Prop :=
  match s with
  | [] => True
  | c :: _ => isdigit c = false /\ ch_eqb c "_"%char = false
  end.

End Py.

(** ** Regular expressions: the backtracking matcher of [re] *)

Module Re.
Import Py.

(** The fragment of the pattern language that the file's five patterns
    use.  Repetition applies to single-character classes only. *)
Inductive regex : Type :=
| Cls (p : ascii -> bool)                    (* one character of a class *)
| Rep (p : ascii -> bool) (lo : nat) (lazy : bool)
                                             (* [p{lo,}], or [p{lo,}?] *)
| Opt (p : ascii -> bool)                    (* [p?] *)
| Cat (r1 r2 : regex)
| Alt (r1 r2 : regex)                        (* [r1|r2], [r1] tried first *)
| Group (r : regex).                         (* a capturing group *)

(** Patterns whose every match takes at least one character. *)
Fixpoint consumes (r : regex) : bool :=
  match r with
  | Cls _ => true
  | Rep _ lo _ => negb (lo =? 0)%nat
  | Opt _ => false
  | Cat r1 r2 => consumes r1 || consumes r2
  | Alt r1 r2 => consumes r1 && consumes r2
  | Group r1 => consumes r1
  end.

(** Character classes. *)
Definition d : ascii -> bool := isdigit.                        (* [\d] *)
Definition dot (c : ascii) : bool := negb (ch_eqb c newline).   (* [.]  *)
Definition lit (a : ascii) (c : ascii) : bool := ch_eqb c a.
Definition sign (c : ascii) : bool :=                           (* [-+] *)
  ch_eqb c "-"%char || ch_eqb c "+"%char.

Section Exec.
Context {R : Type}.

Definition orelse (a : option R) (b : option R) : option R :=
  match a with Some r => Some r | None => b end.

(** Greedy repetition: take one more character when possible, and give
    it back when the rest of the pattern then fails. *)
Fixpoint rep_greedy (p : ascii -> bool) (lo : nat) (s : str)
         (k : str -> option R) : option R :=
  let stop := match lo with O => k s | S _ => None end in
  match s with
  | c :: s' =>
      if p c then orelse (rep_greedy p (pred lo) s' k) stop else stop
  | [] => stop
  end.

(** Lazy repetition: stop as soon as the rest of the pattern matches. *)
Fixpoint rep_lazy (p : ascii -> bool) (lo : nat) (s : str)
         (k : str -> option R) : option R :=
  match lo, s with
  | O, [] => k []
  | O, c :: s' =>
      orelse (k s) (if p c then rep_lazy p O s' k else None)
  | S _, [] => None
  | S lo', c :: s' => if p c then rep_lazy p lo' s' k else None
  end.

(** [exec r s caps k]: match [r] at the front of [s], then continue with
    [k] on what is left; the first success in the order of Python's
    matcher wins.  [caps] are the groups closed so far, in order. *)
Fixpoint exec (r : regex) (s : str) (caps : list str)
         (k : str -> list str -> option R) : option R :=
  match r with
  | Cls p =>
      match s with
      | c :: s' => if p c then k s' caps else None
      | [] => None
      end
  | Rep p lo false => rep_greedy p lo s (fun s' => k s' caps)
  | Rep p lo true => rep_lazy p lo s (fun s' => k s' caps)
  | Opt p =>
      match s with
      | c :: s' =>
          if p c then orelse (k s' caps) (k s caps) else k s caps
      | [] => k s caps
      end
  | Cat r1 r2 => exec r1 s caps (fun s1 caps1 => exec r2 s1 caps1 k)
  | Alt r1 r2 => orelse (exec r1 s caps k) (exec r2 s caps k)
  | Group r1 =>
      exec r1 s caps
        (fun s1 caps1 => k s1 (caps1 ++ [take (length s - length s1) s]))
  end.
End Exec.

(** A match anchored at the front of [s]: what is left, and the groups. *)
Definition match_at (r : regex) (s : str) : option (str * list str) :=
  exec r s [] (fun rest caps => Some (rest, caps)).

(** A pattern that can start at a digit only. *)
Definition starts_at_digit (r : regex) : Prop :=
  forall c t, isdigit c = false -> match_at r (c :: t) = None.

(** [re.search]: the leftmost position with a match.  Returns the matched
    text, what follows it, and the groups. *)
Fixpoint search (r : regex) (s : str) : option (str * str * list str) :=
  match match_at r s with
  | Some (rest, caps) => Some (take (length s - length rest) s, rest, caps)
  | None =>
      match s with
      | [] => None
      | _ :: s' => search r s'
      end
  end.

(** [re.findall] for a pattern without groups whose matches are never
    empty: the matched texts, left to right, each search starting where
    the previous match ended.  At most [length s] matches fit in [s]. *)
Fixpoint findall_from (fuel : nat) (r : regex) (s : str) : list str :=
  match fuel with
  | O => []
  | S fuel' =>
      match search r s with
      | None => []
      | Some (m, rest, _) => m :: findall_from fuel' r rest
      end
  end.

Definition findall (r : regex) (s : str) : list str :=
  findall_from (S (length s)) r s.

(** The patterns of the file. *)

(** [[-+]?\d*\.\d+|\d+] *)
Definition re_number : regex :=
  Alt (Cat (Opt sign)
         (Cat (Rep d 0 false) (Cat (Cls (lit "."%char)) (Rep d 1 false))))
      (Rep d 1 false).

(** [(\d+)] *)
Definition re_int : regex := Group (Rep d 1 false).

(** [(\d+).*?(\d+)] *)
Definition re_int_pair : regex :=
  Cat (Group (Rep d 1 false)) (Cat (Rep dot 0 true) (Group (Rep d 1 false))).

(** [(\d+\.\d+|\d+)] *)
Definition re_decimal : regex :=
  Group (Alt (Cat (Rep d 1 false)
                 (Cat (Cls (lit "."%char)) (Rep d 1 false)))
             (Rep d 1 false)).

(** The first group of the first match, and the first two groups. *)
Definition group1 (r : regex) (s : str) : option str :=
  match search r s with
  | Some (_, _, g :: _) => Some g
  | _ => None
  end.

Definition group12 (r : regex) (s : str) : option (str * str) :=
  match search r s with
  | Some (_, _, g1 :: g2 :: _) => Some (g1, g2)
  | _ => None
  end.

End Re.

(** ** Numbers: Python [int] and [float], numpy [int64] and [float64] *)

Module Num.
Import Py.

(** *** int64 *)

Definition int64_min : Z := - 2 ^ 63.
Definition int64_max : Z := 2 ^ 63 - 1.

Definition in_int64 (z : Z) : bool :=
  (int64_min <=? z)%Z && (z <=? int64_max)%Z.

(** numpy's int64 arithmetic wraps around without a word. *)
Definition wrap64 (z : Z) : Z := ((z + 2 ^ 63) mod 2 ^ 64 - 2 ^ 63)%Z.

Definition sub64 (a b : Z) : Z := wrap64 (a - b).
Definition mul64 (a b : Z) : Z := wrap64 (a * b).

(** Storing a Python integer into an int64 array. *)
Definition to_int64 (z : Z) : result Z :=
  if in_int64 z then Ok z else Raise OverflowError.

(** *** float64 *)

(** The binary64 number nearest to [z] (ties to even). *)
Definition f64_of_Z (z : Z) : float :=
  SF2Prim (binary_normalize prec emax z 0 false).

(** The binary64 number nearest to [num/den], for [0 <= num], [0 < den],
    negated when [neg].  The quotient is cut at least six bits below the
    last bit of the result and the cut is recorded in a sticky bit, so the
    one rounding of [binary_normalize] is the rounding of [num/den]. *)
Definition f64_of_ratio (neg : bool) (num den : Z) : float :=
  if (num =? 0)%Z then (if neg then neg_zero else zero)
  else
    let s := Z.max 0 (Z.log2 den - Z.log2 num + 60) in
    let q := (num * 2 ^ s / den)%Z in
    let r := ((num * 2 ^ s) mod den)%Z in
    let m := (2 * q + (if (r =? 0)%Z then 0 else 1))%Z in
    SF2Prim (binary_normalize prec emax (if neg then - m else m)%Z
               (- s - 1) false).

(** The binary64 number nearest to [m * 10^k]. *)
Definition f64_of_decimal (neg : bool) (m k : Z) : float :=
  if (0 <=? k)%Z then f64_of_ratio neg (m * 10 ^ k) 1
  else f64_of_ratio neg m (10 ^ (- k)).

(** [numpy.rint]: the nearest integer, ties to even.  Below 2^52 adding
    and subtracting 2^52 rounds to an integer; from 2^52 on every binary64
    number is one. *)
Definition two52 : float := 0x1p52%float.

Definition rint (x : float) : float :=
  if is_zero x then x
  else if (abs x <? two52)%float then
    if (x <? 0)%float then (- ((- x + two52) - two52))%float
    else ((x + two52) - two52)%float
  else x.

(** [numpy.round(x, 2)], which [Series.round(2)] calls:
    [rint(x * 100) / 100]. *)
Definition round2 (x : float) : float := (rint (x * 100) / 100)%float.

(** The integer part of a finite float, towards zero; [None] on NaN and
    the infinities. *)
Definition trunc (x : float) : option Z :=
  match Prim2SF x with
  | S754_zero _ => Some 0%Z
  | S754_finite s m e =>
      let v := if (0 <=? e)%Z then (Zpos m * 2 ^ e)%Z
               else (Zpos m / 2 ^ (- e))%Z in
      Some (if s then - v else v)%Z
  | _ => None
  end.

(** [Series.astype(int)] on a float64 column, one element: pandas refuses
    NaN and the infinities. *)
Definition f64_to_int64 (x : float) : result Z :=
  match trunc x with
  | Some z => to_int64 z
  | None => Raise ValueError
  end.

(** NaN is how a numeric column holds a missing value;
    [df.where(pd.notnull(df), None)] turns it into [None]. *)
Definition notnull (x : float) : option float :=
  if is_nan x then None else Some x.

(** *** Reading numbers: [int(s)] and [float(s)] *)

(** The whitespace that [int] and [float] pass over at the two ends of a
    text.  Both first turn the spaces above U+007F into blanks, then pass
    over the whitespace of ASCII: tab to carriage return, and the blank.
    The separators U+001C to U+001F, which [str.isspace] holds of and
    [str.strip] removes, stay where they are, and the text is rejected. *)
Definition numeric_space (c : ascii) : bool :=
  let n := code c in
  ((9 <=? n)%nat && (n <=? 13)%nat) || (n =? 32)%nat
  || (n =? 133)%nat || (n =? 160)%nat.

Fixpoint lskip (s : str) : str :=
  match s with
  | c :: s' => if numeric_space c then lskip s' else s
  | [] => []
  end.

Definition trim (s : str) : str := rev (lskip (rev (lskip s))).

(** A digit part: digits, with single underscores between digits.
    [digit_run] is entered in front of a digit, or behind one. *)
Fixpoint digit_run (s : str) : str * str :=
  match s with
  | c :: s' =>
      if isdigit c then let '(ds, r) := digit_run s' in (c :: ds, r)
      else if ch_eqb c "_"%char then
        match s' with
        | c2 :: _ => if isdigit c2 then digit_run s' else ([], s)
        | [] => ([], s)
        end
      else ([], s)
  | [] => ([], [])
  end.

Definition digitpart (s : str) : str * str :=
  match s with
  | c :: _ => if isdigit c then digit_run s else ([], s)
  | [] => ([], [])
  end.

Definition read_sign (s : str) : bool * str :=
  match s with
  | c :: s' =>
      if ch_eqb c "-"%char then (true, s')
      else if ch_eqb c "+"%char then (false, s')
      else (false, s)
  | [] => (false, [])
  end.

(** [int(s)] in base ten. *)
Definition py_int (s : str) : result Z :=
  let '(neg, t) := read_sign (trim s) in
  match digitpart t with
  | (c :: ds, []) =>
      let v := digits_val (c :: ds) in Ok (if neg then - v else v)%Z
  | _ => Raise ValueError
  end.

Definition lower (c : ascii) : ascii :=
  if (65 <=? code c)%nat && (code c <=? 90)%nat
  then ascii_of_nat (code c + 32) else c.

(** The exponent of a float literal: [e], a sign, a digit part. *)
Definition read_exponent (s : str) : option Z :=
  match s with
  | [] => Some 0%Z
  | c :: s' =>
      if ch_eqb (lower c) "e"%char then
        let '(neg, t) := read_sign s' in
        match digitpart t with
        | (d :: ds, []) =>
            let v := digits_val (d :: ds) in Some (if neg then - v else v)%Z
        | _ => None
        end
      else None
  end.

(** [float(s)]: surrounding whitespace, a sign, then [inf], [infinity],
    [nan] in any case, or a decimal number with an optional fraction and
    an optional exponent; the value is rounded to the nearest binary64
    number. *)
Definition py_float (s : str) : result float :=
  let '(neg, t) := read_sign (trim s) in
  let low := map lower t in
  if str_eqb low (of_string "inf") || str_eqb low (of_string "infinity")
  then Ok (if neg then neg_infinity else infinity)
  else if str_eqb low (of_string "nan") then Ok nan
  else
    let '(ip, r1) := digitpart t in
    let '(fp, r2) :=
      match r1 with
      | c :: r => if ch_eqb c "."%char then digitpart r else ([], r1)
      | [] => ([], [])
      end in
    match ip ++ fp, read_exponent r2 with
    | _ :: _, Some e =>
        Ok (f64_of_decimal neg (digits_val (ip ++ fp))
              (e - Z.of_nat (length fp)))
    | _, _ => Raise ValueError
    end.

End Num.

(** ** Dates and times: [datetime] and [dateutil] *)

Module Dt.
Import Py.

(** A [datetime.datetime] without its [tzinfo]. *)
Record datetime : Set := mkdt {
  year : Z; month : Z; day : Z;
  hour : Z; minute : Z; second : Z; microsecond : Z
}.

Definition is_leap (y : Z) : bool :=
  (y mod 4 =? 0)%Z && (negb (y mod 100 =? 0)%Z || (y mod 400 =? 0)%Z).

(** [_DAYS_BEFORE_MONTH] and [_DAYS_IN_MONTH] of [datetime.py], indexed
    by the month, 1 to 12. *)
Definition DAYS_BEFORE_MONTH : list Z :=
  [0; 0; 31; 59; 90; 120; 151; 181; 212; 243; 273; 304; 334]%Z.
Definition DAYS_IN_MONTH : list Z :=
  [0; 31; 28; 31; 30; 31; 30; 31; 31; 30; 31; 30; 31]%Z.

Definition tab (t : list Z) (m : Z) : Z := nth (Z.to_nat m) t 0%Z.

Definition days_before_year (y : Z) : Z :=
  let y' := (y - 1)%Z in (y' * 365 + y' / 4 - y' / 100 + y' / 400)%Z.

Definition days_before_month (y m : Z) : Z :=
  (tab DAYS_BEFORE_MONTH m + (if (2 <? m)%Z && is_leap y then 1 else 0))%Z.

(** [date.toordinal()]: 1 is 0001-01-01. *)
Definition ymd2ord (y m d : Z) : Z :=
  (days_before_year y + days_before_month y m + d)%Z.

(** [_ord2ymd] of [datetime.py]. *)
Definition ord2ymd (n0 : Z) : Z * Z * Z :=
  let n := (n0 - 1)%Z in
  let n400 := (n / 146097)%Z in let n := (n mod 146097)%Z in
  let n100 := (n / 36524)%Z in let n := (n mod 36524)%Z in
  let n4 := (n / 1461)%Z in let n := (n mod 1461)%Z in
  let n1 := (n / 365)%Z in let n := (n mod 365)%Z in
  let y := (n400 * 400 + 1 + n100 * 100 + n4 * 4 + n1)%Z in
  if (n1 =? 4)%Z || (n100 =? 4)%Z then ((y - 1)%Z, 12%Z, 31%Z)
  else
    let leapyear := (n1 =? 3)%Z && (negb (n4 =? 24)%Z || (n100 =? 3)%Z) in
    let m := ((n + 50) / 32)%Z in
    let preceding :=
      (tab DAYS_BEFORE_MONTH m + (if (2 <? m)%Z && leapyear then 1 else 0))%Z in
    if (n <? preceding)%Z then
      let m' := (m - 1)%Z in
      let preceding' :=
        (preceding
         - (tab DAYS_IN_MONTH m' + (if (m' =? 2)%Z && leapyear then 1 else 0)))%Z in
      (y, m', (n - preceding' + 1)%Z)
    else (y, m, (n - preceding + 1)%Z).

(** The largest ordinal, 9999-12-31. *)
Definition MAXORDINAL : Z := 3652059.

(** [dt - timedelta(seconds=off)]: the date and time [off] seconds
    earlier; [OverflowError] outside the years 1 to 9999. *)
Definition minus_seconds (dt : datetime) (off : Z) : result datetime :=
  let secs :=
    (hour dt * 3600 + minute dt * 60 + second dt - off)%Z in
  let ord := (ymd2ord (year dt) (month dt) (day dt) + secs / 86400)%Z in
  let r := (secs mod 86400)%Z in
  if (1 <=? ord)%Z && (ord <=? MAXORDINAL)%Z then
    let '(y, m, d) := ord2ymd ord in
    Ok (mkdt y m d (r / 3600) (r mod 3600 / 60) (r mod 60) (microsecond dt))
  else Raise OverflowError.

(** A decimal numeral of at least [w] digits, padded with zeros. *)
Definition digit_char (n : Z) : ascii := ascii_of_nat (48 + Z.to_nat (n mod 10)).

Fixpoint numeral (fuel : nat) (n : Z) (acc : str) : str :=
  match fuel with
  | O => acc
  | S f =>
      let acc' := digit_char n :: acc in
      if (n <? 10)%Z then acc' else numeral f (n / 10)%Z acc'
  end.

Definition pad (w : nat) (n : Z) : str :=
  let ds := numeral (S (Z.to_nat (Z.log2 n))) n [] in
  repeat "0"%char (w - length ds) ++ ds.

(** The decimal numeral of a number, with no padding. *)
Definition decimal (n : Z) : str := numeral (S (Z.to_nat (Z.log2 n))) n [].

(** [dt.strftime("%Y-%m-%d %H:%M:%S.%f")].  [datetime] writes [%f] itself,
    in six digits, and leaves the other fields to the [strftime] of the
    worker's C library; that of Linux pads the month, the day, the hour,
    the minute and the second to two digits, and writes the year as it
    is: a year below 1000 has fewer than four digits. *)
Definition strftime (dt : datetime) : str :=
  decimal (year dt) ++ of_string "-" ++ pad 2 (month dt) ++ of_string "-"
  ++ pad 2 (day dt) ++ of_string " " ++ pad 2 (hour dt) ++ of_string ":"
  ++ pad 2 (minute dt) ++ of_string ":" ++ pad 2 (second dt)
  ++ of_string "." ++ pad 6 (microsecond dt).

(** What [dateutil.parser] has read in a text: the date and time, the
    gaps filled from today's date, a zone name such as [CST] when one was
    written, and an offset in seconds when one was written as [+HHMM] or
    the name is one of [UTC], [GMT], [Z]. *)
Record parsed : Set := mkparsed {
  naive : datetime;
  tzname : option string;
  tzoffset : option Z
}.

(** The zone a datetime ends up with. *)
Inductive tzinfo : Set :=
| TzOffset (seconds : Z)   (* [tz.tzoffset(name, seconds)] *)
| TzUTC                    (* [tz.UTC] *)
| TzLocal.                 (* [tz.tzlocal()] *)

(** What the task finds on the worker it runs on, and cannot be read in
    the repository: the reading of a text by [dateutil.parser] on the day
    of the run, and the worker's own time zone. *)
Record worker : Type := mkworker {
  (** [parser._parse] then [_build_naive]; [None] is [ParserError]. *)
  parse_text : str -> option parsed;
  (** [time.tzname], the names of the worker's zone. *)
  time_tzname : list string;
  (** The name and the offset, in seconds east of UTC, that [tz.tzlocal()]
      gives a local time, by its [fold]. *)
  tzlocal_name : datetime -> bool -> string;
  tzlocal_offset : datetime -> bool -> Z;
  (** The offset that [datetime.astimezone] gives a naive local time. *)
  system_offset : datetime -> Z
}.

(** [parserinfo.UTCZONE] *)
Definition UTCZONE : list string := ["UTC"; "GMT"; "Z"; "z"]%string.

Definition mem (x : string) (l : list string) : bool :=
  existsb (String.eqb x) l.

(** [parser._build_tzaware]; the pair is the datetime, its zone when it
    is aware, and its [fold].  [parser._assign_tzname] sets the fold when
    that makes the zone's name the one that was read. *)
Definition build_tzaware (w : worker) (tzinfos : gmap string Z) (res : parsed)
  : datetime * option tzinfo * bool :=
  let dt := naive res in
  match tzname res with
  | Some name =>
      match tzinfos !! name with
      | Some off => (dt, Some (TzOffset off), false)
      | None =>
          if mem name (time_tzname w) then
            let fold :=
              negb (String.eqb (tzlocal_name w dt false) name)
              && String.eqb (tzlocal_name w dt true) name in
            if negb (String.eqb (tzlocal_name w dt fold) name)
               && mem name UTCZONE
            then (dt, Some TzUTC, fold)
            else (dt, Some TzLocal, fold)
          else
            match tzoffset res with
            | Some 0%Z => (dt, Some TzUTC, false)
            | Some off => (dt, Some (TzOffset off), false)
            | None => (dt, None, false)     (* [UnknownTimezoneWarning] *)
            end
      end
  | None =>
      match tzoffset res with
      | Some 0%Z => (dt, Some TzUTC, false)
      | Some off => (dt, Some (TzOffset off), false)
      | None => (dt, None, false)
      end
  end.

(** [dt.astimezone(dateutil.tz.tzutc())]: a naive datetime is taken to be
    in the worker's zone. *)
Definition astimezone_utc (w : worker) (a : datetime * option tzinfo * bool)
  : result datetime :=
  let '(dt, tz, fold) := a in
  match tz with
  | Some (TzOffset off) => minus_seconds dt off
  | Some TzUTC => Ok dt
  | Some TzLocal => minus_seconds dt (tzlocal_offset w dt fold)
  | None => minus_seconds dt (system_offset w dt)
  end.

(** [dateutil.parser.parse(x, tzinfos=tzinfos)] on a string. *)
Definition parse (w : worker) (tzinfos : gmap string Z) (x : str)
  : result (datetime * option tzinfo * bool) :=
  match parse_text w x with
  | Some res => Ok (build_tzaware w tzinfos res)
  | None => Raise ParserError
  end.

End Dt.

(** ** The records that pass between the tasks *)

(** One dictionary of [scrape_weather_data]'s [data].  [location], [lat],
    [lon] and [elev_ft] are always strings: the city's name and the three
    tokens of the regular expression.  The others are [None] when the page
    has no such element. *)
Module Raw.
Import Py.
Record record : Set := mk {
  location : str;
  lat : str;
  lon : str;
  elev_ft : str;
  temperature : option str;
  humidity : option str;
  wind_speed : option str;
  barometer : option str;
  dewpoint : option str;
  vis_miles : option str;
  wind_chill : option str;
  last_update : option str
}.
End Raw.

(** One row of the data frame that [transform_weather_data] returns;
    [None] is a null of the JSON it is turned into. *)
Module Typed.
Import Py.
Record record : Set := mk {
  location : str;
  city : str;
  state : str;
  lat : option float;
  lon : option float;
  elev_ft : option Z;
  humidity : option float;
  wind_speed : Z;
  barometer : option float;
  vis_miles : option float;
  dewpoint_f : Z;
  dewpoint_c : Z;
  wind_chill_f : option float;
  wind_chill_c : option float;
  temp_f : Z;
  temp_c : Z;
  last_update : str
}.
End Typed.

(** ** The Extractor: [scrape_weather_data] *)

Module Extractor.
Import Py Re.

Record city : Set := mkcity { Name : string; NWS_URL : string }.

Definition CITIES : list city := [
  mkcity "Portland, OR"
    "https://forecast.weather.gov/MapClick.php?lat=45.5118&lon=-122.6756";
  mkcity "San Diego, CA"
    "https://forecast.weather.gov/MapClick.php?lat=32.7157&lon=-117.1617";
  mkcity "Duluth, MN"
    "https://forecast.weather.gov/MapClick.php?lat=46.788&lon=-92.0998";
  mkcity "Minneapolis, MN"
    "https://forecast.weather.gov/MapClick.php?lat=44.979&lon=-93.2649";
  mkcity "Salt Lake City, UT"
    "https://forecast.weather.gov/MapClick.php?zoneid=UTZ105&zflg=1";
  mkcity "Denver, CO"
    "https://forecast.weather.gov/MapClick.php?lat=39.74&lon=-104.992";
  mkcity "San Francisco, CA"
    "https://forecast.weather.gov/MapClick.php?lat=37.7771&lon=-122.4197";
  mkcity "New York City, NY"
    "https://forecast.weather.gov/MapClick.php?lat=40.7143&lon=-74.006";
  mkcity "Portland, ME"
    "https://forecast.weather.gov/MapClick.php?lat=43.6592&lon=-70.2567";
  mkcity "Seattle, WA"
    "https://forecast.weather.gov/MapClick.php?lat=47.6036&lon=-122.3294";
  mkcity "Baltimore, MD"
    "https://forecast.weather.gov/MapClick.php?lat=39.2906&lon=-76.6093"
]%string.

(** The parsed page, as [BeautifulSoup] lets the task see it: its
    elements in document order, an element before the elements nested in
    it, each with its tag, its classes, its text and its string.  The
    text ([.text]) is all the text within the element, that of the
    elements nested in it included.  The string ([.string]) is the one
    string that the element holds, directly or through a chain of only
    children, and [None] when it holds several children or none; it is
    what [find(text=...)] compares. *)
Record element : Set := mkelement {
  tag : string;
  classes : list string;
  text : str;
  string_ : option str
}.

Definition soup : Set := list element.

(** What [requests.get(url)] does: it raises, or it returns a response,
    whose content is parsed whatever its status. *)
Inductive response : Set :=
| GetRaised
| Content (page : soup).

Definition has_tag (t : string) (e : element) : bool := String.eqb (tag e) t.

(** The string of the element is [label]. *)
Definition has_string (label : string) (e : element) : bool :=
  match string_ e with
  | Some t => str_eqb t (of_string label)
  | None => false
  end.

(** [soup.find(t, {"class": c})] *)
Definition find_class (t c : string) (page : soup) : option element :=
  find (fun e => has_tag t e && existsb (String.eqb c) (classes e)) page.

(** [soup.find("td", text=label)], as what follows the element found. *)
Fixpoint after_label (label : string) (page : soup) : option soup :=
  match page with
  | [] => None
  | e :: rest =>
      if has_tag "td" e && has_string label e then Some rest
      else after_label label rest
  end.

(** [elem.find_next("td").text.strip() if elem else None], for
    [elem = soup.find("td", text=label)]. *)
Definition labelled (label : string) (page : soup) : result (option str) :=
  match after_label label page with
  | None => Ok None
  | Some rest =>
      match find (has_tag "td") rest with
      | Some e => Ok (Some (strip (text e)))
      | None => Raise AttributeError
      end
  end.

(** The body of the loop, after the page has been fetched. *)
Definition scrape_page (c : city) (page : soup) : result Raw.record :=
  let location := find_class "h2" "panel-title" page in
  do lat_lon_elev <-
    match find_class "span" "smallTxt" page with
    | Some e => Ok (strip (text e))
    | None => Raise AttributeError
    end;
  do tokens <-
    match findall re_number lat_lon_elev with
    | [a; b; c] => Ok (a, b, c)
    | _ => Raise ValueError
    end;
  let '(lat, lon, elev) := tokens in
  let temperature := find_class "p" "myforecast-current-lrg" page in
  do humidity <- labelled "Humidity" page;
  do wind_speed <- labelled "Wind Speed" page;
  do barometer <- labelled "Barometer" page;
  do dewpoint <- labelled "Dewpoint" page;
  do visibility <- labelled "Visibility" page;
  do wind_chill <- labelled "Wind Chill" page;
  do last_update <- labelled "Last update" page;
  Ok (Raw.mk (of_string (Name c)) lat lon elev
        (option_map text temperature)
        humidity wind_speed barometer dewpoint visibility wind_chill
        last_update).

(** The loop over the cities: a city whose [requests.get] raises is
    passed over; any other exception leaves the loop and the task. *)
Fixpoint scrape_cities (get : string -> response) (cities : list city)
         (data : list Raw.record) : result (list Raw.record) :=
  match cities with
  | [] => Ok data
  | c :: rest =>
      match get (NWS_URL c) with
      | GetRaised => scrape_cities get rest data
      | Content page =>
          do r <- scrape_page c page;
          scrape_cities get rest (data ++ [r])
      end
  end.

Definition scrape_weather_data (get : string -> response)
  : result (list Raw.record) :=
  scrape_cities get CITIES [].

(** The fetch of a city's page returned. *)
Definition fetched (get : string -> response) (c : city) : bool :=
  match get (NWS_URL c) with
  | GetRaised => false
  | Content _ => true
  end.

(** The page of every fetched city can be read. *)
Definition readable (get : string -> response) (cities : list city) : Prop :=
  forall c page, In c cities -> get (NWS_URL c) = Content page ->
                 is_ok (scrape_page c page) = true.

(** The labels of the table of current conditions. *)
Definition LABELS : list string :=
  ["Humidity"; "Wind Speed"; "Barometer"; "Dewpoint"; "Visibility";
   "Wind Chill"; "Last update"]%string.

(** The field of a record that a label fills. *)
Definition field_of (label : string) (r : Raw.record) : option str :=
  if String.eqb label "Humidity" then Raw.humidity r
  else if String.eqb label "Wind Speed" then Raw.wind_speed r
  else if String.eqb label "Barometer" then Raw.barometer r
  else if String.eqb label "Dewpoint" then Raw.dewpoint r
  else if String.eqb label "Visibility" then Raw.vis_miles r
  else if String.eqb label "Wind Chill" then Raw.wind_chill r
  else if String.eqb label "Last update" then Raw.last_update r
  else None.

(** The elements of a page that are not [h2] headings. *)
Definition without_headings (page : soup) : soup :=
  List.filter (fun e => negb (has_tag "h2" e)) page.

End Extractor.

(** ** pandas *)

Module Pd.
Import Py Re Num.

(** A column of [pd.read_json(data, orient="records")].  [read_json]
    infers the types: a column whose every value is null or a text that
    [float] reads becomes a float64 (or int64) column; any other column
    stays a column of objects, strings and [None]. *)
Definition numeric_column (col : list (option str)) : bool :=
  forallb (fun x => match x with
                    | None => true
                    | Some s => is_ok (py_float s)
                    end) col.

(** [col.str]: the accessor exists on columns of strings only. *)
Definition str_accessor (col : list (option str))
  : result (list (option str)) :=
  if numeric_column col then Raise AttributeError else Ok col.

(** [col.str.extract(pat)]: the groups of the first match, and a missing
    value where the text is missing or has no match. *)
Definition extract1 (r : regex) (x : option str) : option str :=
  match x with Some s => group1 r s | None => None end.

Definition extract2 (r : regex) (x : option str) : option (str * str) :=
  match x with Some s => group12 r s | None => None end.

(** One element of [.astype(int)] on a column of objects: a missing value
    cannot become an integer, a text is read by [int] and must fit int64. *)
Definition astype_int (x : option str) : result Z :=
  match x with
  | None => Raise ValueError
  | Some g => do z <- py_int g; to_int64 z
  end.

(** One element of [.astype(float)]: a missing value is NaN. *)
Definition astype_float (x : option str) : result float :=
  match x with
  | None => Ok nan
  | Some g => py_float g
  end.

End Pd.

(** ** The Normalizer: [transform_weather_data] *)

Module Normalizer.
Import Py Re Num Dt Pd.

(** [{"CST": dateutil.tz.tzoffset(None, -21600)}] *)
Definition tzinfos : gmap string Z := {[ "CST"%string := (-21600)%Z ]}.

(** [df["location"].str.split(", ", expand=True)] assigned to the two
    columns [city] and [state], then [.astype(str)].  The frame that
    [expand=True] builds is as wide as the longest list of pieces, shorter
    lists padded with [None]; the assignment needs exactly two columns;
    [astype(str)] writes a [None] as the text [None]. *)
Definition split_location (col : list str) : result (list (str * str)) :=
  do _ <- str_accessor (map Some col);
  let pieces := map (split (of_string ", ")) col in
  let width := foldr Nat.max 0%nat (map (@length str) pieces) in
  if (width =? 2)%nat then
    Ok (map (fun ps => (nth 0 ps [], nth 1 ps (of_string "None"))) pieces)
  else Raise ValueError.

(** A location written from its two parts: [city, state]. *)
Definition joined (cs : str * str) : str := cs.1 ++ of_string ", " ++ cs.2.

(** The text has no separator [, ]. *)
Definition unsplit (s : str) : Prop := contains (of_string ", ") s = false.

(** [int(row["elev_ft"]) if row["elev_ft"] != "NA" else None], on a
    column that [read_json] has made numeric when it could. *)
Definition elev_column (col : list str) : result (list (option Z)) :=
  if numeric_column (map Some col) then
    traverse (fun s =>
                do x <- py_float s;
                match trunc x with
                | Some z => Ok (Some z)
                | None => Raise (if is_nan x then ValueError else OverflowError)
                end) col
  else
    traverse (fun s =>
                if str_eqb s (of_string "NA") then Ok None
                else do z <- py_int s; Ok (Some z)) col.

(** [df["temperature"].str.extract("(\d+)").astype(int)] *)
Definition temp_f_of (x : option str) : result Z :=
  astype_int (extract1 re_int x).

Definition temp_f_column (col : list (option str)) : result (list Z) :=
  do col <- str_accessor col;
  traverse temp_f_of col.

(** [((temp_f - 32) * 5 / 9).round().astype(int)]: the subtraction and
    the product are int64, the quotient is float64. *)
Definition temp_c_of (f : Z) : result Z :=
  f64_to_int64 (rint (f64_of_Z (mul64 (sub64 f 32) 5) / 9)%float).

(** [df["humidity"].str.extract("(\d+)", expand=False).astype(float) / 100] *)
Definition humidity_of (x : option str) : result float :=
  do v <- astype_float (extract1 re_int x); Ok (v / 100)%float.

Definition humidity_column (col : list (option str)) : result (list float) :=
  do col <- str_accessor col;
  traverse humidity_of col.

(** [df["wind_speed"].str.extract("(\d+)", expand=False).fillna(0)
    .astype(int)]; the [.replace("Calm", 0)] that follows finds no text
    in a column of integers. *)
Definition wind_speed_of (x : option str) : result Z :=
  match extract1 re_int x with
  | None => Ok 0%Z
  | Some g => astype_int (Some g)
  end.

Definition wind_speed_column (col : list (option str)) : result (list Z) :=
  do col <- str_accessor col;
  traverse wind_speed_of col.

(** [33.8639] *)
Definition MB_PER_INHG : float := 33.8639%float.

(** [lambda x: float(x.split()[0]) * 33.8639 if "in" in x and x != "NA"
    else None], on a string. *)
Definition barometer_of (x : str) : result (option float) :=
  if contains (of_string "in") x && negb (str_eqb x (of_string "NA")) then
    match split_ws x with
    | tok :: _ => do v <- py_float tok; Ok (Some (v * MB_PER_INHG)%float)
    | [] => Raise IndexError
    end
  else Ok None.

(** [df["barometer"].apply(...)] then [.round(2)].  In a numeric column
    [x] is a float, in a column of objects it may be [None]: in both
    cases ["in" in x] is a [TypeError].  When the function returns [None]
    on every row the result is a column of objects and [round] is a
    [TypeError]; otherwise it is a float64 column, [None] being NaN. *)
Definition barometer_column (col : list (option str)) : result (list float) :=
  if numeric_column col then Raise TypeError
  else
    do vs <- traverse (fun x => match x with
                                | None => Raise TypeError
                                | Some s => barometer_of s
                                end) col;
    if forallb (fun v => match v with None => true | Some _ => false end) vs
    then Raise TypeError
    else Ok (map (fun v => match v with
                           | Some f => round2 f
                           | None => nan
                           end) vs).

(** [df["dewpoint"].str.extract("(\d+).*?(\d+)", expand=True).astype(int)] *)
Definition dewpoint_of (x : option str) : result (Z * Z) :=
  match extract2 re_int_pair x with
  | Some (g1, g2) =>
      do f <- astype_int (Some g1); do c <- astype_int (Some g2); Ok (f, c)
  | None => Raise ValueError
  end.

Definition dewpoint_column (col : list (option str)) : result (list (Z * Z)) :=
  do col <- str_accessor col;
  traverse dewpoint_of col.

(** [df["vis_miles"].str.extract("(\d+\.\d+|\d+)", expand=False)
    .astype(float).round(2)] *)
Definition vis_miles_of (x : option str) : result float :=
  do v <- astype_float (extract1 re_decimal x); Ok (round2 v).

Definition vis_miles_column (col : list (option str)) : result (list float) :=
  do col <- str_accessor col;
  traverse vis_miles_of col.

(** [.fillna(0)] and [.replace(0, None)], on one value. *)
Definition fillna0 (v : float) : float := if is_nan v then 0%float else v.

Definition replace0 (v : float) : option float :=
  if (v =? 0)%float then None else Some v.

(** [df["wind_chill"].str.extract("(\d+).*?(\d+)", expand=True)
    .astype(float).fillna(0).replace(0, None)] *)
Definition wind_chill_of (x : option str)
  : result (option float * option float) :=
  match extract2 re_int_pair x with
  | Some (g1, g2) =>
      do f <- astype_float (Some g1);
      do c <- astype_float (Some g2);
      Ok (replace0 (fillna0 f), replace0 (fillna0 c))
  | None => Ok (replace0 (fillna0 nan), replace0 (fillna0 nan))
  end.

Definition wind_chill_column (col : list (option str))
  : result (list (option float * option float)) :=
  do col <- str_accessor col;
  traverse wind_chill_of col.

(** [lambda x: dateutil.parser.parse(x, tzinfos={...})
    .astimezone(dateutil.tz.tzutc())], then
    [lambda x: x.strftime("%Y-%m-%d %H:%M:%S.%f")]. *)
Definition last_update_of (w : worker) (x : str) : result str :=
  do a <- parse w tzinfos x;
  do u <- astimezone_utc w a;
  Ok (strftime u).

(** In a numeric column [x] is a float, in a column of objects it may be
    [None]: [parse] takes neither. *)
Definition last_update_column (w : worker) (col : list (option str))
  : result (list str) :=
  if numeric_column col then Raise TypeError
  else traverse (fun x => match x with
                          | None => Raise TypeError
                          | Some s => last_update_of w s
                          end) col.

(** The mandatory fields that cannot be parsed: a temperature that is
    absent or holds no digit, a last update that is absent or that
    [dateutil] cannot read. *)
Definition no_integer (x : option str) : Prop :=
  match x with
  | None => True
  | Some s => no_digit s
  end.

Definition unparsable (w : worker) (x : option str) : Prop :=
  match x with
  | None => True
  | Some s => parse_text w s = None
  end.

(** The columns of the frame, one value per record. *)
Record columns : Type := mkcolumns {
  c_location : list str;
  c_city_state : list (str * str);
  c_lat : list float;
  c_lon : list float;
  c_elev_ft : list (option Z);
  c_temp_f : list Z;
  c_temp_c : list Z;
  c_humidity : list float;
  c_wind_speed : list Z;
  c_barometer : list float;
  c_dewpoint : list (Z * Z);
  c_vis_miles : list float;
  c_wind_chill : list (option float * option float);
  c_last_update : list str
}.

(** Row [i] of the frame, after [df.where(pd.notnull(df), None)]. *)
Definition row (cs : columns) (i : nat) : Typed.record :=
  Typed.mk
    (nth i (c_location cs) [])
    (fst (nth i (c_city_state cs) ([], [])))
    (snd (nth i (c_city_state cs) ([], [])))
    (notnull (nth i (c_lat cs) nan))
    (notnull (nth i (c_lon cs) nan))
    (nth i (c_elev_ft cs) None)
    (notnull (nth i (c_humidity cs) nan))
    (nth i (c_wind_speed cs) 0%Z)
    (notnull (nth i (c_barometer cs) nan))
    (notnull (nth i (c_vis_miles cs) nan))
    (fst (nth i (c_dewpoint cs) (0, 0)%Z))
    (snd (nth i (c_dewpoint cs) (0, 0)%Z))
    (fst (nth i (c_wind_chill cs) (None, None)))
    (snd (nth i (c_wind_chill cs) (None, None)))
    (nth i (c_temp_f cs) 0%Z)
    (nth i (c_temp_c cs) 0%Z)
    (nth i (c_last_update cs) []).

(** The statements of the task, in their order.  An empty [data] gives a
    frame without columns, and [df["location"]] is a [KeyError]. *)
Definition transform_columns (w : worker) (data : list Raw.record)
  : result columns :=
  match data with
  | [] => Raise KeyError
  | _ =>
      do city_state <- split_location (map Raw.location data);
      do lat <- traverse py_float (map Raw.lat data);
      do lon <- traverse py_float (map Raw.lon data);
      do elev <- elev_column (map Raw.elev_ft data);
      do temp_f <- temp_f_column (map Raw.temperature data);
      do temp_c <- traverse temp_c_of temp_f;
      do humidity <- humidity_column (map Raw.humidity data);
      do wind_speed <- wind_speed_column (map Raw.wind_speed data);
      do barometer <- barometer_column (map Raw.barometer data);
      do dewpoint <- dewpoint_column (map Raw.dewpoint data);
      do vis_miles <- vis_miles_column (map Raw.vis_miles data);
      do _ <- wind_chill_column (map Raw.wind_chill data);
      do wind_chill <- wind_chill_column (map Raw.wind_chill data);
      do last_update <- last_update_column w (map Raw.last_update data);
      Ok (mkcolumns (map Raw.location data) city_state lat lon elev
            temp_f temp_c humidity wind_speed barometer dewpoint vis_miles
            wind_chill last_update)
  end.

(** The task: the rows of the frame that the statements have built, one
    for each record, in their order.  The task returns the frame as the
    text that [df.to_json(orient="records")] writes; the embedding stops
    at the rows that the frame holds. *)
Definition transform_weather_data (w : worker) (data : list Raw.record)
  : result (list Typed.record) :=
  do cs <- transform_columns w data;
  Ok (map (row cs) (seq 0 (length data))).

End Normalizer.

(** ** The Loader: [write_weather_data_to_bigquery] *)

Module Loader.

Record column : Set := mkcolumn {
  name : string; type : string; mode : string
}.

Definition PROJECT_ID : string := "team-week3".
Definition DATASET_ID : string := "weather-dw".
Definition DAILY_TABLE_ID : string := "daily".

Definition SCHEMA : list column := [
  mkcolumn "location" "STRING" "REQUIRED";
  mkcolumn "lat" "FLOAT" "REQUIRED";
  mkcolumn "lon" "FLOAT" "REQUIRED";
  mkcolumn "elev_ft" "INTEGER" "REQUIRED";
  mkcolumn "humidity" "FLOAT" "REQUIRED";
  mkcolumn "wind_speed" "INTEGER" "REQUIRED";
  mkcolumn "barometer" "FLOAT" "REQUIRED";
  mkcolumn "vis_miles" "FLOAT" "REQUIRED";
  mkcolumn "dewpoint_f" "INTEGER" "REQUIRED";
  mkcolumn "dewpoint_c" "INTEGER" "REQUIRED";
  mkcolumn "wind_chill_f" "FLOAT" "REQUIRED";
  mkcolumn "wind_chill_c" "FLOAT" "REQUIRED";
  mkcolumn "city" "STRING" "REQUIRED";
  mkcolumn "state" "STRING" "REQUIRED";
  mkcolumn "temp_f" "INTEGER" "REQUIRED";
  mkcolumn "temp_c" "INTEGER" "REQUIRED";
  mkcolumn "last_update" "STRING" "REQUIRED"
]%string.

(** The warehouse, as far as the client's calls show it: the datasets of
    the project by their id, each with its location and its tables by
    their id, each with its schema and its rows. *)
Record table : Type := mktable {
  schema : list column;
  rows : list Typed.record
}.

Record dataset : Type := mkdataset {
  ds_location : string;
  tables : gmap string table
}.

(** The calls that change the warehouse. *)
Inductive call : Set :=
| CreateDataset (dataset_id : string)
| CreateTable (dataset_id table_id : string)
| LoadAppend (dataset_id table_id : string) (n : nat).

(** Lines 280 to 295: [get_dataset], and [create_dataset] on [NotFound];
    [get_table], and [create_table] on [NotFound].  Returns the warehouse
    and the calls that changed it. *)
Definition ensure_schema (dataset_id table_id : string) (sch : list column)
           (w : gmap string dataset) : gmap string dataset * list call :=
  let '(ds, w1, log1) :=
    match w !! dataset_id with
    | Some ds => (ds, w, [])
    | None =>
        let ds := mkdataset "US" ∅ in
        (ds, <[dataset_id := ds]> w, [CreateDataset dataset_id])
    end in
  match tables ds !! table_id with
  | Some _ => (w1, log1)
  | None =>
      let ds' :=
        mkdataset (ds_location ds) (<[table_id := mktable sch []]> (tables ds)) in
      (<[dataset_id := ds']> w1, log1 ++ [CreateTable dataset_id table_id])
  end.

(** The destination table exists. *)
Definition has_table (dataset_id table_id : string) (w : gmap string dataset)
  : Prop :=
  exists ds tb, w !! dataset_id = Some ds /\ tables ds !! table_id = Some tb.

(** [load_table_from_dataframe] with [WRITE_APPEND]: the rows are added
    behind the ones the table holds. *)
Definition load_append (dataset_id table_id : string)
           (batch : list Typed.record) (w : gmap string dataset)
  : gmap string dataset :=
  match w !! dataset_id with
  | Some ds =>
      match tables ds !! table_id with
      | Some t =>
          <[dataset_id :=
              mkdataset (ds_location ds)
                (<[table_id := mktable (schema t) (rows t ++ batch)]>
                   (tables ds))]> w
      | None => w
      end
  | None => w
  end.

Definition write_weather_data_to_bigquery (batch : list Typed.record)
           (w : gmap string dataset) : gmap string dataset * list call :=
  let '(w1, log) := ensure_schema DATASET_ID DAILY_TABLE_ID SCHEMA w in
  (load_append DATASET_ID DAILY_TABLE_ID batch w1,
   log ++ [LoadAppend DATASET_ID DAILY_TABLE_ID (length batch)]).

End Loader.

(** ** The words of the specification

    Definitions that follow the text of the specification, to compare the
    code with. *)

Module Spec.
Import Py.

(** The integer nearest to [n/d], for [0 < d]; a tie goes to the even
    one. *)
Definition round_ratio (n d : Z) : Z :=
  let q := (n / d)%Z in
  let r := (n mod d)%Z in
  if (2 * r <? d)%Z then q
  else if (d <? 2 * r)%Z then (q + 1)%Z
  else if Z.even q then q else (q + 1)%Z.

(** [temp_c = round((temp_f-32)*5/9)] *)
Definition temp_c (temp_f : Z) : Z := round_ratio ((temp_f - 32) * 5) 9.




End Spec.

(** Checking a property of integers on a whole range, by running it. *)
Definition holds_upto (P : Z -> bool) (n : N) : bool :=
  snd (N.iter n (fun st => (fst st + 1, snd st && P (fst st))%Z) (0%Z, true)).

(** The code's [temp_c] is the specification's, at [f]. *)
Definition temp_c_agrees (f : Z) : bool :=
  match Normalizer.temp_c_of f with
  | Ok c => (c =? Spec.temp_c f)%Z
  | Raise _ => false
  end.

(** ** Sample pages, records and workers *)

Module Sample.
Import Py Dt Extractor.

Definition deg (a b : string) : str := of_string a ++ [degree] ++ of_string b.

(** A reading below zero, as the pages write the pairs: [-5°F (-21°C)]
    for the digits [5] and [21]. *)
Definition below_zero (d1 d2 : str) : str :=
  of_string "-" ++ d1 ++ [degree] ++ of_string "F (-" ++ d2
  ++ [degree] ++ of_string "C)".

Definition td (t : str) : element :=
  mkelement "td" ["text-right"]%string t (Some t).

(** A current-conditions page.  [small] is the text of the block with the
    latitude, longitude and elevation; [chill] says whether the table has
    a Wind Chill row, [zone] names the zone of the last update. *)
Definition nws_page (small : str) (temp : str) (chill : bool) (zone : string)
  : soup :=
  [ mkelement "h2" ["panel-title"]%string
      (of_string "Duluth International Airport")
      (Some (of_string "Duluth International Airport"));
    mkelement "span" ["smallTxt"]%string small None;
    mkelement "p" ["myforecast-current-lrg"]%string temp (Some temp);
    td (of_string "Humidity"); td (of_string "71%");
    td (of_string "Wind Speed"); td (of_string "NW 9 mph");
    td (of_string "Barometer"); td (of_string "30.12 in (1019.9 mb)");
    td (of_string "Dewpoint"); td (deg "-11" "F (-24" ++ deg "" "C)");
    td (of_string "Visibility"); td (of_string "10.00 mi") ]
  ++ (if chill
      then [ td (of_string "Wind Chill"); td (deg "-21" "F (-29" ++ deg "" "C)") ]
      else [])
  ++ [ td (of_string "Last update");
       td (of_string ("2 Feb 12:53 pm " ++ zone)) ].

Definition small_ok : str :=
  of_string "Lat: 46.72" ++ deg "" "NLon: 92.04" ++ deg "" "WElev: 1417ft.".

(** The same block on a page that gives no elevation. *)
Definition small_two : str :=
  of_string "Lat: 46.72" ++ deg "" "NLon: 92.04" ++ deg "" "W".

Definition page_ok : soup := nws_page small_ok (deg "-5" "F") true "CST".
Definition page_two : soup := nws_page small_two (deg "-5" "F") true "CST".

(** What a server in trouble answers: a response with the status 503,
    whose page says so and holds nothing else. *)
Definition page_unavailable : soup :=
  [ mkelement "title" [] (of_string "503 Service Unavailable")
      (Some (of_string "503 Service Unavailable"));
    mkelement "h1" [] (of_string "Service Unavailable")
      (Some (of_string "Service Unavailable")) ].

(** A web on which every page is [page_ok], but the fetch of [down]
    raises, and the page at [odd] is [page]. *)
Definition web (down : string) (odd : string) (page : soup) (url : string)
  : response :=
  if String.eqb url down then GetRaised
  else if String.eqb url odd then Content page
  else Content page_ok.

Definition url_of (name : string) : string :=
  match find (fun c => String.eqb (Name c) name) CITIES with
  | Some c => NWS_URL c
  | None => ""
  end.

(** What [dateutil] reads in the texts of the samples, on a day of 2023,
    on a worker whose clock is set to UTC. *)
Definition utc_worker : worker :=
  mkworker
    (fun s =>
       if str_eqb s (of_string "2 Feb 12:53 pm CST") then
         Some (mkparsed (mkdt 2023 2 2 12 53 0 0) (Some "CST"%string) None)
       else if str_eqb s (of_string "2 Feb 12:53 pm PST") then
         Some (mkparsed (mkdt 2023 2 2 12 53 0 0) (Some "PST"%string) None)
       else if str_eqb s (of_string "2 Feb 999 12:53 pm CST") then
         Some (mkparsed (mkdt 999 2 2 12 53 0 0) (Some "CST"%string) None)
       else None)
    ["UTC"; "UTC"]%string
    (fun _ _ => "UTC"%string)
    (fun _ _ => 0%Z)
    (fun _ => 0%Z).

(** Records as the Extractor makes them of such pages. *)
Definition record (name : string) (temp : option str) (baro : option str)
           (chill : option str) (zone : string) : Raw.record :=
  Raw.mk (of_string name) (of_string "46.72") (of_string "92.04")
    (of_string "1417") temp
    (Some (of_string "71%")) (Some (of_string "NW 9 mph")) baro
    (Some (deg "-11" "F (-24" ++ deg "" "C)"))
    (Some (of_string "10.00 mi")) chill
    (Some (of_string ("2 Feb 12:53 pm " ++ zone))).

Definition baro_ok : option str := Some (of_string "30.12 in (1019.9 mb)").
Definition chill_ok : option str := Some (deg "-21" "F (-29" ++ deg "" "C)").

Definition duluth : Raw.record :=
  record "Duluth, MN" (Some (deg "-5" "F")) baro_ok chill_ok "CST".

Definition denver : Raw.record :=
  record "Denver, CO" (Some (deg "72" "F")) baro_ok None "CST".

(** A record whose temperature text holds no integer. *)
Definition no_temp : Raw.record :=
  record "Seattle, WA" (Some (of_string "N/A")) baro_ok chill_ok "CST".


(** Records of a mild day: no page has a Wind Chill row. *)
Definition mild (name : string) : Raw.record :=
  record name (Some (deg "72" "F")) baro_ok None "CST".

End Sample.

(** ** Shapes of the tokens *)

Module Token.
Import Py Re.

(** The texts that [[-+]?\d*\.\d+|\d+] matches: a decimal with an
    optional sign and an optional integer part, or a run of digits. *)
Definition decimal_token (m : str) : Prop :=
  exists sg ip fp,
    m = sg ++ ip ++ "."%char :: fp
    /\ (sg = [] \/ sg = ["-"%char] \/ sg = ["+"%char])
    /\ all_digits ip /\ all_digits fp /\ fp <> [].

Definition number_token (m : str) : Prop :=
  decimal_token m \/ (all_digits m /\ m <> []).

(** No character of the text can start a number: none is a digit, a sign
    or a point. *)
Definition plain (s : str) : Prop :=
  forallb (fun c => negb (isdigit c || sign c || lit "."%char c)) s = true.

(** The text does not go on with a decimal point and a digit. *)
Definition no_fraction (s : str) : Prop :=
  match s with
  | c :: s' => lit "."%char c = true -> stops isdigit s'
  | [] => True
  end.

End Token.

(** The humidity of a percentage [p] is a fraction between 0 and 1, the
    binary64 number nearest to [p/100]. *)
Definition humidity_fraction (p : Z) : bool :=
  let v := (Num.f64_of_decimal false p 0 / 100)%float in
  ((0 <=? v) && (v <=? 1) && (v =? Num.f64_of_ratio false p 100))%float.

(** The elevation of a token of digits of value [n] is [n]: the float
    that reads the token is exact, and its integer part is [n]. *)
Definition elev_exact (n : Z) : bool :=
  match Num.trunc (Num.f64_of_decimal false n 0) with
  | Some z => (z =? n)%Z
  | None => false
  end.

(** The fields of a record that a page may lack. *)
Definition TEXT_FIELDS : list (Raw.record -> option Py.str) :=
  [Raw.temperature; Raw.humidity; Raw.wind_speed; Raw.barometer;
   Raw.dewpoint; Raw.vis_miles; Raw.wind_chill; Raw.last_update].

(** ** Instants *)

Module Clock.
Import Dt.

(** The seconds from the midnight before 0001-01-01 to a date and time:
    [dt.toordinal() * 86400] and the seconds of the day. *)
Definition seconds_of (dt : datetime) : Z :=
  (ymd2ord (year dt) (month dt) (day dt) * 86400
   + hour dt * 3600 + minute dt * 60 + second dt)%Z.

(** [dt.utcoffset()] in seconds, a naive datetime being taken in the
    worker's zone, as [astimezone] takes it. *)
Definition utcoffset (w : worker) (a : datetime * option tzinfo * bool) : Z :=
  let '(dt, tz, fold) := a in
  match tz with
  | Some (TzOffset off) => off
  | Some TzUTC => 0%Z
  | Some TzLocal => tzlocal_offset w dt fold
  | None => system_offset w dt
  end.

(** [calendar.monthrange]: the days of a month, [_days_in_month] of
    [datetime.py]. *)
Definition days_in_month (y m : Z) : Z :=
  (tab DAYS_IN_MONTH m + (if (m =? 2)%Z && is_leap y then 1 else 0))%Z.

(** The fields of a datetime are those of a date of the calendar and of a
    time of the day. *)
Definition valid (dt : datetime) : Prop :=
  (1 <= year dt <= 9999 /\ 1 <= month dt <= 12
   /\ 1 <= day dt <= days_in_month (year dt) (month dt)
   /\ 0 <= hour dt < 24 /\ 0 <= minute dt < 60 /\ 0 <= second dt < 60
   /\ 0 <= microsecond dt < 1000000)%Z.

(** [s[i:i+n]] *)
Definition slice (s : Py.str) (i n : nat) : Py.str := take n (drop i s).

End Clock.

(** ** The destination table *)

Module Warehouse.
Import Loader.

(** A table of the warehouse, when it exists. *)
Definition table_of (dataset_id table_id : string) (w : gmap string dataset)
  : option table :=
  match w !! dataset_id with
  | Some ds => tables ds !! table_id
  | None => None
  end.

(** The rows of the destination table; none when the table is absent. *)
Definition daily_rows (w : gmap string dataset) : list Typed.record :=
  match table_of DATASET_ID DAILY_TABLE_ID w with
  | Some t => rows t
  | None => []
  end.

End Warehouse.

(** ** The DAG: [weather_data_pipeline] *)

Module Dag.
Import Dt Extractor Normalizer Loader.

(** The three tasks in the order of the DAG, each fed with what the one
    before it returned; a task that raises fails, and the tasks behind it
    do not run. *)
Definition weather_data_pipeline (get : string -> response) (w : worker)
           (wh : gmap string dataset)
  : result (gmap string dataset * list call) :=
  do raw <- scrape_weather_data get;
  do typed <- transform_weather_data w raw;
  Ok (write_weather_data_to_bigquery typed wh).

End Dag.

(** ** Tactics *)

(** Both numbers are numerals. *)
Ltac is_ground_Z a b :=
  match a with
  | Zpos _ => idtac | Z0 => idtac | Zneg _ => idtac
  end;
  match b with
  | Zpos _ => idtac | Z0 => idtac | Zneg _ => idtac
  end.

(** Take apart the first call of a sequence that returned. *)
Ltac bind_ok H x E :=
  match type of H with
  | bind ?m _ = Ok _ =>
      destruct m as [x|] eqn:E; cbn [bind] in H; [|discriminate H]
  end.

(* ===================================================================== *)
(** * Part II: properties                                                 *)
(* ===================================================================== *)

(** ** Calls that may raise *)

Section Traverse.
Context {A B : Type} (f : A -> result B).

Lemma traverse_cons_ok x xs y ys :
  f x = Ok y -> traverse f xs = Ok ys -> traverse f (x :: xs) = Ok (y :: ys).
Proof. intros Hx Hxs. simpl. by rewrite Hx, Hxs. Qed.

Lemma traverse_inv x xs zs :
  traverse f (x :: xs) = Ok zs ->
  exists y ys, zs = y :: ys /\ f x = Ok y /\ traverse f xs = Ok ys.
Proof.
  simpl. destruct (f x) as [y|e]; simpl; [|discriminate].
  destruct (traverse f xs) as [ys|e]; simpl; [|discriminate].
  intros [= <-]. eauto.
Qed.

Lemma traverse_length xs ys :
  traverse f xs = Ok ys -> length ys = length xs.
Proof.
  revert ys. induction xs as [|x xs IH]; intros ys.
  - by intros [= <-].
  - intros (y & ys' & -> & _ & H)%traverse_inv. simpl. f_equal. by apply IH.
Qed.

Lemma traverse_lookup xs ys i x :
  traverse f xs = Ok ys -> xs !! i = Some x ->
  exists y, ys !! i = Some y /\ f x = Ok y.
Proof.
  revert ys i. induction xs as [|x0 xs IH]; intros ys i H Hi.
  - by destruct i.
  - apply traverse_inv in H as (y & ys' & -> & Hy & H).
    destruct i as [|i]; simpl in *.
    + injection Hi as <-. eauto.
    + eauto.
Qed.

Lemma traverse_raise xs x e :
  In x xs -> f x = Raise e -> exists e', traverse f xs = Raise e'.
Proof.
  induction xs as [|x0 xs IH]; intros Hin Hx; [done|].
  simpl. destruct (f x0) as [y|e0] eqn:E0; simpl; [|eauto].
  destruct Hin as [->|Hin]; [congruence|].
  destruct (IH Hin Hx) as [e' ->]. simpl. eauto.
Qed.

Lemma traverse_total xs :
  (forall x, In x xs -> is_ok (f x) = true) ->
  exists ys, traverse f xs = Ok ys.
Proof.
  induction xs as [|x xs IH]; intros H; [by exists []|].
  destruct IH as [ys Hys]; [intros; apply H; by right|].
  pose proof (H x (or_introl eq_refl)) as Hx.
  destruct (f x) as [y|e] eqn:E; [|discriminate].
  exists (y :: ys). by apply traverse_cons_ok.
Qed.
End Traverse.

(** ** The Loader *)

Module LoaderFacts.
Import Loader.

Section Ensure.
Variables (dataset_id table_id : string) (sch : list column).
Implicit Types w : gmap string dataset.
Local Abbreviation has_table := (Loader.has_table dataset_id table_id).

(** The destination exists: nothing is called, nothing changes. *)
Lemma ensure_schema_noop w :
  has_table w -> ensure_schema dataset_id table_id sch w = (w, []).
Proof.
  intros (ds & tb & Hds & Htb). unfold ensure_schema.
  by rewrite Hds, Htb.
Qed.

(** Whatever the warehouse held, the destination exists afterwards. *)
Lemma ensure_schema_has_table w :
  has_table (ensure_schema dataset_id table_id sch w).1.
Proof.
  unfold ensure_schema, has_table.
  destruct (w !! dataset_id) as [ds|] eqn:Hds.
  - destruct (tables ds !! table_id) as [tb|] eqn:Htb; simpl.
    + eauto.
    + eexists _, _. rewrite lookup_insert_eq. split; [done|].
      simpl. by rewrite lookup_insert_eq.
  - simpl. rewrite lookup_empty. simpl.
    eexists _, _. rewrite lookup_insert_eq. split; [done|].
    simpl. by rewrite lookup_insert_eq.
Qed.

(** A table that was there keeps its schema and its rows. *)
Lemma ensure_schema_keeps w ds tb :
  w !! dataset_id = Some ds -> tables ds !! table_id = Some tb ->
  exists ds', (ensure_schema dataset_id table_id sch w).1 !! dataset_id = Some ds'
              /\ tables ds' !! table_id = Some tb.
Proof.
  intros Hds Htb. rewrite ensure_schema_noop; [|by exists ds, tb].
  simpl. eauto.
Qed.

(** Each creating call is made exactly when its object is absent. *)
Lemma ensure_schema_calls w :
  (ensure_schema dataset_id table_id sch w).2 =
  (match w !! dataset_id with
   | Some _ => []
   | None => [CreateDataset dataset_id]
   end)
  ++ (match w !! dataset_id with
      | Some ds =>
          match tables ds !! table_id with
          | Some _ => []
          | None => [CreateTable dataset_id table_id]
          end
      | None => [CreateTable dataset_id table_id]
      end).
Proof.
  unfold ensure_schema.
  destruct (w !! dataset_id) as [ds|]; simpl.
  - by destruct (tables ds !! table_id).
  - by rewrite lookup_empty.
Qed.

(** C9: [ensure_schema] is idempotent.  A second call in succession
    leaves the warehouse, and with it the table's definition, as the
    first call left it, and makes no creating call; a destination that
    exists already makes the first call a no-op too, so an existing
    table is never created again and keeps its schema and rows; and a
    creating call is made only for an object that is absent. *)
Theorem C9_ensure_schema_idempotent w :
  let w1 := (ensure_schema dataset_id table_id sch w).1 in
  ensure_schema dataset_id table_id sch w1 = (w1, [])
  /\ has_table w1
  /\ (has_table w -> ensure_schema dataset_id table_id sch w = (w, []))
  /\ (forall ds tb, w !! dataset_id = Some ds ->
        tables ds !! table_id = Some tb ->
        exists ds', w1 !! dataset_id = Some ds'
                    /\ tables ds' !! table_id = Some tb)
  /\ (In (CreateDataset dataset_id)
         (ensure_schema dataset_id table_id sch w).2
      <-> w !! dataset_id = None)
  /\ (In (CreateTable dataset_id table_id)
         (ensure_schema dataset_id table_id sch w).2
      <-> ~ has_table w).
Proof.
  intros w1. split; [|split; [|split; [|split; [|split]]]].
  - apply ensure_schema_noop, ensure_schema_has_table.
  - apply ensure_schema_has_table.
  - apply ensure_schema_noop.
  - apply ensure_schema_keeps.
  - rewrite ensure_schema_calls.
    destruct (w !! dataset_id) as [ds|]; [|simpl; tauto].
    destruct (tables ds !! table_id); simpl; split; try tauto;
      try discriminate; intros [[=]|[]].
  - rewrite ensure_schema_calls. unfold has_table. split.
    + intros H (ds & tb & Hds & Htb). rewrite Hds, Htb in H. destruct H.
    + intros H. apply in_or_app. right.
      destruct (w !! dataset_id) as [ds|]; [|by left].
      destruct (tables ds !! table_id) as [tb|] eqn:E; [|by left].
      destruct H. eauto.
Qed.
End Ensure.

End LoaderFacts.

(** ** The matcher *)

Module ReFacts.
Import Py Re.

Section Sound.
Context {R : Type}.
Implicit Types (k : str -> option R) (s : str).

Lemma orelse_Some (a b : option R) x :
  orelse a b = Some x -> a = Some x \/ (a = None /\ b = Some x).
Proof. destruct a; simpl; intros H; [left|right]; auto. Qed.

(** A success of a repetition is a success of what follows it, after at
    least [lo] characters. *)
Lemma rep_greedy_sound p lo s k x :
  rep_greedy p lo s k = Some x ->
  exists n, k (drop n s) = Some x /\ lo <= n <= length s.
Proof.
  revert lo. induction s as [|c s IH]; intros lo; simpl.
  - destruct lo; [|done]. intros H. exists 0. simpl. split; [done|lia].
  - assert (Hstop : match lo with O => k (c :: s) | S _ => None end = Some x ->
                    exists n, k (drop n (c :: s)) = Some x
                              /\ lo <= n <= length (c :: s)).
    { destruct lo; [|done]. intros H. exists 0. simpl. split; [done|lia]. }
    destruct (p c); [|done].
    intros [H|[_ H]]%orelse_Some; [|by apply Hstop].
    apply IH in H as (n & Hk & Hn). exists (S n). simpl. split; [done|lia].
Qed.

Lemma rep_lazy_sound p lo s k x :
  rep_lazy p lo s k = Some x ->
  exists n, k (drop n s) = Some x /\ lo <= n <= length s.
Proof.
  revert lo. induction s as [|c s IH]; intros lo; simpl.
  - destruct lo; [|done]. intros H. exists 0. simpl. split; [done|lia].
  - destruct lo as [|lo].
    + intros [H|[_ H]]%orelse_Some.
      * exists 0. simpl. split; [done|lia].
      * destruct (p c); [|done].
        apply IH in H as (n & Hk & Hn). exists (S n). simpl. split; [done|lia].
    + destruct (p c); [|done]. intros H.
      apply IH in H as (n & Hk & Hn). exists (S n). simpl. split; [done|lia].
Qed.

(** A success of [exec] is a success of its continuation on a suffix of
    the text, a proper one when the pattern consumes. *)
Lemma exec_sound r :
  forall s caps (k : str -> list str -> option R) x,
  exec r s caps k = Some x ->
  exists n caps', k (drop n s) caps' = Some x /\ n <= length s
                  /\ (consumes r = true -> 0 < n).
Proof.
  induction r as [p|p lo lazy|p|r1 IH1 r2 IH2|r1 IH1 r2 IH2|r1 IH1];
    intros s caps k x; simpl.
  - destruct s as [|c s]; [done|]. destruct (p c); [|done].
    intros H. exists 1, caps. simpl. rewrite drop_0. split; [done|]. split; lia.
  - destruct lazy; intros H.
    + apply rep_lazy_sound in H as (n & Hk & Hn). exists n, caps.
      split; [done|]. split; [lia|]. destruct lo; [done|lia].
    + apply rep_greedy_sound in H as (n & Hk & Hn). exists n, caps.
      split; [done|]. split; [lia|]. destruct lo; [done|lia].
  - assert (Hz : k s caps = Some x ->
                 exists n caps', k (drop n s) caps' = Some x /\ n <= length s
                                 /\ (false = true -> 0 < n)).
    { intros H. exists 0, caps. rewrite drop_0.
      split; [done|]. split; [lia|done]. }
    destruct s as [|c s]; [exact Hz|]. destruct (p c); [|exact Hz].
    intros [H|[_ H]]%orelse_Some; [|by apply Hz].
    exists 1, caps. simpl. rewrite drop_0. split; [done|]. split; [lia|done].
  - intros H. apply IH1 in H as (n1 & caps1 & H & Hn1 & Hc1).
    apply IH2 in H as (n2 & caps2 & H & Hn2 & Hc2).
    rewrite drop_drop in H. rewrite length_drop in Hn2.
    exists (n1 + n2), caps2. split; [done|]. split; [lia|].
    intros [?|?]%orb_true_iff; [specialize (Hc1 ltac:(done))|
                                specialize (Hc2 ltac:(done))]; lia.
  - intros [H|[_ H]]%orelse_Some.
    + apply IH1 in H as (n & caps' & H & Hn & Hc). exists n, caps'.
      split; [done|]. split; [done|]. intros [? _]%andb_true_iff. auto.
    + apply IH2 in H as (n & caps' & H & Hn & Hc). exists n, caps'.
      split; [done|]. split; [done|]. intros [_ ?]%andb_true_iff. auto.
  - intros H. apply IH1 in H as (n & caps' & H & Hn & Hc). eauto.
Qed.
End Sound.

(** What [search] returns: the match and what follows it, and what follows
    is shorter than the text when the pattern consumes. *)
Lemma search_sound r s m rest caps :
  search r s = Some (m, rest, caps) ->
  length rest <= length s /\ (consumes r = true -> length rest < length s).
Proof.
  induction s as [|c s IH]; simpl; unfold match_at.
  - destruct (exec r [] [] _) as [[rest' caps']|] eqn:E; [|done].
    intros [= <- <- <-]. apply exec_sound in E as (n & caps'' & [= <- <-] & Hn & Hc).
    rewrite length_drop. simpl in *. split; [lia|]. intros H. specialize (Hc H). lia.
  - destruct (exec r (c :: s) [] _) as [[rest' caps']|] eqn:E.
    + intros [= <- <- <-].
      apply exec_sound in E as (n & caps'' & [= <- <-] & Hn & Hc).
      rewrite length_drop. simpl in *. split; [lia|]. intros H. specialize (Hc H). lia.
    + intros H. apply IH in H as [H1 H2]. split; [lia|]. intros H. specialize (H2 H). lia.
Qed.

(** [findall] has fuel to spare: more fuel finds the same matches. *)
Lemma findall_from_enough r :
  consumes r = true ->
  forall n s fuel, length s < n -> length s < fuel ->
  findall_from fuel r s = findall_from n r s.
Proof.
  intros Hc n. induction n as [|n IH]; intros s fuel Hn Hf; [lia|].
  destruct fuel as [|fuel]; [lia|]. simpl.
  destruct (search r s) as [[[m rest] caps]|] eqn:E; [|done].
  apply search_sound in E as [_ E]. specialize (E Hc).
  f_equal. apply IH; lia.
Qed.

Lemma findall_enough r s fuel :
  consumes r = true -> length s < fuel ->
  findall_from fuel r s = findall r s.
Proof. intros Hc Hf. apply findall_from_enough; [done|lia|done]. Qed.

End ReFacts.

(** ** Strings and numbers *)

Module PyFacts.
Import Py Num.

Lemma ch_eqb_eq a b : ch_eqb a b = true <-> a = b.
Proof. apply Ascii.eqb_eq. Qed.

Lemma ch_eqb_refl a : ch_eqb a a = true.
Proof. by apply ch_eqb_eq. Qed.

Lemma str_eqb_eq a b : str_eqb a b = true <-> a = b.
Proof.
  revert b. induction a as [|x a IH]; intros [|y b]; simpl; try done.
  rewrite andb_true_iff, ch_eqb_eq, IH. split; [intros [-> ->]|intros [= -> ->]]; done.
Qed.

Lemma str_eqb_refl a : str_eqb a a = true.
Proof. by apply str_eqb_eq. Qed.

(** The classes of characters are told apart by their codes. *)
Lemma isdigit_code c :
  isdigit c = true <-> (48 <= code c <= 57)%nat.
Proof.
  unfold isdigit. rewrite andb_true_iff, !Nat.leb_le. tauto.
Qed.

Lemma code_inj a b : code a = code b -> a = b.
Proof.
  unfold code. intros H.
  by rewrite <- (ascii_nat_embedding a), <- (ascii_nat_embedding b), H.
Qed.

Lemma ch_eqb_code a b : ch_eqb a b = (code a =? code b)%nat.
Proof.
  destruct (ch_eqb a b) eqn:E.
  - apply ch_eqb_eq in E as ->. by rewrite Nat.eqb_refl.
  - symmetry. apply Nat.eqb_neq. intros H%code_inj.
    apply ch_eqb_eq in H. congruence.
Qed.

Lemma isdigit_not_space c : isdigit c = true -> isspace c = false.
Proof.
  intros H%isdigit_code. unfold isspace.
  repeat match goal with
         | |- context [(?a <=? ?b)%nat] => destruct (Nat.leb_spec a b)
         | |- context [(?a =? ?b)%nat] => destruct (Nat.eqb_spec a b)
         end; simpl; try done; lia.
Qed.

Lemma digit_run_digits ds rest :
  forallb isdigit ds = true -> ends_digits rest ->
  digit_run (ds ++ rest) = (ds, rest).
Proof.
  intros Hds Hrest. induction ds as [|c ds IH]; simpl in *.
  - destruct rest as [|c rest]; [done|]. simpl. destruct Hrest as [-> ->]. done.
  - apply andb_true_iff in Hds as [-> Hds]. by rewrite IH.
Qed.

Lemma digitpart_digits c ds rest :
  forallb isdigit (c :: ds) = true -> ends_digits rest ->
  digitpart ((c :: ds) ++ rest) = (c :: ds, rest).
Proof.
  intros Hds Hrest. unfold digitpart.
  pose proof Hds as Hc. simpl in Hc. apply andb_true_iff in Hc as [Hc _].
  change ((c :: ds) ++ rest) with (c :: (ds ++ rest)). cbv iota beta. rewrite Hc.
  by apply (digit_run_digits (c :: ds)).
Qed.

(** The whitespace of [int] and [float] is whitespace of [str.isspace]:
    a text that neither starts nor ends with whitespace is read as it
    stands. *)
Lemma numeric_space_isspace c : isspace c = false -> numeric_space c = false.
Proof.
  unfold isspace, numeric_space. set (n := code c).
  destruct (Nat.leb_spec 9 n), (Nat.leb_spec n 13), (Nat.leb_spec 28 n),
    (Nat.leb_spec n 32), (Nat.eqb_spec n 32), (Nat.eqb_spec n 133),
    (Nat.eqb_spec n 160); simpl; try done; lia.
Qed.

Lemma lskip_id c s : isspace c = false -> lskip (c :: s) = c :: s.
Proof. intros H%numeric_space_isspace. simpl. by rewrite H. Qed.

Lemma trim_id c s z :
  isspace c = false -> last (c :: s) = Some z -> isspace z = false ->
  trim (c :: s) = c :: s.
Proof.
  intros Hc Hlast Hz. unfold trim. rewrite (lskip_id _ _ Hc).
  destruct (rev (c :: s)) as [|z' t] eqn:E.
  - apply (f_equal (@length _)) in E. rewrite length_rev in E. done.
  - assert (z' = z) as ->.
    { rewrite <- (rev_involutive (c :: s)), E in Hlast. simpl in Hlast.
      rewrite last_snoc in Hlast. congruence. }
    rewrite (lskip_id _ _ Hz). rewrite <- E. apply rev_involutive.
Qed.

Lemma digits_last c ds :
  forallb isdigit (c :: ds) = true ->
  exists z, last (c :: ds) = Some z /\ isdigit z = true.
Proof.
  intros H. destruct (last (c :: ds)) as [z|] eqn:E.
  - exists z. split; [done|]. apply last_Some in E as (l' & E).
    rewrite E, forallb_app in H. apply andb_true_iff in H as [_ H].
    simpl in H. by apply andb_true_iff in H as [H _].
  - by apply last_None in E.
Qed.

Lemma trim_digits c ds :
  forallb isdigit (c :: ds) = true -> trim (c :: ds) = c :: ds.
Proof.
  intros H. destruct (digits_last _ _ H) as (z & Hz & Hd).
  pose proof H as Hc. simpl in Hc. apply andb_true_iff in Hc as [Hc _].
  eapply trim_id; eauto using isdigit_not_space.
Qed.

Lemma read_sign_digit c s :
  isdigit c = true -> read_sign (c :: s) = (false, c :: s).
Proof.
  intros H%isdigit_code. unfold read_sign. rewrite !ch_eqb_code.
  change (code "-"%char) with 45. change (code "+"%char) with 43.
  destruct (Nat.eqb_spec (code c) 45); [lia|].
  destruct (Nat.eqb_spec (code c) 43); [lia|]. done.
Qed.

(** [int] reads a run of digits as its value. *)
Lemma py_int_digits c ds :
  forallb isdigit (c :: ds) = true ->
  py_int (c :: ds) = Ok (digits_val (c :: ds)).
Proof.
  intros H. unfold py_int. rewrite trim_digits by done.
  pose proof H as Hc. simpl in Hc. apply andb_true_iff in Hc as [Hc _].
  rewrite read_sign_digit by done.
  rewrite <- (app_nil_r (c :: ds)) at 1.
  by rewrite digitpart_digits.
Qed.

(** A digit is not a letter, so a text that starts with one is none of
    [inf], [infinity], [nan]. *)
Lemma lower_digit c : isdigit c = true -> lower c = c.
Proof.
  intros H%isdigit_code. unfold lower.
  destruct (Nat.leb_spec 65 (code c)); [lia|]. done.
Qed.

Lemma not_word_digit c s (w : string) :
  isdigit c = true ->
  match of_string w with
  | [] => True
  | x :: _ => (code x <? 48)%nat || (57 <? code x)%nat = true
  end ->
  str_eqb (map lower (c :: s)) (of_string w) = false.
Proof.
  intros Hc Hw. simpl. rewrite (lower_digit _ Hc).
  destruct (of_string w) as [|x t]; [done|]. simpl.
  rewrite ch_eqb_code. apply isdigit_code in Hc.
  apply orb_true_iff in Hw as [Hw%Nat.ltb_lt|Hw%Nat.ltb_lt];
    destruct (Nat.eqb_spec (code c) (code x)); simpl; try done; lia.
Qed.

(** [float] reads [ip.fp], two runs of digits, as the binary64 number
    nearest to the decimal. *)
Lemma py_float_decimal c ip c' fp :
  forallb isdigit (c :: ip) = true -> forallb isdigit (c' :: fp) = true ->
  py_float ((c :: ip) ++ "."%char :: c' :: fp) =
  Ok (f64_of_decimal false (digits_val ((c :: ip) ++ c' :: fp))
        (- Z.of_nat (length (c' :: fp)))).
Proof.
  intros Hip Hfp. unfold py_float.
  pose proof Hip as Hc. simpl in Hc. apply andb_true_iff in Hc as [Hc _].
  destruct (digits_last _ _ Hfp) as (z & Hz & Hzd).
  change ((c :: ip) ++ "."%char :: c' :: fp)
    with (c :: (ip ++ "."%char :: c' :: fp)).
  erewrite trim_id; eauto using isdigit_not_space; cycle 1.
  { change (c :: ip ++ "."%char :: c' :: fp)
      with ((c :: ip) ++ "."%char :: c' :: fp).
    rewrite last_app.
    change (last ("."%char :: c' :: fp)) with (last (c' :: fp)).
    by rewrite Hz. }
  rewrite read_sign_digit by done.
  rewrite !not_word_digit by (done || (vm_compute; done)). simpl orb. cbv iota.
  change (c :: ip ++ "."%char :: c' :: fp)
    with ((c :: ip) ++ "."%char :: c' :: fp).
  rewrite digitpart_digits; [|done|by vm_compute].
  rewrite ch_eqb_refl.
  rewrite <- (app_nil_r (c' :: fp)) at 1.
  rewrite digitpart_digits by done.
  simpl read_exponent. cbv iota beta.
  change ((c :: ip) ++ c' :: fp) with (c :: (ip ++ c' :: fp)). cbv iota.
  repeat f_equal; lia.
Qed.

(** [float] reads a run of digits as the binary64 number nearest to its
    value. *)
Lemma py_float_digits c ds :
  forallb isdigit (c :: ds) = true ->
  py_float (c :: ds) = Ok (f64_of_decimal false (digits_val (c :: ds)) 0).
Proof.
  intros H. unfold py_float. rewrite trim_digits by done.
  pose proof H as Hc. simpl in Hc. apply andb_true_iff in Hc as [Hc _].
  rewrite read_sign_digit by done.
  rewrite !not_word_digit by (done || (vm_compute; done)). simpl orb. cbv iota.
  rewrite <- (app_nil_r (c :: ds)) at 1.
  rewrite digitpart_digits by done. cbv iota beta.
  simpl read_exponent. rewrite app_nil_r. cbv iota. done.
Qed.

End PyFacts.

(** ** What the patterns of the file extract *)

Module ExtractFacts.
Import Py Re ReFacts PyFacts.

Lemma take_run (run rest : str) :
  take (length (run ++ rest) - length rest) (run ++ rest) = run.
Proof.
  rewrite length_app, Nat.add_sub. by rewrite take_app_length.
Qed.

Lemma In_drop (l : str) j x : In x (drop j l) -> In x l.
Proof.
  intros H. rewrite <- (take_drop j l). apply in_or_app. by right.
Qed.

Lemma stops_app p (mid rest : str) :
  mid <> [] -> forallb (fun c => negb (p c)) mid = true -> stops p (mid ++ rest).
Proof.
  destruct mid as [|c mid]; [done|]. simpl.
  intros _ [H _]%andb_true_iff. by apply negb_true_iff.
Qed.

Section Runs.
Context {R : Type}.
Implicit Types k : str -> option R.

(** Greedy repetition takes the whole run when what follows it then
    matches. *)
Lemma rep_greedy_run p lo run rest k x :
  forallb p run = true -> stops p rest -> lo <= length run ->
  k rest = Some x ->
  rep_greedy p lo (run ++ rest) k = Some x.
Proof.
  intros Hrun Hrest. revert lo.
  induction run as [|c run IH]; intros lo Hlo Hk; simpl in *.
  - assert (lo = 0) as -> by lia.
    destruct rest as [|c rest]; simpl; [done|]. simpl in Hrest. by rewrite Hrest.
  - apply andb_true_iff in Hrun as [-> Hrun].
    rewrite IH; [done|done|lia|done].
Qed.

Lemma rep_greedy_fail p lo s k :
  stops p s -> rep_greedy p (S lo) s k = None.
Proof. destruct s as [|c s]; simpl; [done|]. by intros ->. Qed.

(** Lazy repetition passes over the characters at which what follows
    the repetition does not match. *)
Lemma rep_lazy_skip p mid tail k x :
  forallb p mid = true ->
  (forall j, j < length mid -> k (drop j mid ++ tail) = None) ->
  k tail = Some x ->
  rep_lazy p 0 (mid ++ tail) k = Some x.
Proof.
  intros Hmid Hfail Hk. induction mid as [|c mid IH]; simpl in *.
  - destruct tail; simpl; [done|]. by rewrite Hk.
  - apply andb_true_iff in Hmid as [-> Hmid].
    pose proof (Hfail 0 ltac:(lia)) as H0. simpl in H0. rewrite H0.
    simpl. apply IH; [done|].
    intros j Hj. apply (Hfail (S j)). lia.
Qed.
End Runs.

(** A search passes over the positions at which the pattern cannot
    start. *)
Lemma search_skip r pre s :
  (forall c t, In c pre -> match_at r (c :: t) = None) ->
  search r (pre ++ s) = search r s.
Proof.
  induction pre as [|c pre IH]; intros H; [done|].
  simpl. rewrite (H c) by by left. apply IH. intros c' t Hc'. apply H. by right.
Qed.

Lemma search_here r s rest caps :
  match_at r s = Some (rest, caps) ->
  search r s = Some (take (length s - length rest) s, rest, caps).
Proof. destruct s; simpl; by intros ->. Qed.

Lemma re_int_starts : starts_at_digit re_int.
Proof. intros c t H. unfold match_at. simpl. unfold d. by rewrite H. Qed.

Lemma re_int_pair_starts : starts_at_digit re_int_pair.
Proof. intros c t H. unfold match_at. simpl. unfold d. by rewrite H. Qed.

Lemma re_decimal_starts : starts_at_digit re_decimal.
Proof. intros c t H. unfold match_at. simpl. unfold d. by rewrite H. Qed.

Lemma search_skip_no_digit r pre s :
  starts_at_digit r -> no_digit pre -> search r (pre ++ s) = search r s.
Proof.
  intros Hr Hpre. apply search_skip. intros c t Hc. apply Hr.
  unfold no_digit in Hpre. rewrite forallb_forall in Hpre.
  apply negb_true_iff, Hpre, Hc.
Qed.

Lemma search_no_digit r s :
  starts_at_digit r -> match_at r [] = None -> no_digit s -> search r s = None.
Proof.
  intros Hr Hnil Hs. rewrite <- (app_nil_r s), search_skip_no_digit by done.
  simpl. by rewrite Hnil.
Qed.

(** [(\d+)]: the first run of digits of the text. *)
Lemma search_re_int pre run rest :
  no_digit pre -> run <> [] -> all_digits run -> stops isdigit rest ->
  search re_int (pre ++ run ++ rest) = Some (run, rest, [run]).
Proof.
  intros Hpre Hne Hrun Hrest.
  rewrite search_skip_no_digit by auto using re_int_starts.
  assert (Hm : match_at re_int (run ++ rest) = Some (rest, [run])).
  { unfold match_at. simpl exec.
    erewrite rep_greedy_run; [| exact Hrun | exact Hrest | | reflexivity].
    - simpl. by rewrite take_run.
    - destruct run; [done|simpl; lia]. }
  by rewrite (search_here _ _ _ _ Hm), take_run.
Qed.

Lemma group1_re_int pre run rest :
  no_digit pre -> run <> [] -> all_digits run -> stops isdigit rest ->
  group1 re_int (pre ++ run ++ rest) = Some run.
Proof. intros. unfold group1. by rewrite search_re_int. Qed.

Lemma group1_re_int_none s : no_digit s -> group1 re_int s = None.
Proof.
  intros H. unfold group1. by rewrite search_no_digit by auto using re_int_starts.
Qed.

(** [(\d+).*?(\d+)]: the first run of digits and the next one, when no
    newline stands between them. *)
Lemma search_re_int_pair pre d1 mid d2 post :
  no_digit pre -> d1 <> [] -> all_digits d1 ->
  mid <> [] -> no_digit mid -> forallb dot mid = true ->
  d2 <> [] -> all_digits d2 -> stops isdigit post ->
  search re_int_pair (pre ++ d1 ++ mid ++ d2 ++ post)
  = Some (d1 ++ mid ++ d2, post, [d1; d2]).
Proof.
  intros Hpre Hne1 Hd1 Hmid Hmidd Hdot Hne2 Hd2 Hpost.
  rewrite search_skip_no_digit by auto using re_int_pair_starts.
  set (s := d1 ++ mid ++ d2 ++ post).
  assert (Hm : match_at re_int_pair s = Some (post, [d1; d2])).
  { unfold match_at. simpl exec. subst s.
    erewrite rep_greedy_run;
      [reflexivity | exact Hd1 | by apply stops_app | | ].
    { destruct d1; [done|simpl; lia]. }
    rewrite take_run.
    erewrite rep_lazy_skip; [reflexivity | exact Hdot | | ].
    - intros j Hj. apply rep_greedy_fail. unfold d.
      destruct (drop j mid) as [|c t] eqn:E.
      + apply (f_equal (@length _)) in E. rewrite length_drop in E. simpl in E. lia.
      + simpl. unfold no_digit in Hmidd. rewrite forallb_forall in Hmidd.
        apply negb_true_iff, Hmidd.
        apply (In_drop mid j). rewrite E. by left.
    - erewrite rep_greedy_run; [| exact Hd2 | exact Hpost | | reflexivity].
      + by rewrite take_run.
      + destruct d2; [done|simpl; lia]. }
  assert (Ht : take (length s - length post) s = d1 ++ mid ++ d2).
  { subst s. rewrite !app_assoc. rewrite take_run. by rewrite <- !app_assoc. }
  by rewrite (search_here _ _ _ _ Hm), Ht.
Qed.

Lemma group12_re_int_pair pre d1 mid d2 post :
  no_digit pre -> d1 <> [] -> all_digits d1 ->
  mid <> [] -> no_digit mid -> forallb dot mid = true ->
  d2 <> [] -> all_digits d2 -> stops isdigit post ->
  group12 re_int_pair (pre ++ d1 ++ mid ++ d2 ++ post) = Some (d1, d2).
Proof. intros. unfold group12. by rewrite search_re_int_pair. Qed.

Lemma group12_re_int_pair_none s :
  no_digit s -> group12 re_int_pair s = None.
Proof.
  intros H. unfold group12.
  by rewrite search_no_digit by auto using re_int_pair_starts.
Qed.

End ExtractFacts.

(** ** The Extractor *)

Module ExtractorFacts.
Import Py Re ReFacts Extractor.

(** What a page that can be read gives. *)
Lemma scrape_page_Ok c page r :
  scrape_page c page = Ok r ->
  exists el,
    find_class "span" "smallTxt" page = Some el
    /\ findall re_number (strip (text el))
       = [Raw.lat r; Raw.lon r; Raw.elev_ft r]
    /\ Raw.location r = of_string (Name c)
    /\ Raw.temperature r
       = option_map text (find_class "p" "myforecast-current-lrg" page)
    /\ labelled "Humidity" page = Ok (Raw.humidity r)
    /\ labelled "Wind Speed" page = Ok (Raw.wind_speed r)
    /\ labelled "Barometer" page = Ok (Raw.barometer r)
    /\ labelled "Dewpoint" page = Ok (Raw.dewpoint r)
    /\ labelled "Visibility" page = Ok (Raw.vis_miles r)
    /\ labelled "Wind Chill" page = Ok (Raw.wind_chill r)
    /\ labelled "Last update" page = Ok (Raw.last_update r).
Proof.
  unfold scrape_page.
  destruct (find_class "span" "smallTxt" page) as [el|]; simpl; [|done].
  destruct (findall re_number (strip (text el)))
    as [|a [|b [|e [|? ?]]]] eqn:Hall; simpl; try done.
  repeat match goal with
         | |- bind ?m _ = Ok _ -> _ => destruct m; simpl; [|done]
         end.
  intros [= <-]. exists el. simpl. repeat split; done.
Qed.

(** A city whose fetch raised is passed over: the run is the run on the
    other cities. *)
Lemma scrape_cities_skip get cities data :
  scrape_cities get cities data
  = scrape_cities get (List.filter (fetched get) cities) data.
Proof.
  revert data. induction cities as [|c cities IH]; intros data; [done|].
  simpl. destruct (get (NWS_URL c)) as [|page] eqn:E.
  - assert (fetched get c = false) as -> by (unfold fetched; by rewrite E).
    apply IH.
  - assert (fetched get c = true) as -> by (unfold fetched; by rewrite E).
    simpl. rewrite E. destruct (scrape_page c page); simpl; [apply IH|done].
Qed.

(** When the fetched pages can be read, one record is emitted for each
    of them, in the order of the cities. *)
Lemma scrape_cities_readable get cities data :
  readable get cities ->
  exists recs,
    scrape_cities get cities data = Ok (data ++ recs)
    /\ map Raw.location recs
       = map (fun c => of_string (Name c)) (List.filter (fetched get) cities).
Proof.
  revert data. induction cities as [|c cities IH]; intros data Hr.
  - exists []. by rewrite app_nil_r.
  - assert (Hr' : readable get cities).
    { intros c' page Hin. apply Hr. by right. }
    simpl.
    destruct (get (NWS_URL c)) as [|page] eqn:E.
    + assert (fetched get c = false) as -> by (unfold fetched; by rewrite E).
      destruct (IH data Hr') as (recs & -> & Hloc). eauto.
    + assert (fetched get c = true) as -> by (unfold fetched; by rewrite E).
      pose proof (Hr c page (or_introl eq_refl) E) as Hok.
      destruct (scrape_page c page) as [r|e] eqn:Er; [|discriminate]. simpl.
      destruct (IH (data ++ [r]) Hr') as (recs & -> & Hloc).
      exists (r :: recs). rewrite <- app_assoc. split; [done|].
      simpl. f_equal; [|done].
      by apply scrape_page_Ok in Er as (el & _ & _ & Hl & _).
Qed.

(** A page that cannot be read ends the run, whatever came before and
    whatever comes after it. *)
Lemma scrape_cities_unreadable get cities data c page e :
  In c cities -> get (NWS_URL c) = Content page ->
  scrape_page c page = Raise e ->
  exists e', scrape_cities get cities data = Raise e'.
Proof.
  revert data. induction cities as [|c0 cities IH]; intros data Hin Hget He;
    [done|].
  simpl. destruct Hin as [->|Hin].
  - rewrite Hget, He. simpl. eauto.
  - destruct (get (NWS_URL c0)) as [|page0]; [by apply IH|].
    destruct (scrape_page c0 page0); simpl; [by apply IH|eauto].
Qed.

(** C8, amended: a fetch that raises passes over its own target only.
    Every run over the configured cities is the run over the cities
    whose fetch returned a response.  When the pages returned can be
    read, one record is emitted for each of them, in the order of the
    cities: with eleven cities configured and exactly one fetch raising,
    exactly ten records, those of the ten other cities.  A response that
    was returned is parsed whatever it holds, and a page that cannot be
    read ends the run for every target. *)
Theorem C8_fetch_failure_skips_one_target (get : string -> response) :
  length CITIES = 11
  /\ scrape_weather_data get
     = scrape_cities get (List.filter (fetched get) CITIES) []
  /\ (readable get CITIES ->
      exists recs,
        scrape_weather_data get = Ok recs
        /\ length recs = length (List.filter (fetched get) CITIES)
        /\ map Raw.location recs
           = map (fun c => of_string (Name c))
               (List.filter (fetched get) CITIES))
  /\ (length (List.filter (fun c => negb (fetched get c)) CITIES) = 1 ->
      readable get CITIES ->
      exists recs, scrape_weather_data get = Ok recs /\ length recs = 10)
  /\ (forall c page,
        In c CITIES -> get (NWS_URL c) = Content page ->
        is_ok (scrape_page c page) = false ->
        is_ok (scrape_weather_data get) = false).
Proof.
  split; [done|]. split; [apply scrape_cities_skip|].
  assert (Hall : readable get CITIES ->
            exists recs,
              scrape_weather_data get = Ok recs
              /\ length recs = length (List.filter (fetched get) CITIES)
              /\ map Raw.location recs
                 = map (fun c => of_string (Name c))
                     (List.filter (fetched get) CITIES)).
  { intros Hr.
    destruct (scrape_cities_readable get CITIES [] Hr) as (recs & H & Hloc).
    exists recs. split; [done|]. split; [|done].
    apply (f_equal (@length _)) in Hloc. by rewrite !length_map in Hloc. }
  split; [done|]. split.
  - intros Hone Hr. destruct (Hall Hr) as (recs & H & Hlen & _).
    exists recs. split; [done|]. rewrite Hlen.
    pose proof (List.filter_length (fetched get) CITIES) as Hl.
    change (length CITIES) with 11 in Hl. lia.
  - intros c page Hin Hget Hbad. unfold scrape_weather_data.
    destruct (scrape_page c page) as [r|e] eqn:E; [discriminate|].
    by destruct (scrape_cities_unreadable get CITIES [] c page e Hin Hget E)
      as [e' ->].
Qed.

(** The run of the theorem exists: Denver's fetch raises, the ten other
    pages are read. *)
Lemma C8_witness :
  exists recs,
    scrape_weather_data (Sample.web (Sample.url_of "Denver, CO") "" [])
    = Ok recs /\ length recs = 10.
Proof.
  refine (proj1 (proj2 (proj2 (proj2
            (C8_fetch_failure_skips_one_target
               (Sample.web (Sample.url_of "Denver, CO") "" []))))) _ _).
  - by vm_compute.
  - intros c page Hin Hget. simpl in Hin.
    repeat destruct Hin as [<-|Hin]; try destruct Hin;
      vm_compute in Hget; try discriminate Hget;
      injection Hget as <-; vm_compute; reflexivity.
Defined.

(** One fetch fails, and the batch of the ten other targets is lost.
    When Denver's server answers with its page of the status 503, the
    fetch returns, the page holds no block of coordinates, and the run
    raises instead of emitting ten records.  When Denver's fetch raises
    and the page of Portland lacks the elevation, exactly one fetch has
    raised, and the run raises instead of emitting ten records. *)
Lemma C8_counterexample :
  scrape_weather_data
    (Sample.web "" (Sample.url_of "Denver, CO") Sample.page_unavailable)
  = Raise AttributeError
  /\ length (List.filter
               (fun c => negb (fetched
                                 (Sample.web (Sample.url_of "Denver, CO")
                                    (Sample.url_of "Portland, ME")
                                    Sample.page_two) c))
               CITIES) = 1
  /\ scrape_weather_data
       (Sample.web (Sample.url_of "Denver, CO")
          (Sample.url_of "Portland, ME") Sample.page_two)
     = Raise ValueError.
Proof. vm_compute. repeat split; reflexivity. Qed.

Lemma labelled_absent label page :
  after_label label page = None -> labelled label page = Ok None.
Proof. unfold labelled. by intros ->. Qed.

Lemma re_number_consumes : consumes re_number = true.
Proof. reflexivity. Qed.

(** C2, amended: what the extraction of one fetched page does.  A label
    that the page lacks makes its field null and raises nothing.  When
    the block of latitude, longitude and elevation is there and holds
    exactly three numeric tokens, and every label that is there is
    followed by a cell, a record is emitted: the city's name, the three
    tokens, and for each label the text of the next cell or null.  When
    the block is missing, or holds another number of tokens than three,
    the extraction raises, and so does the run over any list of cities
    that fetches this page: no record is emitted for any target.  The
    search of the tokens does not run out of fuel. *)
Theorem C2_extraction_emits_or_aborts (c : city) (page : soup) :
  (forall label,
      after_label label page = None -> labelled label page = Ok None)
  /\ (forall el a b e,
        find_class "span" "smallTxt" page = Some el ->
        findall re_number (strip (text el)) = [a; b; e] ->
        (forall label, In label LABELS -> is_ok (labelled label page) = true) ->
        exists r,
          scrape_page c page = Ok r
          /\ Raw.location r = of_string (Name c)
          /\ Raw.lat r = a /\ Raw.lon r = b /\ Raw.elev_ft r = e
          /\ forall label, In label LABELS ->
                           labelled label page = Ok (field_of label r))
  /\ (find_class "span" "smallTxt" page = None ->
      scrape_page c page = Raise AttributeError)
  /\ (forall el,
        find_class "span" "smallTxt" page = Some el ->
        length (findall re_number (strip (text el))) <> 3 ->
        scrape_page c page = Raise ValueError)
  /\ (forall get cities data,
        In c cities -> get (NWS_URL c) = Content page ->
        is_ok (scrape_page c page) = false ->
        is_ok (scrape_cities get cities data) = false)
  /\ (forall fuel s,
        length s < fuel -> findall_from fuel re_number s = findall re_number s).
Proof.
  split; [intros label; apply labelled_absent|].
  split; [|split; [|split; [|split]]].
  - intros el a b e Hel Hall Hlab. unfold scrape_page. rewrite Hel. simpl.
    rewrite Hall. simpl.
    assert (Hl : forall label, In label LABELS ->
                 exists v, labelled label page = Ok v).
    { intros label Hin. specialize (Hlab label Hin).
      destruct (labelled label page); [eauto|discriminate]. }
    destruct (Hl "Humidity"%string) as [v1 H1]; [simpl; tauto|].
    destruct (Hl "Wind Speed"%string) as [v2 H2]; [simpl; tauto|].
    destruct (Hl "Barometer"%string) as [v3 H3]; [simpl; tauto|].
    destruct (Hl "Dewpoint"%string) as [v4 H4]; [simpl; tauto|].
    destruct (Hl "Visibility"%string) as [v5 H5]; [simpl; tauto|].
    destruct (Hl "Wind Chill"%string) as [v6 H6]; [simpl; tauto|].
    destruct (Hl "Last update"%string) as [v7 H7]; [simpl; tauto|].
    rewrite H1, H2, H3, H4, H5, H6, H7. simpl.
    eexists. split; [reflexivity|]. simpl. repeat split.
    intros label Hin. simpl in Hin.
    repeat destruct Hin as [<-|Hin]; try destruct Hin; assumption.
  - intros Hel. unfold scrape_page. by rewrite Hel.
  - intros el Hel Hlen. unfold scrape_page. rewrite Hel. simpl.
    by destruct (findall re_number (strip (text el)))
      as [|a [|b [|e [|? ?]]]].
  - intros get cities data Hin Hget Hbad.
    destruct (scrape_page c page) as [r|e] eqn:E; [discriminate|].
    by destruct (scrape_cities_unreadable get cities data c page e Hin Hget E)
      as [e' ->].
  - intros fuel s Hf. apply findall_enough; [apply re_number_consumes|done].
Qed.

(** The sample page is read, and gives the sample record. *)
Example scrape_page_sample :
  scrape_page (mkcity "Duluth, MN" "") Sample.page_ok = Ok Sample.duluth.
Proof. vm_compute. reflexivity. Qed.

(** A page whose block gives a latitude and a longitude but no elevation
    holds two tokens; the run over the eleven cities, every page fetched
    and ten of them complete, then raises instead of emitting eleven
    records, one of them with three null fields. *)
Lemma C2_counterexample :
  findall re_number (strip Sample.small_two)
  = [of_string "46.72"; of_string "92.04"]
  /\ scrape_weather_data
       (Sample.web "" (Sample.url_of "Portland, ME") Sample.page_two)
     = Raise ValueError
  /\ is_ok (scrape_weather_data (Sample.web "" "" [])) = true.
Proof. vm_compute. repeat split; reflexivity. Qed.

End ExtractorFacts.

(** ** The Normalizer, field by field *)

Module FieldFacts.
Import Py Re Num Pd Normalizer PyFacts ExtractFacts.

Lemma digit_val_range c : isdigit c = true -> (0 <= digit_val c <= 9)%Z.
Proof. intros H%isdigit_code. unfold digit_val. lia. Qed.

Lemma digits_val_nonneg ds : all_digits ds -> (0 <= digits_val ds)%Z.
Proof.
  unfold digits_val, all_digits.
  assert (H : forall acc, (0 <= acc)%Z -> forallb isdigit ds = true ->
                          (0 <= fold_left (fun a c => 10 * a + digit_val c) ds acc)%Z).
  { induction ds as [|c ds IH]; intros acc Hacc Hds; simpl in *; [done|].
    apply andb_true_iff in Hds as [Hc Hds]. apply IH; [|done].
    pose proof (digit_val_range c Hc). lia. }
  intros Hds. by apply H.
Qed.

Lemma to_int64_nonneg z :
  (0 <= z)%Z ->
  to_int64 z = if (z <=? int64_max)%Z then Ok z else Raise OverflowError.
Proof.
  intros Hz. unfold to_int64, in_int64.
  assert ((int64_min <=? z)%Z = true) as ->; [|done].
  apply Z.leb_le. unfold int64_min. lia.
Qed.

(** [.astype(int)] on a run of digits. *)
Lemma astype_int_digits ds :
  ds <> [] -> all_digits ds ->
  astype_int (Some ds) = to_int64 (digits_val ds).
Proof.
  intros Hne Hds. destruct ds as [|c ds]; [done|].
  unfold astype_int. by rewrite py_int_digits.
Qed.

Lemma astype_float_digits ds :
  ds <> [] -> all_digits ds ->
  astype_float (Some ds) = Ok (f64_of_decimal false (digits_val ds) 0).
Proof.
  intros Hne Hds. destruct ds as [|c ds]; [done|].
  unfold astype_float. by rewrite py_float_digits.
Qed.

(** [int] reads a minus sign and a run of digits as the negative number. *)
Lemma py_int_minus_digits c ds :
  forallb isdigit (c :: ds) = true ->
  py_int ("-"%char :: c :: ds) = Ok (- digits_val (c :: ds))%Z.
Proof.
  intros H. unfold py_int.
  destruct (digits_last _ _ H) as (z & Hz & Hzd).
  erewrite trim_id; [| by vm_compute | | by apply isdigit_not_space].
  2:{ change (last ("-"%char :: c :: ds)) with (last (c :: ds)). exact Hz. }
  change (read_sign ("-"%char :: c :: ds)) with (true, c :: ds).
  rewrite <- (app_nil_r (c :: ds)) at 1.
  by rewrite digitpart_digits.
Qed.

(** Running a check on a range checks the range. *)
Lemma holds_upto_spec P n :
  holds_upto P n = true ->
  forall z, (0 <= z < Z.of_N n)%Z -> P z = true.
Proof.
  unfold holds_upto.
  set (f := fun st : Z * bool => ((fst st + 1)%Z, snd st && P (fst st))).
  assert (H : fst (N.iter n f (0%Z, true)) = Z.of_N n
              /\ (snd (N.iter n f (0%Z, true)) = true ->
                  forall z, (0 <= z < Z.of_N n)%Z -> P z = true)).
  { induction n as [|n [IH1 IH2]] using N.peano_ind.
    - simpl. split; [done|]. intros _ z Hz. lia.
    - rewrite N.iter_succ. unfold f at 1 3. simpl. rewrite IH1. split; [lia|].
      intros [Hs HP]%andb_true_iff z Hz.
      destruct (Z.eq_dec z (Z.of_N n)) as [->|Hne]; [done|].
      apply IH2; [done|lia]. }
  apply H.
Qed.

(** The float64 quotient, rounded, is the nearest integer to
    [(f-32)*5/9] for every reading of at most four digits. *)
Lemma temp_c_of_exact f :
  (0 <= f < 10000)%Z -> temp_c_of f = Ok (Spec.temp_c f).
Proof.
  intros Hf.
  assert (H : holds_upto temp_c_agrees 10000 = true) by (vm_compute; reflexivity).
  pose proof (holds_upto_spec _ _ H f Hf) as Hf'. unfold temp_c_agrees in Hf'.
  destruct (temp_c_of f) as [c|e]; [|discriminate].
  by apply Z.eqb_eq in Hf' as ->.
Qed.

(** C3, amended: a temperature text whose first integer [n] is followed
    by a degree sign gives [temp_f = n] when [n] fits int64, that is
    [n <= 2^63 - 1]; a larger [n] is an [OverflowError].  [temp_c] is
    the nearest integer to the float64 quotient of [(temp_f - 32) * 5],
    taken in int64, by 9; for every [n] of at most four digits that is
    [round((temp_f-32)*5/9)].  The text [72°F] gives 72 and 22. *)
Theorem C3_temperature (pre ds rest : str) :
  no_digit pre -> ds <> [] -> all_digits ds ->
  let text := pre ++ ds ++ degree :: rest in
  let n := digits_val ds in
  extract1 re_int (Some text) = Some ds
  /\ temp_f_of (Some text) = to_int64 n
  /\ ((n <= int64_max)%Z -> temp_f_of (Some text) = Ok n)
  /\ ((int64_max < n)%Z -> temp_f_of (Some text) = Raise OverflowError)
  /\ temp_c_of n
     = f64_to_int64 (rint (f64_of_Z (mul64 (sub64 n 32) 5) / 9)%float)
  /\ ((n < 10000)%Z -> temp_c_of n = Ok (Spec.temp_c n))
  /\ temp_f_of (Some (Sample.deg "72" "F")) = Ok 72%Z
  /\ temp_c_of 72 = Ok 22%Z.
Proof.
  intros Hpre Hne Hds text n.
  assert (Hx : extract1 re_int (Some text) = Some ds).
  { apply group1_re_int; try done; by vm_compute. }
  assert (Hf : temp_f_of (Some text) = to_int64 n).
  { unfold temp_f_of. rewrite Hx. by apply astype_int_digits. }
  pose proof (digits_val_nonneg ds Hds) as Hn. fold n in Hn.
  split; [done|]. split; [done|].
  rewrite Hf, to_int64_nonneg by done.
  split; [|split; [|split; [|split; [|split]]]].
  - intros H. by apply Z.leb_le in H as ->.
  - intros H. by apply Z.leb_gt in H as ->.
  - reflexivity.
  - intros H. apply temp_c_of_exact. lia.
  - vm_compute. reflexivity.
  - vm_compute. reflexivity.
Qed.

(** The text [72°F] is such a text: 72 fits int64 and has two digits. *)
Lemma C3_witness :
  temp_f_of (Some (Sample.deg "72" "F")) = Ok 72%Z
  /\ temp_c_of 72 = Ok (Spec.temp_c 72).
Proof.
  destruct (C3_temperature [] (of_string "72") (of_string "F"))
    as (_ & _ & H1 & _ & _ & H2 & _); [by vm_compute|done|by vm_compute|].
  split; [apply H1; by vm_compute|apply H2; by vm_compute].
Defined.

(** A reading of twenty digits does not fit int64: the conversion raises
    and no [temp_f] comes out.  At the largest int64 the product wraps
    around, and [temp_c] is not the rounded quotient. *)
Lemma C3_counterexample :
  temp_f_of (Some (Sample.deg "99999999999999999999" "F"))
  = Raise OverflowError
  /\ temp_f_of (Some (Sample.deg "9223372036854775807" "F"))
     = Ok 9223372036854775807%Z
  /\ temp_c_of 9223372036854775807 = Ok 1024819115206086144%Z
  /\ Spec.temp_c 9223372036854775807 = 5124095576030430986%Z.
Proof. vm_compute. repeat split; reflexivity. Qed.

(** The pair of a text of the shape [-d1°F (-d2°C)]. *)
Lemma extract2_below_zero d1 d2 :
  d1 <> [] -> all_digits d1 -> d2 <> [] -> all_digits d2 ->
  extract2 re_int_pair (Some (Sample.below_zero d1 d2)) = Some (d1, d2).
Proof.
  intros Hn1 Hd1 Hn2 Hd2. unfold extract2, Sample.below_zero.
  change (of_string "-" ++ d1 ++ [degree] ++ of_string "F (-" ++ d2
          ++ [degree] ++ of_string "C)")
    with (of_string "-" ++ d1 ++ (degree :: of_string "F (-") ++ d2
          ++ (degree :: of_string "C)")).
  apply group12_re_int_pair; try done; by vm_compute.
Qed.

(** C10: the paired extraction captures runs of digits without their
    signs.  For a dewpoint or wind-chill text [-d1°F (-d2°C)], whose
    readings are the negative numbers [-d1] and [-d2], the two groups are
    [d1] and [d2], whose values are the absolute values of the readings:
    the dewpoint columns get them as integers (as far as int64 holds
    them) and the wind-chill columns as floats.  The text [-5°F (-21°C)]
    gives 5 and 21. *)
Theorem C10_pair_extraction_drops_the_sign (c1 : ascii) (t1 : str)
        (c2 : ascii) (t2 : str) :
  all_digits (c1 :: t1) -> all_digits (c2 :: t2) ->
  let d1 := c1 :: t1 in
  let d2 := c2 :: t2 in
  let text := Sample.below_zero d1 d2 in
  extract2 re_int_pair (Some text) = Some (d1, d2)
  /\ (exists r1 r2,
        py_int ("-"%char :: d1) = Ok r1 /\ py_int ("-"%char :: d2) = Ok r2
        /\ (r1 <= 0)%Z /\ (r2 <= 0)%Z
        /\ py_int d1 = Ok (Z.abs r1) /\ py_int d2 = Ok (Z.abs r2)
        /\ dewpoint_of (Some text)
           = (do f <- to_int64 (Z.abs r1);
              do c <- to_int64 (Z.abs r2); Ok (f, c))
        /\ wind_chill_of (Some text)
           = Ok (replace0 (fillna0 (f64_of_decimal false (Z.abs r1) 0)),
                 replace0 (fillna0 (f64_of_decimal false (Z.abs r2) 0))))
  /\ dewpoint_of (Some (Sample.below_zero (of_string "5") (of_string "21")))
     = Ok (5, 21)%Z
  /\ wind_chill_of (Some (Sample.below_zero (of_string "5") (of_string "21")))
     = Ok (Some 5%float, Some 21%float).
Proof.
  intros Hd1 Hd2 d1 d2 text.
  assert (Hx : extract2 re_int_pair (Some text) = Some (d1, d2))
    by by apply extract2_below_zero.
  pose proof (digits_val_nonneg d1 Hd1) as Hv1.
  pose proof (digits_val_nonneg d2 Hd2) as Hv2.
  split; [done|]. split; [|split; vm_compute; reflexivity].
  exists (- digits_val d1)%Z, (- digits_val d2)%Z.
  rewrite !Z.abs_opp, !Z.abs_eq by done.
  split; [by apply py_int_minus_digits|]. split; [by apply py_int_minus_digits|].
  split; [lia|]. split; [lia|].
  split; [by apply py_int_digits|]. split; [by apply py_int_digits|].
  unfold dewpoint_of, wind_chill_of. rewrite Hx.
  rewrite !astype_int_digits, !astype_float_digits by done. done.
Qed.

(** The text [-5°F (-21°C)] is such a text. *)
Lemma C10_witness :
  extract2 re_int_pair
    (Some (Sample.below_zero (of_string "5") (of_string "21")))
  = Some (of_string "5", of_string "21").
Proof.
  refine (proj1 (C10_pair_extraction_drops_the_sign "5"%char [] "2"%char
                   (of_string "1") _ _)); by vm_compute.
Defined.

(** A text without a digit has no pair. *)
Lemma extract2_no_digit s :
  no_digit s -> extract2 re_int_pair (Some s) = None.
Proof. apply group12_re_int_pair_none. Qed.

Lemma replace0_not_zero v v' : replace0 v = Some v' -> (v' =? 0)%float = false.
Proof.
  unfold replace0. destruct (v =? 0)%float eqn:E; [done|]. by intros [= <-].
Qed.

(** One wind-chill value: null when no pair is found, when the field is
    absent and when both numbers are zero, and never zero. *)
Lemma wind_chill_of_null x :
  (extract2 re_int_pair x = None -> wind_chill_of x = Ok (None, None))
  /\ (forall f c v, wind_chill_of x = Ok (f, c) ->
                    f = Some v \/ c = Some v -> (v =? 0)%float = false).
Proof.
  split.
  - unfold wind_chill_of. intros ->. vm_compute. reflexivity.
  - intros f c v. unfold wind_chill_of.
    destruct (extract2 re_int_pair x) as [[g1 g2]|].
    + unfold astype_float.
      destruct (py_float g1) as [v1|]; cbn [bind]; [|done].
      destruct (py_float g2) as [v2|]; cbn [bind]; [|done].
      intros [= <- <-] [H|H]; by apply replace0_not_zero in H.
    + vm_compute. intros [= <- <-] [H|H]; discriminate.
Qed.

Lemma numeric_column_absent n : numeric_column (repeat None n) = true.
Proof. induction n as [|n IH]; [done|]. simpl. exact IH. Qed.

(** C7, at the input where the code fails it.  One wind-chill value is
    null when no pair of integers is found, when the field is absent and
    when the pair is 0/0, and it is never zero.  But a batch in which no
    record has a wind-chill text is read as a numeric column, the
    accessor [.str] raises, and the Normalizer returns nothing: the
    absent fields are not made null. *)
Theorem C7_wind_chill_all_absent (n : nat) :
  (forall x, extract2 re_int_pair x = None ->
             wind_chill_of x = Ok (None, None))
  /\ (forall s, no_digit s -> wind_chill_of (Some s) = Ok (None, None))
  /\ wind_chill_of None = Ok (None, None)
  /\ wind_chill_of (Some (Sample.deg "0" "F (0" ++ Sample.deg "" "C)"))
     = Ok (None, None)
  /\ (forall x f c v, wind_chill_of x = Ok (f, c) ->
                      f = Some v \/ c = Some v -> (v =? 0)%float = false)
  /\ wind_chill_column (repeat None n) = Raise AttributeError
  /\ is_ok (transform_weather_data Sample.utc_worker
              [Sample.duluth; Sample.denver]) = true
  /\ transform_weather_data Sample.utc_worker
       [Sample.mild "Denver, CO"; Sample.mild "Seattle, WA"]
     = Raise AttributeError.
Proof.
  split; [intros x; apply wind_chill_of_null|].
  split; [intros s Hs; by apply wind_chill_of_null, extract2_no_digit|].
  split; [by vm_compute|]. split; [by vm_compute|].
  split; [intros x; apply wind_chill_of_null|].
  split; [|split; vm_compute; reflexivity].
  unfold wind_chill_column, str_accessor. by rewrite numeric_column_absent.
Qed.

(** [split()] gives first the text up to the first whitespace, when the
    text does not start with whitespace. *)
Lemma split_ws_from_token cur tok w rest :
  forallb (fun c => negb (isspace c)) tok = true ->
  cur ++ tok <> [] -> isspace w = true ->
  split_ws_from cur (tok ++ w :: rest)
  = (rev cur ++ tok) :: split_ws_from [] rest.
Proof.
  revert cur. induction tok as [|c tok IH]; intros cur Htok Hne Hw; simpl.
  - rewrite Hw, app_nil_r. rewrite app_nil_r in Hne. by destruct cur.
  - simpl in Htok. apply andb_true_iff in Htok as [Hc Htok].
    apply negb_true_iff in Hc. rewrite Hc.
    rewrite IH; [|done|done|done]. simpl. by rewrite <- app_assoc.
Qed.

Lemma contains_app_r p a b : contains p b = true -> contains p (a ++ b) = true.
Proof.
  intros H. induction a as [|c a IH]; [done|].
  simpl. rewrite IH. apply orb_true_r.
Qed.

Lemma decimal_no_space ip fp :
  all_digits ip -> all_digits fp ->
  forallb (fun c => negb (isspace c)) (ip ++ "."%char :: fp) = true.
Proof.
  assert (Hd : forall l, all_digits l ->
               forallb (fun c => negb (isspace c)) l = true).
  { intros l Hl. unfold all_digits in Hl. rewrite forallb_forall in Hl |- *.
    intros c Hc. by rewrite isdigit_not_space by auto. }
  intros Hip Hfp. rewrite forallb_app, (Hd ip) by done.
  cbn [forallb andb]. rewrite (Hd fp) by done. by vm_compute.
Qed.

Lemma not_NA_digit c s :
  isdigit c = true -> str_eqb (c :: s) (of_string "NA") = false.
Proof.
  intros H%isdigit_code. simpl. rewrite ch_eqb_code.
  change (code "N"%char) with 78.
  destruct (Nat.eqb_spec (code c) 78); [lia|done].
Qed.

(** One element of the barometer column, and the column. *)
Lemma barometer_column_lookup col vs i x :
  barometer_column col = Ok vs -> col !! i = Some x ->
  exists s o, x = Some s /\ barometer_of s = Ok o
              /\ vs !! i = Some (match o with
                                 | Some f => round2 f
                                 | None => nan
                                 end).
Proof.
  unfold barometer_column. destruct (numeric_column col); [done|].
  destruct (traverse _ col) as [os|] eqn:E; simpl; [|done].
  destruct (forallb _ os); [done|]. intros [= <-] Hi.
  destruct (traverse_lookup _ _ _ _ _ E Hi) as (o & Ho & Hx).
  destruct x as [s|]; [|done].
  exists s, o. split; [done|]. split; [done|].
  by rewrite list_lookup_fmap, Ho.
Qed.

(** C5, amended: a barometer text made of a decimal number [ip.fp],
    whitespace, and a unit that holds the letters [in] is converted to
    the float64 product of the number by 33.8639, and the column rounds
    it to two decimals: [30.12 in] gives 1019.98 millibars, which is not
    within 0.01 of 1019.64.  A text without [in], such as the sentinel
    [NA], is converted to null, and so is it in every column where at
    least one text is converted to a number. *)
Theorem C5_barometer (c : ascii) (ip : str) (c' : ascii) (fp ws unit : str) :
  all_digits (c :: ip) -> all_digits (c' :: fp) ->
  ws <> [] -> forallb isspace ws = true ->
  contains (of_string "in") unit = true ->
  let x := (c :: ip) ++ "."%char :: (c' :: fp) ++ ws ++ unit in
  let v := f64_of_decimal false (digits_val ((c :: ip) ++ c' :: fp))
             (- Z.of_nat (length (c' :: fp))) in
  barometer_of x = Ok (Some (v * MB_PER_INHG)%float)
  /\ (forall col vs i, barometer_column col = Ok vs ->
        col !! i = Some (Some x) ->
        vs !! i = Some (round2 (v * MB_PER_INHG)%float))
  /\ barometer_column [Some (of_string "30.12 in")] = Ok [1019.98%float]
  /\ (forall s, contains (of_string "in") s = false ->
                barometer_of s = Ok None)
  /\ barometer_of (of_string "NA") = Ok None
  /\ (forall col vs i s, barometer_column col = Ok vs ->
        col !! i = Some (Some s) ->
        contains (of_string "in") s = false \/ s = of_string "NA" ->
        exists y, vs !! i = Some y /\ notnull y = None).
Proof.
  intros Hip Hfp Hws Hsp Hin x v.
  assert (Hb : barometer_of x = Ok (Some (v * MB_PER_INHG)%float)).
  { unfold barometer_of.
    assert (contains (of_string "in") x = true) as ->.
    { subst x.
      change ((c :: ip) ++ "."%char :: (c' :: fp) ++ ws ++ unit)
        with ((c :: ip) ++ ("."%char :: c' :: fp) ++ ws ++ unit).
      rewrite !app_assoc. by apply contains_app_r. }
    assert (str_eqb x (of_string "NA") = false) as ->.
    { apply not_NA_digit. unfold all_digits in Hip. simpl in Hip.
      by apply andb_true_iff in Hip as [? _]. }
    simpl andb. cbv iota.
    destruct ws as [|w ws]; [done|]. simpl in Hsp.
    apply andb_true_iff in Hsp as [Hw _].
    unfold split_ws. subst x.
    replace ((c :: ip) ++ "."%char :: (c' :: fp) ++ (w :: ws) ++ unit)
      with (((c :: ip) ++ "."%char :: c' :: fp) ++ w :: (ws ++ unit))
      by (by rewrite <- !app_assoc).
    rewrite split_ws_from_token; [|by apply decimal_no_space|done|done].
    simpl rev. rewrite app_nil_l.
    rewrite py_float_decimal by done. done. }
  split; [done|]. split; [|split; [by vm_compute|split; [|split; [by vm_compute|]]]].
  - intros col vs i Hcol Hi.
    destruct (barometer_column_lookup _ _ _ _ Hcol Hi) as (s & o & [= <-] & Ho & Hv).
    rewrite Hb in Ho. by injection Ho as <-.
  - intros s Hs. unfold barometer_of. by rewrite Hs.
  - intros col vs i s Hcol Hi Hs.
    destruct (barometer_column_lookup _ _ _ _ Hcol Hi) as (s' & o & [= <-] & Ho & Hv).
    assert (barometer_of s = Ok None) as Hn.
    { destruct Hs as [Hs| ->]; [|by vm_compute].
      unfold barometer_of. by rewrite Hs. }
    rewrite Hn in Ho. injection Ho as <-. exists nan. split; [done|]. by vm_compute.
Qed.

(** The cell of the sample page, [30.12 in (1019.9 mb)], is such a text. *)
Lemma C5_witness :
  barometer_of (of_string "30.12 in (1019.9 mb)")
  = Ok (Some (30.12 * MB_PER_INHG)%float).
Proof.
  refine (proj1 (C5_barometer "3"%char (of_string "0") "1"%char (of_string "2")
                   (of_string " ") (of_string "in (1019.9 mb)") _ _ _ _ _));
    by vm_compute.
Defined.

(** [30.12 in] gives 1019.98 millibars, more than 0.01 away from
    1019.64. *)
Lemma C5_counterexample :
  barometer_column [Some (of_string "30.12 in")] = Ok [1019.98%float]
  /\ (0.01 <? abs (1019.98 - 1019.64))%float = true.
Proof. vm_compute. split; reflexivity. Qed.

End FieldFacts.

(** ** The split of the location *)

Module LocationFacts.
Import Py Num Pd Normalizer PyFacts.

Lemma lskip_keeps x s : In x s -> numeric_space x = false -> In x (lskip s).
Proof.
  intros Hin Hx. induction s as [|c s IH]; [done|]. simpl.
  destruct (numeric_space c) eqn:Ec; [|done].
  destruct Hin as [->|Hin]; [congruence|auto].
Qed.

Lemma trim_keeps x s : In x s -> numeric_space x = false -> In x (trim s).
Proof.
  intros Hin Hx. unfold trim.
  apply in_rev. rewrite rev_involutive.
  apply lskip_keeps; [|done]. apply -> in_rev. by apply lskip_keeps.
Qed.

Lemma read_sign_keeps x s :
  In x s -> x <> "-"%char -> x <> "+"%char -> In x (read_sign s).2.
Proof.
  intros Hin Hm Hp. destruct s as [|c s]; [done|]. unfold read_sign.
  destruct (ch_eqb c "-"%char) eqn:E1.
  { apply ch_eqb_eq in E1 as ->. simpl. destruct Hin as [<-|]; done. }
  destruct (ch_eqb c "+"%char) eqn:E2; [|done].
  apply ch_eqb_eq in E2 as ->. simpl. destruct Hin as [<-|]; done.
Qed.

Lemma digit_run_keeps x s :
  In x s -> isdigit x = false -> ch_eqb x "_"%char = false ->
  In x (digit_run s).2.
Proof.
  intros Hin Hd Hu. induction s as [|c s IH]; [done|]. simpl.
  destruct (isdigit c) eqn:Ec.
  { destruct (digit_run s) as [ds r]. simpl in *.
    destruct Hin as [->|Hin]; [congruence|auto]. }
  destruct (ch_eqb c "_"%char) eqn:Eu; [|done].
  destruct s as [|c2 s]; [done|].
  destruct (isdigit c2); [|done].
  apply IH. destruct Hin as [->|Hin]; [congruence|done].
Qed.

Lemma digitpart_keeps x s :
  In x s -> isdigit x = false -> ch_eqb x "_"%char = false ->
  In x (digitpart s).2.
Proof.
  intros Hin Hd Hu. unfold digitpart. destruct s as [|c s]; [done|].
  destruct (isdigit c); [by apply digit_run_keeps|done].
Qed.

(** [float] reads no text that holds a comma. *)
Lemma py_float_comma s : In comma s -> py_float s = Raise ValueError.
Proof.
  intros Hin. unfold py_float.
  pose proof (trim_keeps comma s Hin eq_refl) as H1.
  pose proof (read_sign_keeps comma _ H1 ltac:(done) ltac:(done)) as H2.
  destruct (read_sign (trim s)) as [neg t]. simpl in H2.
  assert (Hlow : In comma (map lower t)).
  { exact (in_map lower t comma H2). }
  assert (Hw : forall w : string,
             ~ In comma (of_string w) -> str_eqb (map lower t) (of_string w) = false).
  { intros w Hnw. destruct (str_eqb _ _) eqn:E; [|done].
    apply str_eqb_eq in E. rewrite E in Hlow. done. }
  rewrite !Hw by (vm_compute; intuition discriminate). simpl orb. cbv iota.
  pose proof (digitpart_keeps comma t H2 eq_refl eq_refl) as H3.
  destruct (digitpart t) as [ip r1]. simpl in H3.
  assert (Hfp : exists fp r2,
             match r1 with
             | c :: r => if ch_eqb c "."%char then digitpart r else ([], r1)
             | [] => ([], [])
             end = (fp, r2) /\ In comma r2).
  { destruct r1 as [|c r]; [done|].
    destruct (ch_eqb c "."%char) eqn:E; [|by eexists _, _].
    apply ch_eqb_eq in E as ->. destruct H3 as [|H3]; [done|].
    pose proof (digitpart_keeps comma r H3 eq_refl eq_refl).
    destruct (digitpart r) as [fp r2]. by eexists _, _. }
  destruct Hfp as (fp & r2 & -> & H4).
  assert (read_exponent r2 = None) as ->; [|by destruct (ip ++ fp)].
  unfold read_exponent. destruct r2 as [|c r]; [done|].
  destruct (ch_eqb (lower c) "e"%char) eqn:E; [|done].
  destruct H4 as [Hc|H4]; [by subst c|].
  pose proof (read_sign_keeps comma _ H4 ltac:(done) ltac:(done)) as H5.
  destruct (read_sign r) as [neg' t']. simpl in H5.
  pose proof (digitpart_keeps comma t' H5 eq_refl eq_refl) as H6.
  destruct (digitpart t') as [[|d0 ds] [|c0 rest]]; done.
Qed.

Lemma contains_sep_comma s :
  contains (of_string ", ") s = true -> In comma s.
Proof.
  induction s as [|c s IH]; [done|]. simpl.
  intros [H|H]%orb_true_iff; [|right; auto].
  apply andb_true_iff in H as [H _]. apply ch_eqb_eq in H. by left.
Qed.

(** A text without the separator is one piece. *)
Lemma split_from_unsplit cur s :
  unsplit s -> split_from (of_string ", ") cur s 0 = [rev cur ++ s].
Proof.
  unfold unsplit. revert cur. induction s as [|c s IH]; intros cur H.
  - simpl. by rewrite app_nil_r.
  - cbn [contains] in H. apply orb_false_iff in H as [H1 H2].
    cbn [split_from]. rewrite H1, IH by done. simpl. by rewrite <- app_assoc.
Qed.

Lemma startswith_sep_app a b :
  a <> [] -> startswith (of_string ", ") a = false ->
  startswith (of_string ", ") (a ++ of_string ", " ++ b) = false.
Proof.
  destruct a as [|c [|c2 a]]; [done| |]; simpl; intros _ H.
  - destruct (ch_eqb comma c); [|done]. done.
  - done.
Qed.

(** The first separator ends the first piece. *)
Lemma split_from_sep cur a b :
  unsplit a ->
  split_from (of_string ", ") cur (a ++ of_string ", " ++ b) 0
  = (rev cur ++ a) :: split_from (of_string ", ") [] b 0.
Proof.
  unfold unsplit. revert cur. induction a as [|c a IH]; intros cur H.
  - simpl. by rewrite app_nil_r.
  - pose proof H as H'. cbn [contains] in H'.
    apply orb_false_iff in H' as [H1 H2].
    change ((c :: a) ++ of_string ", " ++ b)
      with (c :: (a ++ of_string ", " ++ b)).
    cbn [split_from].
    change (c :: (a ++ of_string ", " ++ b))
      with ((c :: a) ++ of_string ", " ++ b).
    rewrite startswith_sep_app by done.
    rewrite IH by done. simpl. by rewrite <- app_assoc.
Qed.

Lemma split_joined c s :
  unsplit c -> unsplit s -> split (of_string ", ") (joined (c, s)) = [c; s].
Proof.
  intros Hc Hs. unfold split, joined. cbn [fst snd].
  rewrite split_from_sep by done. by rewrite split_from_unsplit.
Qed.

Lemma split_unsplit s : unsplit s -> split (of_string ", ") s = [s].
Proof. intros H. unfold split. by rewrite split_from_unsplit. Qed.

Lemma width_const (ls : list (list str)) n :
  ls <> [] -> (forall l, In l ls -> length l = n) ->
  foldr Nat.max 0 (map (@length str) ls) = n.
Proof.
  induction ls as [|l ls IH]; [done|]. intros _ H. simpl.
  rewrite (H l) by by left.
  destruct ls as [|l' ls]; [simpl; lia|].
  rewrite IH; [lia|done|]. intros l0 Hl0. apply H. by right.
Qed.

Lemma joined_not_numeric rows :
  rows <> [] -> numeric_column (map Some (map joined rows)) = false.
Proof.
  destruct rows as [|[c s] rows]; [done|]. intros _. simpl.
  rewrite py_float_comma; [done|]. unfold joined. simpl.
  apply in_or_app. right. by left.
Qed.

(** C4, amended: the Normalizer splits each location on every [, ] and
    needs the longest split of the batch to have exactly two pieces.  A
    batch whose locations all are [city, state], with no further
    separator, gets these cities and states: [Denver, CO] gives [Denver]
    and [CO].  A batch in which no location has a separator is not given
    empty states: the Normalizer raises.  In a batch that is split, a
    location without a separator gets the whole text as city and the text
    [None] as state.  A location with two separators makes the Normalizer
    raise. *)
Theorem C4_location_split :
  (forall rows : list (str * str),
      rows <> [] ->
      (forall cs, In cs rows -> unsplit cs.1 /\ unsplit cs.2) ->
      split_location (map joined rows) = Ok rows)
  /\ split_location [of_string "Denver, CO"]
     = Ok [(of_string "Denver", of_string "CO")]
  /\ (forall col : list str,
        (forall s, In s col -> unsplit s) ->
        exists e, split_location col = Raise e)
  /\ (forall (col : list str) out i s,
        split_location col = Ok out -> col !! i = Some s -> unsplit s ->
        out !! i = Some (s, of_string "None"))
  /\ split_location [of_string "Denver, CO"; of_string "Washington, D.C., DC"]
     = Raise ValueError.
Proof.
  split; [|split; [by vm_compute|split; [|split; [|by vm_compute]]]].
  - intros rows Hne Hrows. unfold split_location, str_accessor.
    rewrite joined_not_numeric by done. cbn [bind]. cbv zeta.
    assert (Hp : map (split (of_string ", ")) (map joined rows)
                 = map (fun cs => [cs.1; cs.2]) rows).
    { rewrite map_map. apply map_ext_in. intros [c s] Hin.
      destruct (Hrows _ Hin). by apply split_joined. }
    rewrite Hp. rewrite (width_const _ 2).
    + cbn [Nat.eqb]. f_equal. rewrite map_map. rewrite <- (map_id rows) at 2.
      apply map_ext. by intros [c s].
    + by destruct rows.
    + intros l (cs & <- & _)%in_map_iff. done.
  - intros col Hcol. unfold split_location, str_accessor.
    destruct (numeric_column (map Some col)); simpl; [eauto|].
    destruct col as [|s0 col]; [simpl; eauto|].
    rewrite (width_const _ 1); [simpl; eauto|done|].
    intros l (s & <- & Hs)%in_map_iff. by rewrite split_unsplit by auto.
  - intros col out i s. unfold split_location, str_accessor.
    destruct (numeric_column (map Some col)); simpl; [done|].
    destruct (_ =? 2); [|done]. intros [= <-] Hi Hs.
    rewrite !list_lookup_fmap, Hi. simpl. by rewrite split_unsplit.
Qed.

(** A location without a separator, alone in its batch, makes the
    Normalizer raise; beside a location that is split it gets the state
    [None], not the empty text. *)
Lemma C4_counterexample :
  split_location [of_string "Denver"] = Raise ValueError
  /\ is_ok (transform_weather_data Sample.utc_worker
              [Sample.record "Denver" (Some (Sample.deg "72" "F"))
                 Sample.baro_ok Sample.chill_ok "CST"]) = false
  /\ split_location [of_string "Denver"; of_string "Portland, OR"]
     = Ok [(of_string "Denver", of_string "None");
           (of_string "Portland", of_string "OR")].
Proof. vm_compute. repeat split; reflexivity. Qed.

End LocationFacts.

(** ** Dates and times *)

Module DtFacts.
Import Py Dt PyFacts Spec.

Section Calendar.
Local Open Scope Z_scope.

(** The date of an ordinal within the years 1 to 9999 is a date. *)
Lemma ord2ymd_range n0 :
  (1 <= n0 <= MAXORDINAL)%Z ->
  let '(y, m, d) := ord2ymd n0 in
  (1 <= y <= 9999 /\ 1 <= m <= 12 /\ 1 <= d <= 31)%Z.
Proof.
  unfold MAXORDINAL, ord2ymd. intros Hn.
  set (n := n0 - 1).
  set (n400 := n / 146097). set (r1 := n mod 146097).
  set (n100 := r1 / 36524). set (r2 := r1 mod 36524).
  set (n4 := r2 / 1461). set (r3 := r2 mod 1461).
  set (n1 := r3 / 365). set (r4 := r3 mod 365).
  assert (E1 : n = 146097 * n400 + r1 /\ 0 <= r1 < 146097)
    by (subst n400 r1; split; [apply Z.div_mod|apply Z.mod_pos_bound]; lia).
  assert (E2 : r1 = 36524 * n100 + r2 /\ 0 <= r2 < 36524)
    by (subst n100 r2; split; [apply Z.div_mod|apply Z.mod_pos_bound]; lia).
  assert (E3 : r2 = 1461 * n4 + r3 /\ 0 <= r3 < 1461)
    by (subst n4 r3; split; [apply Z.div_mod|apply Z.mod_pos_bound]; lia).
  assert (E4 : r3 = 365 * n1 + r4 /\ 0 <= r4 < 365)
    by (subst n1 r4; split; [apply Z.div_mod|apply Z.mod_pos_bound]; lia).
  assert (Hn' : 0 <= n <= 3652058) by (subst n; lia).
  clearbody n400 r1 n100 r2 n4 r3 n1 r4 n. clear Hn n0.
  destruct (Z.eqb_spec n1 4) as [H14|H14]; simpl orb.
  { cbv iota. lia. }
  destruct (Z.eqb_spec n100 4) as [H1004|H1004]; cbv iota.
  { lia. }
  set (leap := (n1 =? 3) && (negb (n4 =? 24) || (n100 =? 3))).
  set (m := (r4 + 50) / 32).
  assert (Em : 32 * m <= r4 + 50 < 32 * m + 32).
  { subst m. pose proof (Z.div_mod (r4 + 50) 32 ltac:(lia)).
    pose proof (Z.mod_pos_bound (r4 + 50) 32 ltac:(lia)). lia. }
  clearbody m.
  assert (Hy : 1 <= n400 * 400 + 1 + n100 * 100 + n4 * 4 + n1 <= 9999) by lia.
  assert (Hm : m = 1 \/ m = 2 \/ m = 3 \/ m = 4 \/ m = 5 \/ m = 6 \/ m = 7
               \/ m = 8 \/ m = 9 \/ m = 10 \/ m = 11 \/ m = 12) by lia.
  clearbody leap.
  repeat destruct Hm as [->|Hm]; try subst m;
    destruct leap;
    cbv [tab DAYS_BEFORE_MONTH DAYS_IN_MONTH];
    repeat match goal with
           | |- context [Z.to_nat ?k] =>
               let v := eval vm_compute in (Z.to_nat k) in
               change (Z.to_nat k) with v
           | |- context [(?a - ?b)] =>
               is_ground_Z a b;
               let v := eval vm_compute in (a - b) in change (a - b) with v
           end;
    cbn [nth andb];
    repeat match goal with
           | |- context [(?a <? ?b)] => destruct (Z.ltb_spec a b)
           | |- context [(?a =? ?b)] => destruct (Z.eqb_spec a b)
           end; cbn [andb] in *; cbv iota beta in *; lia.
Qed.

(** What [minus_seconds] returns is a date and time. *)
Lemma minus_seconds_range dt off u :
  minus_seconds dt off = Ok u ->
  1 <= year u <= 9999 /\ 1 <= month u <= 12 /\ 1 <= day u <= 31
  /\ 0 <= hour u < 24 /\ 0 <= minute u < 60 /\ 0 <= second u < 60
  /\ microsecond u = microsecond dt.
Proof.
  unfold minus_seconds.
  set (secs := hour dt * 3600 + minute dt * 60 + second dt - off).
  set (ord := ymd2ord (year dt) (month dt) (day dt) + secs / 86400).
  destruct (Z.leb_spec 1 ord); [|done].
  destruct (Z.leb_spec ord MAXORDINAL); [|done]. cbn [andb].
  pose proof (ord2ymd_range ord ltac:(lia)) as Hr.
  destruct (ord2ymd ord) as [[y m] d]. intros [= <-]. cbn.
  pose proof (Z.mod_pos_bound secs 86400 ltac:(lia)) as Hs.
  set (r := secs mod 86400) in *. clearbody r.
  pose proof (Z.div_mod r 3600 ltac:(lia)).
  pose proof (Z.mod_pos_bound r 3600 ltac:(lia)).
  pose proof (Z.div_mod (r mod 3600) 60 ltac:(lia)).
  pose proof (Z.mod_pos_bound (r mod 3600) 60 ltac:(lia)).
  pose proof (Z.mod_pos_bound r 60 ltac:(lia)).
  lia.
Qed.

End Calendar.

Lemma digit_char_isdigit n : isdigit (digit_char n) = true.
Proof.
  unfold digit_char. apply isdigit_code. unfold code.
  pose proof (Z.mod_pos_bound n 10 ltac:(lia)) as H.
  rewrite nat_ascii_embedding; lia.
Qed.

Lemma numeral_spec fuel : forall n acc k,
  (0 <= n < 10 ^ Z.of_nat k)%Z -> 1 <= k ->
  (n < 2 ^ Z.of_nat fuel)%Z -> 1 <= fuel ->
  exists ds, numeral fuel n acc = ds ++ acc
             /\ 1 <= length ds <= k /\ forallb isdigit ds = true.
Proof.
  induction fuel as [|fuel IH]; intros n acc k Hn Hk Hf Hfuel; [lia|].
  cbn [numeral]. destruct (Z.ltb_spec n 10) as [Hlt|Hge].
  - exists [digit_char n]. cbn [app length forallb]. rewrite digit_char_isdigit.
    split; [done|]. split; [lia|done].
  - assert (2 <= k).
    { destruct k as [|[|k]]; [lia| |lia]. change (10 ^ Z.of_nat 1)%Z with 10%Z in Hn. lia. }
    assert (1 <= fuel).
    { destruct fuel; [|lia]. change (2 ^ Z.of_nat 1)%Z with 2%Z in Hf. lia. }
    destruct (IH (n / 10)%Z (digit_char n :: acc) (k - 1)) as (ds & -> & Hlen & Hd).
    + split; [apply Z.div_pos; lia|].
      apply Z.div_lt_upper_bound; [lia|].
      replace (Z.of_nat (k - 1)) with (Z.of_nat k - 1)%Z by lia.
      rewrite <- Z.pow_succ_r by lia. replace (Z.succ (Z.of_nat k - 1)) with (Z.of_nat k) by lia.
      lia.
    + lia.
    + apply Z.div_lt_upper_bound; [lia|].
      rewrite Nat2Z.inj_succ, Z.pow_succ_r in Hf by lia. lia.
    + done.
    + exists (ds ++ [digit_char n]). rewrite <- app_assoc. split; [done|].
      rewrite length_app, forallb_app. cbn [length forallb].
      rewrite Hd, digit_char_isdigit. split; [lia|done].
Qed.

(** A field within its width is written in exactly that many digits. *)
Lemma pad_spec w n :
  1 <= w -> (0 <= n < 10 ^ Z.of_nat w)%Z ->
  length (pad w n) = w /\ forallb isdigit (pad w n) = true.
Proof.
  intros Hw Hn. unfold pad.
  destruct (numeral_spec (S (Z.to_nat (Z.log2 n))) n [] w) as (ds & -> & Hlen & Hd);
    [done|done| |lia|].
  - rewrite Nat2Z.inj_succ, Z2Nat.id by apply Z.log2_nonneg.
    destruct (Z.eq_dec n 0%Z) as [->|Hne]; [done|].
    apply Z.log2_spec. lia.
  - rewrite app_nil_r, length_app, repeat_length, forallb_app, Hd.
    split; [lia|]. rewrite andb_true_r.
    apply forallb_forall. intros x Hx%repeat_spec. by subst.
Qed.





(** A year of four digits is written in four digits, an earlier one in
    fewer. *)
Lemma decimal_four n : (1000 <= n <= 9999)%Z -> decimal n = pad 4 n.
Proof.
  intros Hn. unfold pad. fold (decimal n).
  assert (length (decimal n) = 4) as ->; [|done].
  unfold decimal.
  assert (9 <= Z.log2 n)%Z
    by (change 9%Z with (Z.log2 1000); apply Z.log2_le_mono; lia).
  destruct (Z.to_nat (Z.log2 n)) as [|[|[|f]]] eqn:E; try lia.
  cbn [numeral].
  destruct (Z.ltb_spec n 10); [lia|].
  destruct (Z.ltb_spec (n / 10) 10);
    [Z.to_euclidean_division_equations; lia|].
  destruct (Z.ltb_spec (n / 10 / 10) 10);
    [Z.to_euclidean_division_equations; lia|].
  destruct (Z.ltb_spec (n / 10 / 10 / 10) 10);
    [done|Z.to_euclidean_division_equations; lia].
Qed.

Lemma decimal_short n :
  (1 <= n < 1000)%Z ->
  1 <= length (decimal n) <= 3 /\ forallb isdigit (decimal n) = true.
Proof.
  intros Hn. unfold decimal.
  destruct (numeral_spec (S (Z.to_nat (Z.log2 n))) n [] 3)
    as (ds & -> & Hlen & Hd);
    [by change (10 ^ _)%Z with 1000%Z; lia|lia| |lia|].
  - rewrite Nat2Z.inj_succ, Z2Nat.id by apply Z.log2_nonneg.
    apply Z.log2_spec. lia.
  - by rewrite app_nil_r.
Qed.


End DtFacts.

(** ** The Normalizer, batch by batch *)

Module NormalizerFacts.
Import Py Re Num Dt Pd Normalizer PyFacts ExtractFacts DtFacts Spec.

(** The table of zone offsets holds one zone. *)
Lemma tzinfos_lookup name off :
  tzinfos !! name = Some off <-> name = "CST"%string /\ off = (-21600)%Z.
Proof.
  unfold tzinfos. rewrite lookup_singleton_Some. split; intros [-> ->]; done.
Qed.

(** The last update of a text whose zone the table holds. *)
Lemma last_update_of_table w x res name off :
  parse_text w x = Some res -> tzname res = Some name ->
  tzinfos !! name = Some off ->
  last_update_of w x
  = (do u <- minus_seconds (naive res) off; Ok (strftime u)).
Proof.
  intros Hp Hn Hoff. unfold last_update_of, parse. rewrite Hp. cbn [bind].
  unfold build_tzaware. rewrite Hn, Hoff. done.
Qed.






(** What the statements of the task returned, when all of them did. *)
Lemma transform_columns_Ok w data cs :
  transform_columns w data = Ok cs ->
  data <> []
  /\ c_location cs = map Raw.location data
  /\ split_location (map Raw.location data) = Ok (c_city_state cs)
  /\ temp_f_column (map Raw.temperature data) = Ok (c_temp_f cs)
  /\ traverse temp_c_of (c_temp_f cs) = Ok (c_temp_c cs)
  /\ barometer_column (map Raw.barometer data) = Ok (c_barometer cs)
  /\ dewpoint_column (map Raw.dewpoint data) = Ok (c_dewpoint cs)
  /\ wind_chill_column (map Raw.wind_chill data) = Ok (c_wind_chill cs)
  /\ last_update_column w (map Raw.last_update data) = Ok (c_last_update cs).
Proof.
  unfold transform_columns. destruct data as [|r data]; [done|].
  intros H.
  bind_ok H v1 E1. bind_ok H v2 E2. bind_ok H v3 E3. bind_ok H v4 E4.
  bind_ok H v5 E5. bind_ok H v6 E6. bind_ok H v7 E7. bind_ok H v8 E8.
  bind_ok H v9 E9. bind_ok H v10 E10. bind_ok H v11 E11. bind_ok H v12 E12.
  bind_ok H v13 E13.
  injection H as <-. cbn. repeat split; done.
Qed.

Lemma map_nth_seq {A} (l : list A) d :
  map (fun i => nth i l d) (seq 0 (length l)) = l.
Proof.
  apply (nth_ext _ _ d d).
  - by rewrite length_map, length_seq.
  - intros n Hn. rewrite length_map, length_seq in Hn.
    rewrite (nth_indep _ _ (nth 0 l d)) by by rewrite length_map, length_seq.
    change (nth 0 l d) with ((fun i => nth i l d) 0).
    rewrite map_nth, seq_nth by done. done.
Qed.

(** The accessor returns the column it is given. *)
Lemma str_accessor_Ok col col' : str_accessor col = Ok col' -> col' = col.
Proof. unfold str_accessor. destruct (numeric_column col); congruence. Qed.

(** A temperature without an integer cannot be converted. *)
Lemma temp_f_of_no_integer x : no_integer x -> temp_f_of x = Raise ValueError.
Proof.
  intros H. unfold temp_f_of.
  assert (extract1 re_int x = None) as ->; [|done].
  destruct x as [s|]; [|done]. by apply group1_re_int_none.
Qed.

Lemma temp_f_column_no_integer col x fs :
  In x col -> no_integer x -> temp_f_column col <> Ok fs.
Proof.
  intros Hin Hx. unfold temp_f_column.
  destruct (str_accessor col) as [col'|] eqn:E; cbn [bind]; [|done].
  apply str_accessor_Ok in E as ->.
  destruct (traverse_raise temp_f_of col x ValueError Hin) as [e ->];
    [by apply temp_f_of_no_integer|done].
Qed.

Lemma last_update_column_unparsable w col x ss :
  In x col -> unparsable w x -> last_update_column w col <> Ok ss.
Proof.
  intros Hin Hx. unfold last_update_column.
  destruct (numeric_column col); [done|].
  set (f := fun x : option str => match x with
                                  | Some s => last_update_of w s
                                  | None => Raise TypeError
                                  end).
  assert (exists e, f x = Raise e) as [e He].
  { destruct x as [s|]; [|by eexists]. simpl in Hx. subst f. cbn beta iota.
    unfold last_update_of, parse. rewrite Hx. by eexists. }
  by destruct (traverse_raise f col x e Hin He) as [e' ->].
Qed.

(** One row of the frame that the Normalizer returns. *)
Lemma transform_row w data out i r :
  transform_weather_data w data = Ok out -> data !! i = Some r ->
  exists t,
    out !! i = Some t
    /\ Typed.location t = Raw.location r
    /\ temp_f_of (Raw.temperature r) = Ok (Typed.temp_f t)
    /\ temp_c_of (Typed.temp_f t) = Ok (Typed.temp_c t)
    /\ dewpoint_of (Raw.dewpoint r) = Ok (Typed.dewpoint_f t, Typed.dewpoint_c t)
    /\ wind_chill_of (Raw.wind_chill r)
       = Ok (Typed.wind_chill_f t, Typed.wind_chill_c t)
    /\ (exists s, Raw.last_update r = Some s
                  /\ last_update_of w s = Ok (Typed.last_update t)).
Proof.
  unfold transform_weather_data. intros H Hi.
  bind_ok H cs E. injection H as <-.
  apply transform_columns_Ok in E
    as (_ & Hloc & _ & Htf & Htc & _ & Hde & Hwc & Hlu).
  pose proof (lookup_lt_Some _ _ _ Hi) as Hlt.
  exists (row cs i). split.
  { rewrite list_lookup_fmap, lookup_seq_lt by done. done. }
  unfold temp_f_column, dewpoint_column, wind_chill_column,
    last_update_column in *.
  destruct (str_accessor (map Raw.temperature data)) as [c1|] eqn:A1;
    cbn [bind] in Htf; [|done]. apply str_accessor_Ok in A1 as ->.
  destruct (str_accessor (map Raw.dewpoint data)) as [c2|] eqn:A2;
    cbn [bind] in Hde; [|done]. apply str_accessor_Ok in A2 as ->.
  destruct (str_accessor (map Raw.wind_chill data)) as [c3|] eqn:A3;
    cbn [bind] in Hwc; [|done]. apply str_accessor_Ok in A3 as ->.
  destruct (numeric_column (map Raw.last_update data)); [done|].
  assert (Hm : forall {B} (g : Raw.record -> B), map g data !! i = Some (g r)).
  { intros B g. by rewrite list_lookup_fmap, Hi. }
  destruct (traverse_lookup _ _ _ _ _ Htf (Hm _ Raw.temperature))
    as (tf & Htf1 & Htf2).
  destruct (traverse_lookup _ _ _ _ _ Htc Htf1) as (tcv & Htc1 & Htc2).
  destruct (traverse_lookup _ _ _ _ _ Hde (Hm _ Raw.dewpoint))
    as ([df dc] & Hde1 & Hde2).
  destruct (traverse_lookup _ _ _ _ _ Hwc (Hm _ Raw.wind_chill))
    as ([wf wc] & Hwc1 & Hwc2).
  destruct (traverse_lookup _ _ _ _ _ Hlu (Hm _ Raw.last_update))
    as (lu & Hlu1 & Hlu2).
  unfold row. cbn.
  rewrite Hloc, (nth_lookup_Some _ _ _ _ (Hm _ Raw.location)).
  rewrite (nth_lookup_Some _ _ _ _ Htf1), (nth_lookup_Some _ _ _ _ Htc1),
    (nth_lookup_Some _ _ _ _ Hde1), (nth_lookup_Some _ _ _ _ Hwc1),
    (nth_lookup_Some _ _ _ _ Hlu1). cbn.
  repeat split; try done.
  destruct (Raw.last_update r) as [s|]; [eauto|done].
Qed.

(** C1, amended: the Normalizer excludes no record and counts no drop.
    Whenever it returns a batch, the batch has one record for each record
    it was given, in the same order.  When the temperature text of a
    record holds no integer, or its last update cannot be parsed, the
    Normalizer returns nothing for the whole batch: the exception leaves
    the task. *)
Theorem C1_no_record_is_dropped (w : worker) (data : list Raw.record) :
  (forall out, transform_weather_data w data = Ok out ->
     length out = length data
     /\ map Typed.location out = map Raw.location data)
  /\ (forall r, In r data ->
        no_integer (Raw.temperature r) \/ unparsable w (Raw.last_update r) ->
        exists e, transform_weather_data w data = Raise e).
Proof.
  split.
  - intros out H. unfold transform_weather_data in H.
    bind_ok H cs E. injection H as <-.
    apply transform_columns_Ok in E as (_ & Hloc & _).
    split; [by rewrite length_map, length_seq|].
    rewrite map_map. unfold row. cbn. rewrite Hloc.
    rewrite <- (length_map Raw.location data). apply map_nth_seq.
  - intros r Hin Hbad.
    destruct (transform_weather_data w data) as [out|e] eqn:H; [|eauto].
    exfalso. unfold transform_weather_data in H.
    bind_ok H cs E. clear H.
    apply transform_columns_Ok in E as (_ & _ & _ & Htf & _ & _ & _ & _ & Hlu).
    destruct Hbad as [Hbad|Hbad].
    + eapply temp_f_column_no_integer; [|exact Hbad|exact Htf].
      by apply in_map.
    + eapply last_update_column_unparsable; [|exact Hbad|exact Hlu].
      by apply in_map.
Qed.

(** The batch of one good record is normalized; with a record whose
    temperature holds no integer beside it, or one whose last update
    cannot be parsed, the Normalizer raises instead of returning the good
    record and a count of one. *)
Lemma C1_counterexample :
  is_ok (transform_weather_data Sample.utc_worker [Sample.duluth]) = true
  /\ transform_weather_data Sample.utc_worker [Sample.duluth; Sample.no_temp]
     = Raise ValueError
  /\ transform_weather_data Sample.utc_worker
       [Sample.duluth;
        Sample.record "Seattle, WA" (Some (Sample.deg "41" "F"))
          Sample.baro_ok Sample.chill_ok "???"]
     = Raise ParserError.
Proof. vm_compute. repeat split; reflexivity. Qed.

End NormalizerFacts.

(** ** The tokens of the coordinates *)

Module TokenFacts.
Import Py Re Num ReFacts PyFacts ExtractFacts Token.

Section Strong.
Context {R : Type}.
Implicit Types (k : str -> option R) (s : str).

(** The characters that a greedy repetition has taken are in its class. *)
Lemma rep_greedy_taken p lo s k x :
  rep_greedy p lo s k = Some x ->
  exists n, k (drop n s) = Some x /\ lo <= n <= length s
            /\ forallb p (take n s) = true.
Proof.
  revert lo. induction s as [|c s IH]; intros lo; simpl.
  - destruct lo; [|done]. intros H. exists 0. simpl. split; [done|]. split; [lia|done].
  - assert (Hstop : match lo with O => k (c :: s) | S _ => None end = Some x ->
                    exists n, k (drop n (c :: s)) = Some x
                              /\ lo <= n <= length (c :: s)
                              /\ forallb p (take n (c :: s)) = true).
    { destruct lo; [|done]. intros H. exists 0. simpl.
      split; [done|]. split; [lia|done]. }
    destruct (p c) eqn:Ec; [|done].
    intros [H|[_ H]]%orelse_Some; [|by apply Hstop].
    apply IH in H as (n & Hk & Hn & Hp). exists (S n). simpl.
    rewrite Ec, Hp. split; [done|]. split; [lia|done].
Qed.

(** A greedy repetition fails when what follows it fails wherever the
    repetition can stop. *)
Lemma rep_greedy_none p lo run rest k :
  forallb p run = true -> stops p rest ->
  (forall j, j <= length run -> k (drop j run ++ rest) = None) ->
  rep_greedy p lo (run ++ rest) k = None.
Proof.
  intros Hrun Hrest. revert lo.
  induction run as [|c run IH]; intros lo Hk; simpl in *.
  - pose proof (Hk 0 ltac:(lia)) as H0. simpl in H0.
    destruct rest as [|c rest]; simpl; [by destruct lo|].
    simpl in Hrest. rewrite Hrest. by destruct lo.
  - apply andb_true_iff in Hrun as [-> Hrun].
    rewrite IH; [|done|].
    + simpl. pose proof (Hk 0 ltac:(lia)) as H0. simpl in H0. by destruct lo.
    + intros j Hj. apply (Hk (S j)). lia.
Qed.

(** A greedy repetition gives back its last character when what follows
    fails behind it and matches in front of it. *)
Lemma rep_greedy_back p lo run c rest k x :
  forallb p run = true -> p c = true -> stops p rest -> lo <= length run ->
  k rest = None -> k (c :: rest) = Some x ->
  rep_greedy p lo (run ++ c :: rest) k = Some x.
Proof.
  intros Hrun Hc Hrest. revert lo.
  induction run as [|a run IH]; intros lo Hlo Hn Hk; simpl in *.
  - assert (lo = 0) as -> by lia. rewrite Hc. cbn [pred].
    assert (rep_greedy p 0 rest k = None) as ->; [|done].
    destruct rest as [|c' rest]; simpl; [done|]. simpl in Hrest. by rewrite Hrest.
  - apply andb_true_iff in Hrun as [-> Hrun].
    rewrite IH; [done|done|lia|done|done].
Qed.

(** A lazy repetition fails when what follows it fails everywhere. *)
Lemma rep_lazy_none p s k :
  (forall j, j <= length s -> k (drop j s) = None) ->
  rep_lazy p 0 s k = None.
Proof.
  induction s as [|c s IH]; intros Hk; simpl.
  - apply (Hk 0). simpl. lia.
  - pose proof (Hk 0 ltac:(lia)) as H0. simpl in H0. rewrite H0. simpl.
    destruct (p c); [|done]. apply IH. intros j Hj. apply (Hk (S j)). simpl. lia.
Qed.
End Strong.

(** What a match leaves is the end of the text. *)
Lemma match_at_suffix r s rest caps :
  match_at r s = Some (rest, caps) ->
  exists n, n <= length s /\ rest = drop n s.
Proof.
  unfold match_at. intros H.
  apply exec_sound in H as (n & caps' & [= <- <-] & Hn & _). eauto.
Qed.

(** What [search] returns: the match, what follows it, and in front of
    them the text that was passed over. *)
Lemma search_split r s m rest caps :
  search r s = Some (m, rest, caps) ->
  exists pre, s = pre ++ m ++ rest /\ match_at r (m ++ rest) = Some (rest, caps).
Proof.
  assert (Hhere : forall s, match_at r s = Some (rest, caps) ->
            s = take (length s - length rest) s ++ rest).
  { intros s0 H. destruct (match_at_suffix _ _ _ _ H) as (n & Hn & ->).
    rewrite length_drop.
    replace (length s0 - (length s0 - n)) with n by lia.
    by rewrite take_drop. }
  induction s as [|c s IH].
  - simpl. destruct (match_at r []) as [[rest' caps']|] eqn:E; [|done].
    intros [= <- <- <-]. exists []. simpl.
    pose proof (match_at_suffix _ _ _ _ E) as (n & Hn & Hr).
    rewrite drop_nil in Hr. subst rest'. simpl. by split.
  - simpl. destruct (match_at r (c :: s)) as [[rest' caps']|] eqn:E.
    + intros [= <- <- <-]. exists []. cbn [app].
      pose proof (Hhere _ E) as Hs. simpl in Hs. rewrite <- Hs. by split.
    + intros H. apply IH in H as (pre & -> & Hm). exists (c :: pre). by split.
Qed.

(** Every element of [findall] is the match of a search in a part of the
    text. *)
Lemma findall_from_In r fuel s t :
  In t (findall_from fuel r s) ->
  exists s' rest caps, search r s' = Some (t, rest, caps).
Proof.
  revert s. induction fuel as [|fuel IH]; intros s; simpl; [done|].
  destruct (search r s) as [[[m rest] caps]|] eqn:E; [|done].
  intros [<-|H]; [eauto|]. by apply IH in H.
Qed.


(** [\d*\.\d+] at the front of a text. *)
Lemma match_fraction_sound s rest caps :
  match_at (Cat (Rep d 0 false) (Cat (Cls (lit "."%char)) (Rep d 1 false))) s
  = Some (rest, caps) ->
  exists ip fp, s = ip ++ "."%char :: fp ++ rest
                /\ all_digits ip /\ all_digits fp /\ fp <> [].
Proof.
  unfold match_at. cbn [exec]. intros H.
  apply rep_greedy_taken in H as (n & H & Hn & Hip).
  destruct (drop n s) as [|c s3] eqn:E; [done|].
  destruct (lit "."%char c) eqn:Ec; [|done].
  apply ch_eqb_eq in Ec as ->.
  apply rep_greedy_taken in H as (n' & [= <- <-] & Hn' & Hfp).
  exists (take n s), (take n' s3). split; [|split; [done|split; [done|]]].
  - rewrite <- (take_drop n s) at 1. rewrite E.
    by rewrite <- (take_drop n' s3) at 1.
  - intros Hnil. apply (f_equal (@length _)) in Hnil.
    rewrite length_take in Hnil. simpl in Hnil. lia.
Qed.

(** A match of the pattern of the coordinates is a decimal or a run of
    digits. *)
Lemma match_re_number_sound s rest caps :
  match_at re_number s = Some (rest, caps) ->
  exists m, s = m ++ rest /\ number_token m.
Proof.
  unfold match_at, re_number. cbn [exec].
  intros [H|[_ H]]%orelse_Some.
  - assert (Hk : forall s1, rep_greedy d 0 s1
             (fun s' => exec (Cat (Cls (lit "."%char)) (Rep d 1 false)) s' []
                          (fun rest caps => Some (rest, caps)))
             = Some (rest, caps) ->
             exists ip fp, s1 = ip ++ "."%char :: fp ++ rest
                           /\ all_digits ip /\ all_digits fp /\ fp <> []).
    { intros s1 H1. apply (match_fraction_sound s1 rest caps).
      unfold match_at. cbn [exec]. exact H1. }
    cbn [exec] in Hk.
    assert (Hd : forall sg s1,
               (sg = [] \/ sg = ["-"%char] \/ sg = ["+"%char]) ->
               (exists ip fp, s1 = ip ++ "."%char :: fp ++ rest
                              /\ all_digits ip /\ all_digits fp /\ fp <> []) ->
               exists m, sg ++ s1 = m ++ rest /\ number_token m).
    { intros sg s1 Hsg (ip & fp & -> & Hip & Hfp & Hne).
      exists (sg ++ ip ++ "."%char :: fp). split.
      - by rewrite <- !app_assoc.
      - left. by exists sg, ip, fp. }
    destruct s as [|c s'].
    + apply Hk in H. by apply (Hd []); [left|].
    + destruct (sign c) eqn:Ec.
      * apply orelse_Some in H as [H|[_ H]].
        -- apply Hk in H. unfold sign in Ec.
           apply orb_true_iff in Ec as [Ec|Ec]; apply ch_eqb_eq in Ec as ->.
           ++ apply (Hd ["-"%char] s'); [auto|done].
           ++ apply (Hd ["+"%char] s'); [auto|done].
        -- apply Hk in H. by apply (Hd []); [left|].
      * apply Hk in H. by apply (Hd []); [left|].
  - apply rep_greedy_taken in H as (n & [= <- <-] & Hn & Hp).
    exists (take n s). split; [by rewrite take_drop|]. right. split; [done|].
    intros Hnil. apply (f_equal (@length _)) in Hnil.
    rewrite length_take in Hnil. simpl in Hnil. lia.
Qed.

Lemma findall_re_number_tokens s t :
  In t (findall re_number s) -> number_token t.
Proof.
  intros (s' & rest & caps & H)%findall_from_In.
  apply search_split in H as (pre & _ & H).
  apply match_re_number_sound in H as (m & Hm & Ht).
  by apply app_inv_tail in Hm as ->.
Qed.


(** [int] and [float] read a text without whitespace as it stands. *)
Lemma lskip_no_space s :
  forallb (fun c => negb (isspace c)) s = true -> lskip s = s.
Proof.
  destruct s as [|c s]; [done|].
  intros [H _]%andb_true_iff. apply negb_true_iff in H. by apply lskip_id.
Qed.

Lemma trim_no_space s :
  forallb (fun c => negb (isspace c)) s = true -> trim s = s.
Proof.
  intros H. unfold trim. rewrite (lskip_no_space s H).
  rewrite lskip_no_space; [apply rev_involutive|].
  rewrite forallb_forall in H |- *. intros c Hc. apply H. by apply in_rev.
Qed.

Lemma digits_no_space ds :
  all_digits ds -> forallb (fun c => negb (isspace c)) ds = true.
Proof.
  unfold all_digits. rewrite !forallb_forall. intros H c Hc.
  by rewrite isdigit_not_space by auto.
Qed.

Lemma read_sign_minus t : read_sign ("-"%char :: t) = (true, t).
Proof. reflexivity. Qed.

Lemma read_sign_plus t : read_sign ("+"%char :: t) = (false, t).
Proof. reflexivity. Qed.

Lemma read_sign_dot t : read_sign ("."%char :: t) = (false, "."%char :: t).
Proof. reflexivity. Qed.

(** The sign that [float] and [int] read in front of a number. *)
Lemma read_sign_token sg t :
  (sg = [] \/ sg = ["-"%char] \/ sg = ["+"%char]) ->
  match t with
  | c :: _ => isdigit c = true \/ c = "."%char
  | [] => False
  end ->
  read_sign (sg ++ t) = (str_eqb sg ["-"%char], t).
Proof.
  intros [->|[->| ->]] Ht; [|reflexivity|reflexivity].
  destruct t as [|c t]; [done|]. destruct Ht as [Hc| ->]; [|reflexivity].
  cbn [app]. by rewrite (read_sign_digit c t Hc).
Qed.

(** [float] reads a decimal with an optional sign and an optional
    integer part as the binary64 number nearest to it. *)
Lemma py_float_token_decimal sg ip c' fp :
  (sg = [] \/ sg = ["-"%char] \/ sg = ["+"%char]) ->
  all_digits ip -> all_digits (c' :: fp) ->
  py_float (sg ++ ip ++ "."%char :: c' :: fp)
  = Ok (f64_of_decimal (str_eqb sg ["-"%char])
          (digits_val (ip ++ c' :: fp)) (- Z.of_nat (length (c' :: fp)))).
Proof.
  intros Hsg Hip Hfp. unfold py_float.
  rewrite trim_no_space; cycle 1.
  { rewrite !forallb_app, (digits_no_space ip Hip).
    change (forallb _ ("."%char :: c' :: fp))
      with (forallb (fun c => negb (isspace c)) (c' :: fp)).
    rewrite (digits_no_space _ Hfp).
    by destruct Hsg as [->|[->| ->]]. }
  rewrite read_sign_token; [|done|]; cycle 1.
  { destruct ip as [|c ip]; [by right|]. left.
    unfold all_digits in Hip. simpl in Hip. by apply andb_true_iff in Hip as [? _]. }
  set (neg := str_eqb sg ["-"%char]). clearbody neg. clear Hsg sg.
  assert (Hw : forall w : string,
             match of_string w with
             | [] => True
             | x :: _ => (code x <? 48)%nat || (57 <? code x)%nat = true
             end ->
             ch_eqb "."%char (hd "."%char (of_string w)) = false ->
             str_eqb (map lower (ip ++ "."%char :: c' :: fp)) (of_string w) = false).
  { intros w H1 H2. destruct ip as [|c ip].
    - cbn [app map]. destruct (of_string w) as [|x t]; [done|].
      cbn [str_eqb]. simpl in H2. change (lower "."%char) with "."%char. by rewrite H2.
    - apply not_word_digit; [|done].
      unfold all_digits in Hip. simpl in Hip. by apply andb_true_iff in Hip as [? _]. }
  rewrite !Hw by (vm_compute; done). simpl orb. cbv iota.
  assert (digitpart (ip ++ "."%char :: c' :: fp) = (ip, "."%char :: c' :: fp)) as ->.
  { destruct ip as [|c ip]; [reflexivity|].
    apply digitpart_digits; [done|by vm_compute]. }
  rewrite ch_eqb_refl.
  rewrite <- (app_nil_r (c' :: fp)) at 1.
  rewrite digitpart_digits by done.
  simpl read_exponent. cbv iota beta.
  destruct (ip ++ c' :: fp) as [|x l] eqn:E; [by destruct ip|].
  repeat f_equal; lia.
Qed.

(** [float] reads every token of the pattern of the coordinates. *)
Lemma py_float_number_token t :
  number_token t -> is_ok (py_float t) = true.
Proof.
  intros [(sg & ip & fp & -> & Hsg & Hip & Hfp & Hne)|[Hd Hne]].
  - destruct fp as [|c' fp]; [done|].
    by rewrite py_float_token_decimal.
  - destruct t as [|c t]; [done|]. by rewrite py_float_digits.
Qed.

End TokenFacts.

Module SignFacts.
Import Py Re Num Pd Normalizer ReFacts PyFacts ExtractFacts Token TokenFacts.

Lemma number_token_digit m :
  number_token m -> exists c, In c m /\ isdigit c = true.
Proof.
  intros [(sg & ip & fp & -> & _ & _ & Hfp & Hne)|[Hd Hne]].
  - destruct fp as [|c fp]; [done|]. exists c. split.
    + apply in_or_app. right. apply in_or_app. right. right. by left.
    + unfold all_digits in Hfp. simpl in Hfp. by apply andb_true_iff in Hfp as [? _].
  - destruct m as [|c m]; [done|]. exists c. split; [by left|].
    unfold all_digits in Hd. simpl in Hd. by apply andb_true_iff in Hd as [? _].
Qed.

(** A text without a digit holds no number. *)
Lemma search_re_number_no_digit s : no_digit s -> search re_number s = None.
Proof.
  intros Hs. destruct (search re_number s) as [[[m rest] caps]|] eqn:E; [|done].
  apply search_split in E as (pre & -> & H).
  apply match_re_number_sound in H as (m' & Hm & Ht).
  apply app_inv_tail in Hm as <-.
  destruct (number_token_digit m Ht) as (c & Hc & Hd).
  unfold no_digit in Hs. rewrite forallb_forall in Hs.
  specialize (Hs c). rewrite Hd in Hs. exfalso.
  assert (In c (pre ++ m ++ rest)) as Hin.
  { apply in_or_app. right. apply in_or_app. by left. }
  by specialize (Hs Hin).
Qed.

Lemma findall_from_none r fuel s : search r s = None -> findall_from fuel r s = [].
Proof. intros H. destruct fuel; [done|]. simpl. by rewrite H. Qed.

(** [\.\d+] fails in front of a digit and in a text without digits. *)
Lemma point_fails {R} (s : str) caps (k : str -> list str -> option R) :
  (match s with c :: _ => isdigit c = true | [] => False end) \/ no_digit s ->
  exec (Cat (Cls (lit "."%char)) (Rep d 1 false)) s caps k = None.
Proof.
  intros H. cbn [exec]. destruct s as [|c s]; [done|].
  destruct (lit "."%char c) eqn:E; [|done].
  apply ch_eqb_eq in E as ->. destruct H as [H|H]; [done|].
  apply rep_greedy_fail. unfold no_digit in H. simpl in H.
  destruct s as [|c s]; [done|]. simpl in *.
  apply andb_true_iff in H as [H _]. by apply negb_true_iff in H.
Qed.

Lemma no_digit_stops s : no_digit s -> stops isdigit s.
Proof.
  destruct s as [|c s]; [done|]. unfold no_digit. simpl.
  intros [H _]%andb_true_iff. by apply negb_true_iff.
Qed.

(** [\d*\.\d+] fails on a run of digits that no decimal point with
    digits follows. *)
Lemma fraction_fails {R} ds rest caps (k : str -> list str -> option R) :
  all_digits ds -> no_digit rest ->
  exec (Cat (Rep d 0 false) (Cat (Cls (lit "."%char)) (Rep d 1 false)))
    (ds ++ rest) caps k = None.
Proof.
  intros Hds Hrest.
  change (rep_greedy d 0 (ds ++ rest)
            (fun s' => exec (Cat (Cls (lit "."%char)) (Rep d 1 false)) s' caps k)
          = None).
  apply rep_greedy_none; [done|by apply no_digit_stops|].
  intros j Hj. apply point_fails.
  destruct (drop j ds) as [|c t] eqn:E.
  - right. done.
  - left. simpl. unfold all_digits in Hds. rewrite forallb_forall in Hds.
    apply Hds, (In_drop ds j). rewrite E. by left.
Qed.

Lemma match_re_number_plain c t :
  isdigit c || sign c || lit "."%char c = false ->
  match_at re_number (c :: t) = None.
Proof.
  intros H. apply orb_false_iff in H as [H Hp].
  apply orb_false_iff in H as [Hd Hs].
  unfold match_at, re_number. cbn [exec]. rewrite Hs.
  cbn [rep_greedy]. change (d c) with (isdigit c). by rewrite Hd, Hp.
Qed.

Lemma search_skip_plain pre s :
  plain pre -> search re_number (pre ++ s) = search re_number s.
Proof.
  intros Hpre. apply search_skip. intros c t Hc.
  apply match_re_number_plain.
  unfold plain in Hpre. rewrite forallb_forall in Hpre.
  apply negb_true_iff, Hpre, Hc.
Qed.

Lemma digit_not_sign c : isdigit c = true -> sign c = false.
Proof.
  intros Hc%isdigit_code. unfold sign. rewrite !ch_eqb_code.
  change (code "-"%char) with 45. change (code "+"%char) with 43.
  destruct (Nat.eqb_spec (code c) 45); [lia|].
  destruct (Nat.eqb_spec (code c) 43); [lia|]. done.
Qed.

(** An integer behind a minus sign: the match is the run of digits. *)
Lemma search_re_number_minus pre c ds rest :
  plain pre -> all_digits (c :: ds) -> no_digit rest ->
  search re_number (pre ++ "-"%char :: (c :: ds) ++ rest)
  = Some (c :: ds, rest, []).
Proof.
  intros Hpre Hds Hrest. rewrite search_skip_plain by done.
  assert (Hc : isdigit c = true).
  { unfold all_digits in Hds. simpl in Hds. by apply andb_true_iff in Hds as [? _]. }
  pose proof (digit_not_sign c Hc) as Hs.
  assert (Hm : match_at re_number ("-"%char :: (c :: ds) ++ rest) = None).
  { unfold match_at, re_number.
    change (exec (Alt ?a ?b) ?s ?caps ?k)
      with (orelse (exec a s caps k) (exec b s caps k)).
    change (exec (Cat (Opt sign) ?r) ("-"%char :: ?s) ?caps ?k)
      with (orelse (exec r s caps k) (exec r ("-"%char :: s) caps k)).
    rewrite fraction_fails by done.
    reflexivity. }
  assert (Hh : match_at re_number ((c :: ds) ++ rest) = Some (rest, [])).
  { unfold match_at, re_number.
    change (exec (Alt ?a ?b) ?s ?caps ?k)
      with (orelse (exec a s caps k) (exec b s caps k)).
    assert (exec (Cat (Opt sign)
                    (Cat (Rep d 0 false) (Cat (Cls (lit "."%char)) (Rep d 1 false))))
              ((c :: ds) ++ rest) [] (fun rest caps => Some (rest, caps)) = None) as ->.
    { cbn [exec app]. rewrite Hs.
      change (exec (Cat (Rep d 0 false) (Cat (Cls (lit "."%char)) (Rep d 1 false)))
                ((c :: ds) ++ rest) [] (fun rest caps => Some (rest, caps)) = None).
      by apply fraction_fails. }
    cbn [orelse exec].
    apply rep_greedy_run; [done|by apply no_digit_stops|simpl; lia|done]. }
  cbn [search]. rewrite Hm.
  by rewrite (search_here _ _ _ _ Hh), take_run.
Qed.


Lemma sign_cases sg :
  (sg = [] \/ sg = ["-"%char] \/ sg = ["+"%char]) ->
  forall t, match sg ++ t with
            | c :: s' => (sign c = true /\ sg = [c] /\ s' = t)
                         \/ (sg = [] /\ c :: s' = t)
            | [] => sg = [] /\ t = []
            end.
Proof.
  intros [->|[->| ->]] t; cbn [app].
  - destruct t; [done|]. by right.
  - left. done.
  - left. done.
Qed.

(** A decimal, with its sign when it has one, is matched whole. *)
Lemma search_re_number_decimal pre sg ip c' fp rest :
  plain pre -> (sg = [] \/ sg = ["-"%char] \/ sg = ["+"%char]) ->
  all_digits ip -> all_digits (c' :: fp) -> stops isdigit rest ->
  search re_number (pre ++ sg ++ ip ++ "."%char :: (c' :: fp) ++ rest)
  = Some (sg ++ ip ++ "."%char :: c' :: fp, rest, []).
Proof.
  intros Hpre Hsg Hip Hfp Hrest. rewrite search_skip_plain by done.
  set (t := ip ++ "."%char :: (c' :: fp) ++ rest).
  assert (Hk : exec (Cat (Rep d 0 false)
                       (Cat (Cls (lit "."%char)) (Rep d 1 false)))
                 t [] (fun rest caps => Some (rest, caps)) = Some (rest, [])).
  { subst t. cbn [exec].
    apply rep_greedy_run; [done| |lia|].
    - simpl. unfold d. reflexivity.
    - change (lit "."%char "."%char) with true. cbv iota.
      apply rep_greedy_run; [done|done|simpl; lia|done]. }
  assert (Hm : match_at re_number (sg ++ t) = Some (rest, [])).
  { unfold match_at, re_number.
    change (exec (Alt ?a ?b) ?s ?caps ?k)
      with (orelse (exec a s caps k) (exec b s caps k)).
    assert (exec (Cat (Opt sign)
                    (Cat (Rep d 0 false) (Cat (Cls (lit "."%char)) (Rep d 1 false))))
              (sg ++ t) [] (fun rest caps => Some (rest, caps)) = Some (rest, [])) as ->;
      [|done].
    change (exec (Cat (Opt sign) ?r) ?s ?caps ?k)
      with (exec (Opt sign) s caps (fun s1 caps1 => exec r s1 caps1 k)).
    cbn [exec].
    pose proof (sign_cases sg Hsg t) as Hc.
    destruct (sg ++ t) as [|c s'] eqn:E.
    - destruct Hc as [_ Ht]. unfold t in Ht. destruct ip; discriminate Ht.
    - destruct Hc as [(Hs & _ & ->)|[-> Ht]].
      + rewrite Hs. cbn [exec] in Hk. by rewrite Hk.
      + assert (sign c = false) as ->.
        { unfold t in Ht. destruct ip as [|c0 ip].
          - injection Ht as -> _. reflexivity.
          - injection Ht as -> _. apply digit_not_sign.
            unfold all_digits in Hip. simpl in Hip.
            by apply andb_true_iff in Hip as [? _]. }
        rewrite Ht. cbn [exec] in Hk. exact Hk. }
  rewrite (search_here _ _ _ _ Hm). subst t.
  replace (sg ++ ip ++ "."%char :: (c' :: fp) ++ rest)
    with ((sg ++ ip ++ "."%char :: c' :: fp) ++ rest).
  - by rewrite take_run.
  - rewrite <- !app_assoc. done.
Qed.


Lemma findall_single r s m rest caps :
  search r s = Some (m, rest, caps) -> search r rest = None ->
  findall r s = [m].
Proof.
  intros H1 H2. unfold findall. cbn [findall_from]. rewrite H1.
  by rewrite findall_from_none.
Qed.

(** X3: the pattern of the coordinates keeps a sign in front of a decimal
    only: of an integer behind a minus sign the token is the run of
    digits, which [float] reads as the positive number; of a decimal
    behind a minus sign the token has the sign, and [float] reads the
    negative number.  An elevation below sea level, written without
    decimals, comes out above sea level. *)
Theorem X3_sign_kept_for_decimals_only (pre : str) (c : ascii)
        (ds rest : str) :
  plain pre -> all_digits (c :: ds) -> no_digit rest ->
  findall re_number (pre ++ "-"%char :: (c :: ds) ++ rest) = [c :: ds]
  /\ py_float (c :: ds) = Ok (f64_of_decimal false (digits_val (c :: ds)) 0)
  /\ py_int ("-"%char :: c :: ds) = Ok (- digits_val (c :: ds))%Z
  /\ (forall c' fp, all_digits (c' :: fp) ->
        findall re_number
          (pre ++ "-"%char :: (c :: ds) ++ "."%char :: (c' :: fp) ++ rest)
        = ["-"%char :: (c :: ds) ++ "."%char :: c' :: fp]
        /\ py_float ("-"%char :: (c :: ds) ++ "."%char :: c' :: fp)
           = Ok (f64_of_decimal true (digits_val ((c :: ds) ++ c' :: fp))
                   (- Z.of_nat (length (c' :: fp)))))
  /\ findall re_number
       (of_string "Lat: 36.46" ++ [degree] ++ of_string "NLon: 116.87"
        ++ [degree] ++ of_string "WElev: -282ft.")
     = [of_string "36.46"; of_string "116.87"; of_string "282"].
Proof.
  intros Hpre Hds Hrest.
  split; [|split; [by apply py_float_digits|split;
                   [by apply FieldFacts.py_int_minus_digits|split]]].
  - eapply findall_single; [by apply search_re_number_minus|].
    by apply search_re_number_no_digit.
  - intros c' fp Hfp. split.
    + eapply findall_single.
      * apply (search_re_number_decimal pre ["-"%char] (c :: ds) c' fp rest);
          auto using no_digit_stops.
      * by apply search_re_number_no_digit.
    + apply (py_float_token_decimal ["-"%char] (c :: ds) c' fp); auto.
  - vm_compute. reflexivity.
Qed.

Lemma X3_witness :
  findall re_number (of_string "Elev: -282ft.") = [of_string "282"].
Proof.
  refine (proj1 (X3_sign_kept_for_decimals_only (of_string "Elev: ") "2"%char
                   (of_string "82") (of_string "ft.") _ _ _)); by vm_compute.
Defined.

End SignFacts.

(** ** The coordinates of a batch *)

Module CoordinateFacts.
Import Py Re Num Pd Extractor Normalizer ReFacts PyFacts ExtractFacts
  ExtractorFacts Token TokenFacts.

(** Every record that the loop adds was read in the page of a city whose
    fetch returned. *)
Lemma scrape_cities_Ok get cities data recs :
  scrape_cities get cities data = Ok recs ->
  exists new, recs = data ++ new
    /\ forall r, In r new ->
         exists c page, In c cities /\ get (NWS_URL c) = Content page
                        /\ scrape_page c page = Ok r.
Proof.
  revert data. induction cities as [|c cities IH]; intros data; simpl.
  - intros [= <-]. exists []. by rewrite app_nil_r.
  - destruct (get (NWS_URL c)) as [|page] eqn:E.
    + intros (new & -> & H)%IH. exists new. split; [done|].
      intros r (c' & page' & ? & ? & ?)%H. exists c', page'. auto.
    + destruct (scrape_page c page) as [r0|] eqn:E0; simpl; [|done].
      intros (new & -> & H)%IH. exists (r0 :: new).
      split; [by rewrite <- app_assoc|].
      intros r [<-|Hr].
      * exists c, page. auto.
      * destruct (H r Hr) as (c' & page' & ? & ? & ?). exists c', page'. auto.
Qed.

Lemma scrape_page_tokens c page r :
  scrape_page c page = Ok r ->
  number_token (Raw.lat r) /\ number_token (Raw.lon r)
  /\ number_token (Raw.elev_ft r).
Proof.
  intros (el & _ & Hall & _)%scrape_page_Ok.
  repeat split; apply (findall_re_number_tokens (strip (text el)));
    rewrite Hall; simpl; auto.
Qed.

Lemma traverse_py_float_tokens (col : list str) :
  (forall s, In s col -> number_token s) ->
  exists vs, traverse py_float col = Ok vs.
Proof.
  intros H. apply traverse_total. intros s Hs.
  by apply py_float_number_token, H.
Qed.

(** X1: the three tokens of every record that the Extractor emits are
    numbers of the pattern, and [float] reads each of them: the
    conversion of the latitudes and of the longitudes of an extracted
    batch does not raise. *)
Theorem X1_coordinates_are_read (get : string -> response)
        (recs : list Raw.record) :
  scrape_weather_data get = Ok recs ->
  (forall r, In r recs ->
     number_token (Raw.lat r) /\ number_token (Raw.lon r)
     /\ number_token (Raw.elev_ft r))
  /\ (exists lats, traverse py_float (map Raw.lat recs) = Ok lats)
  /\ (exists lons, traverse py_float (map Raw.lon recs) = Ok lons).
Proof.
  intros (new & -> & H)%scrape_cities_Ok. cbn [app].
  assert (Ht : forall r, In r new ->
     number_token (Raw.lat r) /\ number_token (Raw.lon r)
     /\ number_token (Raw.elev_ft r)).
  { intros r (c & page & _ & _ & Hr)%H. by apply scrape_page_tokens in Hr. }
  split; [done|].
  split; apply traverse_py_float_tokens;
    intros s (r & <- & Hr)%in_map_iff; by apply Ht.
Qed.

(** The pages of the sample are such a batch. *)
Lemma X1_witness :
  exists recs lats,
    scrape_weather_data (Sample.web "" "" []) = Ok recs
    /\ traverse py_float (map Raw.lat recs) = Ok lats.
Proof.
  destruct (scrape_weather_data (Sample.web "" "" [])) as [recs|e] eqn:E;
    [|by vm_compute in E].
  destruct (X1_coordinates_are_read _ recs E) as (_ & [lats Hl] & _).
  by exists recs, lats.
Defined.

(** X2: in a batch of the Extractor the column of elevations is
    numeric, so the guard for [NA] never fires: every elevation is the
    integer part of its token's float, and none is null. *)
Theorem X2_elevation_is_never_null (get : string -> response)
        (recs : list Raw.record) :
  scrape_weather_data get = Ok recs ->
  numeric_column (map Some (map Raw.elev_ft recs)) = true
  /\ elev_column (map Raw.elev_ft recs)
     = traverse (fun s => do x <- py_float s;
                          match trunc x with
                          | Some z => Ok (Some z)
                          | None => Raise (if is_nan x then ValueError
                                           else OverflowError)
                          end) (map Raw.elev_ft recs)
  /\ (forall es, elev_column (map Raw.elev_ft recs) = Ok es ->
        forall e, In e es -> exists z, e = Some z).
Proof.
  intros (new & -> & H)%scrape_cities_Ok. cbn [app].
  assert (Hn : numeric_column (map Some (map Raw.elev_ft new)) = true).
  { unfold numeric_column. apply forallb_forall.
    intros x (s & <- & (r & <- & Hr)%in_map_iff)%in_map_iff.
    apply py_float_number_token.
    destruct (H r Hr) as (c & page & _ & _ & Hp).
    by apply scrape_page_tokens in Hp as (_ & _ & ?). }
  split; [done|]. unfold elev_column. rewrite Hn. split; [done|].
  generalize (map Raw.elev_ft new). intros col.
  induction col as [|s col IH]; intros es.
  - intros [= <-]. done.
  - intros (y & ys & -> & Hy & Hys)%traverse_inv e [<-|He].
    + destruct (py_float s) as [x|]; simpl in Hy; [|done].
      destruct (trunc x); [|done]. injection Hy as <-. eauto.
    + by apply (IH ys).
Qed.

(** The pages of the sample are such a batch. *)
Lemma X2_witness :
  exists recs,
    scrape_weather_data (Sample.web "" "" []) = Ok recs
    /\ numeric_column (map Some (map Raw.elev_ft recs)) = true.
Proof.
  destruct (scrape_weather_data (Sample.web "" "" [])) as [recs|e] eqn:E;
    [|by vm_compute in E].
  exists recs. split; [done|].
  exact (proj1 (X2_elevation_is_never_null _ recs E)).
Defined.

End CoordinateFacts.

(** ** The readings, field by field *)

Module TemperatureFacts.
Import Py Re Num Pd Normalizer ReFacts PyFacts ExtractFacts FieldFacts
  Token TokenFacts SignFacts.

(** The group of [(\d+)] is a run of digits. *)
Lemma match_re_int_digits s rest caps :
  match_at re_int s = Some (rest, caps) ->
  exists g, caps = [g] /\ all_digits g /\ g <> [].
Proof.
  unfold match_at, re_int. cbn [exec].
  intros (n & [= <- <-] & Hn & Hp)%rep_greedy_taken.
  rewrite length_drop.
  replace (length s - (length s - n)) with n by lia.
  exists (take n s). split; [done|]. split; [done|].
  intros Hnil. apply (f_equal (@length _)) in Hnil.
  rewrite length_take in Hnil. simpl in Hnil. lia.
Qed.

Lemma group1_re_int_digits s g :
  group1 re_int s = Some g -> all_digits g /\ g <> [].
Proof.
  unfold group1.
  destruct (search re_int s) as [[[m rest] caps]|] eqn:E; [|done].
  apply search_split in E as (pre & _ & H).
  apply match_re_int_digits in H as (g' & -> & Hg). by intros [= <-].
Qed.

(** The two groups of [(\d+).*?(\d+)] are runs of digits. *)
Lemma match_re_int_pair_digits s rest caps :
  match_at re_int_pair s = Some (rest, caps) ->
  exists g1 g2, caps = [g1; g2] /\ all_digits g1 /\ g1 <> []
                /\ all_digits g2 /\ g2 <> [].
Proof.
  unfold match_at, re_int_pair. cbn [exec].
  intros (n & H & Hn & Hp)%rep_greedy_taken.
  apply rep_lazy_sound in H as (n2 & H & Hn2).
  apply rep_greedy_taken in H as (n3 & [= <- <-] & Hn3 & Hp3).
  rewrite !length_drop.
  assert (Hne : forall (l : str) k, 1 <= k <= length l -> take k l <> []).
  { intros l k Hk Hnil. apply (f_equal (@length _)) in Hnil.
    rewrite length_take in Hnil. simpl in Hnil. lia. }
  rewrite length_drop in Hn2, Hn3. rewrite length_drop in Hn3.
  eexists _, _. split; [reflexivity|].
  replace (length s - (length s - n)) with n by lia.
  replace (length s - n - n2 - (length s - n - n2 - n3)) with n3 by lia.
  split; [done|]. split; [apply Hne; lia|]. split; [done|].
  apply Hne. rewrite !length_drop. lia.
Qed.

Lemma group12_re_int_pair_digits s g1 g2 :
  group12 re_int_pair s = Some (g1, g2) ->
  all_digits g1 /\ g1 <> [] /\ all_digits g2 /\ g2 <> [].
Proof.
  unfold group12.
  destruct (search re_int_pair s) as [[[m rest] caps]|] eqn:E; [|done].
  apply search_split in E as (pre & _ & H).
  apply match_re_int_pair_digits in H as (a & b & -> & Hg). by intros [= <- <-].
Qed.

Section Rounding.
Local Open Scope Z_scope.

(** The rounded quotient of the specification is not below the floor. *)
Lemma temp_c_lower f : 0 <= f -> -18 <= Spec.temp_c f.
Proof.
  intros Hf. unfold Spec.temp_c, Spec.round_ratio.
  set (n := (f - 32) * 5).
  assert (-18 <= n / 9) by (apply Z.div_le_lower_bound; lia).
  repeat match goal with
         | |- context [if ?b then _ else _] => destruct b
         end; lia.
Qed.
End Rounding.

(** X4: [temp_f] is never negative.  The pattern [(\d+)] passes over a
    minus sign: the reading [-d°F] gives [temp_f = d]; and [temp_c], for
    a [temp_f] of at most four digits, is never below -18.  The text
    [-5°F] gives 5 and -15. *)
Theorem X4_temperature_is_never_negative (x : option str) (f : Z) :
  temp_f_of x = Ok f ->
  (0 <= f)%Z
  /\ ((f < 10000)%Z -> exists c, temp_c_of f = Ok c /\ (-18 <= c)%Z)
  /\ (forall d ds rest, all_digits (d :: ds) ->
        py_int ("-"%char :: d :: ds) = Ok (- digits_val (d :: ds))%Z
        /\ temp_f_of (Some ("-"%char :: (d :: ds) ++ degree :: rest))
           = to_int64 (digits_val (d :: ds)))
  /\ temp_f_of (Some (Sample.deg "-5" "F")) = Ok 5%Z
  /\ temp_c_of 5 = Ok (-15)%Z.
Proof.
  intros H.
  assert (Hf : (0 <= f)%Z).
  { unfold temp_f_of in H. destruct (extract1 re_int x) as [g|] eqn:E; [|done].
    destruct x as [s|]; [|done]. simpl in E.
    apply group1_re_int_digits in E as [Hg Hne].
    rewrite astype_int_digits in H by done.
    unfold to_int64 in H. destruct (in_int64 _); [|done].
    injection H as <-. by apply digits_val_nonneg. }
  split; [done|]. split; [|split; [|split; vm_compute; reflexivity]].
  - intros Hlt. exists (Spec.temp_c f). split.
    + apply temp_c_of_exact. lia.
    + by apply temp_c_lower.
  - intros d ds rest Hds. split; [by apply py_int_minus_digits|].
    unfold temp_f_of.
    change (Some ("-"%char :: (d :: ds) ++ degree :: rest))
      with (Some (of_string "-" ++ (d :: ds) ++ degree :: rest)).
    unfold extract1. rewrite group1_re_int; [|by vm_compute|done|done|by vm_compute].
    by apply astype_int_digits.
Qed.

(** The reading [-5°F] is read as 5. *)
Lemma X4_witness :
  (0 <= 5)%Z.
Proof.
  refine (proj1 (X4_temperature_is_never_negative
                   (Some (Sample.deg "-5" "F")) 5 _)).
  by vm_compute.
Defined.

End TemperatureFacts.

Module GaugeFacts.
Import Py Re Num Pd Normalizer ReFacts PyFacts ExtractFacts FieldFacts
  Token TokenFacts SignFacts TemperatureFacts.

Lemma wind_speed_of_nonneg x v : wind_speed_of x = Ok v -> (0 <= v)%Z.
Proof.
  unfold wind_speed_of. destruct (extract1 re_int x) as [g|] eqn:E.
  - destruct x as [s|]; [|done]. simpl in E.
    apply group1_re_int_digits in E as [Hg Hne].
    rewrite astype_int_digits by done. unfold to_int64.
    destruct (in_int64 _); [|done]. intros [= <-]. by apply digits_val_nonneg.
  - by intros [= <-].
Qed.

(** X5: the wind speed is never null and never negative.  An absent
    text and a text without a digit, such as [Calm], give 0; any other
    text gives its first integer, so the speed of the gusts that may
    follow is left out; each value comes from its own text only. *)
Theorem X5_wind_speed_defaults_to_zero :
  wind_speed_of None = Ok 0%Z
  /\ (forall s, no_digit s -> wind_speed_of (Some s) = Ok 0%Z)
  /\ wind_speed_of (Some (of_string "Calm")) = Ok 0%Z
  /\ (forall pre ds rest,
        no_digit pre -> ds <> [] -> all_digits ds -> stops isdigit rest ->
        wind_speed_of (Some (pre ++ ds ++ rest)) = to_int64 (digits_val ds))
  /\ wind_speed_of (Some (of_string "NW 9 G 20 mph")) = Ok 9%Z
  /\ (forall x v, wind_speed_of x = Ok v -> (0 <= v)%Z)
  /\ (forall col vs i x,
        wind_speed_column col = Ok vs -> col !! i = Some x ->
        exists v, vs !! i = Some v /\ wind_speed_of x = Ok v).
Proof.
  split; [done|]. split; [|split; [by vm_compute|split; [|split; [by vm_compute|split]]]].
  - intros s Hs. unfold wind_speed_of, extract1. by rewrite group1_re_int_none.
  - intros pre ds rest Hpre Hne Hds Hrest. unfold wind_speed_of, extract1.
    rewrite group1_re_int by done. by apply astype_int_digits.
  - apply wind_speed_of_nonneg.
  - intros col vs i x. unfold wind_speed_column.
    destruct (str_accessor col) as [col'|] eqn:E; cbn [bind]; [|done].
    apply NormalizerFacts.str_accessor_Ok in E as ->.
    intros H Hi. by apply (traverse_lookup _ _ _ _ _ H Hi).
Qed.

(** X6: the humidity of a text is its first integer divided by 100 in
    float64; for a percentage up to 100 that is the binary64 number
    nearest to the fraction, between 0 and 1.  An absent text and a text
    without a digit give NaN, which becomes null, and raise nothing. *)
Theorem X6_humidity_is_a_fraction :
  (forall pre ds rest,
      no_digit pre -> ds <> [] -> all_digits ds -> stops isdigit rest ->
      humidity_of (Some (pre ++ ds ++ rest))
      = Ok (f64_of_decimal false (digits_val ds) 0 / 100)%float)
  /\ (forall p, (0 <= p <= 100)%Z -> humidity_fraction p = true)
  /\ humidity_of (Some (of_string "71%")) = Ok 0.71%float
  /\ humidity_of None = Ok nan
  /\ (forall s, no_digit s -> humidity_of (Some s) = Ok nan)
  /\ notnull nan = None
  /\ (forall col vs i x,
        humidity_column col = Ok vs -> col !! i = Some x ->
        exists v, vs !! i = Some v /\ humidity_of x = Ok v).
Proof.
  split; [|split; [|split; [by vm_compute|split; [by vm_compute|split;
    [|split; [by vm_compute|]]]]]].
  - intros pre ds rest Hpre Hne Hds Hrest. unfold humidity_of, extract1.
    rewrite group1_re_int by done. by rewrite astype_float_digits.
  - intros p Hp.
    assert (H : holds_upto humidity_fraction 101 = true) by (vm_compute; reflexivity).
    apply (holds_upto_spec _ _ H). lia.
  - intros s Hs. unfold humidity_of, extract1. rewrite group1_re_int_none by done.
    by vm_compute.
  - intros col vs i x. unfold humidity_column.
    destruct (str_accessor col) as [col'|] eqn:E; cbn [bind]; [|done].
    apply NormalizerFacts.str_accessor_Ok in E as ->.
    intros H Hi. by apply (traverse_lookup _ _ _ _ _ H Hi).
Qed.

End GaugeFacts.

Module VisibilityFacts.
Import Py Re Num Pd Normalizer ReFacts PyFacts ExtractFacts FieldFacts
  Token TokenFacts SignFacts.

Lemma point_fails_no_fraction {R} (s : str) caps
      (k : str -> list str -> option R) :
  no_fraction s ->
  exec (Cat (Cls (lit "."%char)) (Rep d 1 false)) s caps k = None.
Proof.
  intros H. cbn [exec]. destruct s as [|c s]; [done|].
  destruct (lit "."%char c) eqn:E; [|done].
  apply rep_greedy_fail. by apply H.
Qed.

Lemma digit_no_fraction c s : isdigit c = true -> no_fraction (c :: s).
Proof.
  intros Hc. simpl. unfold lit. intros E%ch_eqb_eq. subst c. done.
Qed.

Lemma orelse_left {R} (a b : option R) x : a = Some x -> orelse a b = Some x.
Proof. by intros ->. Qed.

Lemma orelse_right {R} (a b : option R) x :
  a = None -> b = Some x -> orelse a b = Some x.
Proof. by intros -> ->. Qed.

(** [(\d+\.\d+|\d+)]: a decimal is captured whole. *)
Lemma group1_re_decimal pre ip c' fp rest :
  no_digit pre -> ip <> [] -> all_digits ip -> all_digits (c' :: fp) ->
  stops isdigit rest ->
  group1 re_decimal (pre ++ ip ++ "."%char :: (c' :: fp) ++ rest)
  = Some (ip ++ "."%char :: c' :: fp).
Proof.
  intros Hpre Hne Hip Hfp Hrest. unfold group1.
  rewrite search_skip_no_digit by auto using re_decimal_starts.
  set (s := ip ++ "."%char :: (c' :: fp) ++ rest).
  assert (Hm : match_at re_decimal s
               = Some (rest, [take (length s - length rest) s])).
  { unfold match_at, re_decimal.
    change (exec (Group ?r) ?s ?caps ?k)
      with (exec r s caps
              (fun s1 caps1 => k s1 (caps1 ++ [take (length s - length s1) s]))).
    change (exec (Alt ?a ?b) ?s ?caps ?k)
      with (orelse (exec a s caps k) (exec b s caps k)).
    apply orelse_left.
    change (exec (Cat (Rep d 1 false) ?r) ?s ?caps ?k)
      with (rep_greedy d 1 s (fun s' => exec r s' caps k)).
    unfold s at 1.
    apply rep_greedy_run; [done|done|destruct ip; [done|simpl; lia]|].
    cbn [exec]. change (lit "."%char "."%char) with true. cbv iota.
    apply rep_greedy_run; [done|done|simpl; lia|done]. }
  rewrite (search_here _ _ _ _ Hm). f_equal. subst s.
  replace (ip ++ "."%char :: (c' :: fp) ++ rest)
    with ((ip ++ "."%char :: c' :: fp) ++ rest) by (by rewrite <- !app_assoc).
  apply take_run.
Qed.

(** [(\d+\.\d+|\d+)]: a run of digits that no fraction follows is
    captured. *)
Lemma group1_re_decimal_int pre ds rest :
  no_digit pre -> ds <> [] -> all_digits ds ->
  stops isdigit rest -> no_fraction rest ->
  group1 re_decimal (pre ++ ds ++ rest) = Some ds.
Proof.
  intros Hpre Hne Hds Hrest Hnf. unfold group1.
  rewrite search_skip_no_digit by auto using re_decimal_starts.
  set (s := ds ++ rest).
  assert (Hm : match_at re_decimal s
               = Some (rest, [take (length s - length rest) s])).
  { unfold match_at, re_decimal.
    change (exec (Group ?r) ?s ?caps ?k)
      with (exec r s caps
              (fun s1 caps1 => k s1 (caps1 ++ [take (length s - length s1) s]))).
    change (exec (Alt ?a ?b) ?s ?caps ?k)
      with (orelse (exec a s caps k) (exec b s caps k)).
    apply orelse_right.
    - change (exec (Cat (Rep d 1 false) ?r) ?s ?caps ?k)
        with (rep_greedy d 1 s (fun s' => exec r s' caps k)).
      unfold s at 1. apply rep_greedy_none; [done|done|].
      intros j Hj. apply point_fails_no_fraction.
      destruct (drop j ds) as [|c t] eqn:E; [done|].
      cbn [app]. apply digit_no_fraction.
      unfold all_digits in Hds. rewrite forallb_forall in Hds.
      apply Hds, (In_drop ds j). rewrite E. by left.
    - cbn [exec]. unfold s at 1.
      apply rep_greedy_run; [done|done|destruct ds; [done|simpl; lia]|done]. }
  rewrite (search_here _ _ _ _ Hm). f_equal. subst s. apply take_run.
Qed.

Lemma group1_re_decimal_none s : no_digit s -> group1 re_decimal s = None.
Proof.
  intros H. unfold group1.
  by rewrite search_no_digit by auto using re_decimal_starts.
Qed.

(** X7: the visibility is the first decimal of the text, or its first
    integer when no fraction follows it, rounded to two decimals; an
    absent text and a text without a digit give NaN, which becomes
    null. *)
Theorem X7_visibility_reads_the_first_number :
  (forall pre c ip c' fp rest,
      no_digit pre -> all_digits (c :: ip) -> all_digits (c' :: fp) ->
      stops isdigit rest ->
      vis_miles_of (Some (pre ++ (c :: ip) ++ "."%char :: (c' :: fp) ++ rest))
      = Ok (round2 (f64_of_decimal false (digits_val ((c :: ip) ++ c' :: fp))
                      (- Z.of_nat (length (c' :: fp))))))
  /\ (forall pre c ds rest,
        no_digit pre -> all_digits (c :: ds) ->
        stops isdigit rest -> no_fraction rest ->
        vis_miles_of (Some (pre ++ (c :: ds) ++ rest))
        = Ok (round2 (f64_of_decimal false (digits_val (c :: ds)) 0)))
  /\ vis_miles_of (Some (of_string "10.00 mi")) = Ok 10%float
  /\ vis_miles_of (Some (of_string "0.25 mi")) = Ok 0.25%float
  /\ vis_miles_of None = Ok nan
  /\ (forall s, no_digit s -> vis_miles_of (Some s) = Ok nan)
  /\ notnull nan = None
  /\ (forall col vs i x,
        vis_miles_column col = Ok vs -> col !! i = Some x ->
        exists v, vs !! i = Some v /\ vis_miles_of x = Ok v).
Proof.
  split; [|split; [|split; [by vm_compute|split; [by vm_compute|split;
    [by vm_compute|split; [|split; [by vm_compute|]]]]]]].
  - intros pre c ip c' fp rest Hpre Hip Hfp Hrest. unfold vis_miles_of, extract1.
    rewrite group1_re_decimal by done. unfold astype_float.
    by rewrite py_float_decimal.
  - intros pre c ds rest Hpre Hds Hrest Hnf. unfold vis_miles_of, extract1.
    rewrite group1_re_decimal_int by done. unfold astype_float.
    by rewrite py_float_digits.
  - intros s Hs. unfold vis_miles_of, extract1.
    rewrite group1_re_decimal_none by done. by vm_compute.
  - intros col vs i x. unfold vis_miles_column.
    destruct (str_accessor col) as [col'|] eqn:E; cbn [bind]; [|done].
    apply NormalizerFacts.str_accessor_Ok in E as ->.
    intros H Hi. by apply (traverse_lookup _ _ _ _ _ H Hi).
Qed.

End VisibilityFacts.

Module PairFacts.
Import Py Re Num Pd Normalizer ReFacts PyFacts ExtractFacts FieldFacts
  Token TokenFacts SignFacts TemperatureFacts VisibilityFacts.

Lemma no_digit_drop s j : no_digit s -> no_digit (drop j s).
Proof.
  unfold no_digit. rewrite !forallb_forall. intros H c Hc.
  apply H. by apply (In_drop s j).
Qed.

(** [(\d+).*?(\d+)] on a text with one run of digits: the run is cut in
    front of its last digit. *)
Lemma group12_lone_run pre run c rest :
  no_digit pre -> run <> [] -> all_digits run -> isdigit c = true ->
  no_digit rest ->
  group12 re_int_pair (pre ++ run ++ c :: rest) = Some (run, [c]).
Proof.
  intros Hpre Hne Hrun Hc Hrest. unfold group12.
  rewrite search_skip_no_digit by auto using re_int_pair_starts.
  set (s := run ++ c :: rest).
  assert (Hm : match_at re_int_pair s = Some (rest, [run; [c]])).
  { unfold match_at, re_int_pair.
    change (exec (Cat (Group (Rep d 1 false)) ?r) ?s ?caps ?k)
      with (rep_greedy d 1 s
              (fun s1 => exec r s1 (caps ++ [take (length s - length s1) s]) k)).
    unfold s at 1.
    apply rep_greedy_back;
      [done|done|by apply no_digit_stops|destruct run; [done|simpl; lia]| |].
    - cbn [exec]. apply rep_lazy_none. intros j Hj.
      apply rep_greedy_fail. by apply no_digit_stops, no_digit_drop.
    - cbn [exec rep_lazy]. apply orelse_left.
      apply (rep_greedy_run d 1 [c] rest);
        [by (simpl; unfold d; rewrite Hc)|by apply no_digit_stops|simpl; lia|].
      f_equal. f_equal. cbn [app]. f_equal.
      + subst s. rewrite length_app. cbn [length].
        replace (length run + S (length rest) - S (length rest)) with (length run) by lia.
        by rewrite take_app_length.
      + f_equal. cbn [length].
        replace (S (length rest) - length rest) with 1 by lia. done. }
  by rewrite (search_here _ _ _ _ Hm).
Qed.

Lemma dewpoint_of_nonneg x f c :
  dewpoint_of x = Ok (f, c) -> (0 <= f)%Z /\ (0 <= c)%Z.
Proof.
  unfold dewpoint_of.
  destruct (extract2 re_int_pair x) as [[g1 g2]|] eqn:E; [|done].
  destruct x as [s|]; [|done]. simpl in E.
  apply group12_re_int_pair_digits in E as (H1 & N1 & H2 & N2).
  rewrite !astype_int_digits by done. unfold to_int64.
  destruct (in_int64 (digits_val g1)); [|done]. cbn [bind].
  destruct (in_int64 (digits_val g2)); [|done]. cbn [bind].
  intros [= <- <-]. split; by apply digits_val_nonneg.
Qed.

(** X8: the dewpoint is mandatory.  A text in which the pattern finds
    no pair (an absent text, a text without a digit, a single digit)
    cannot be converted, and the exception fails the column, and with it
    the batch; the values that are converted are never negative. *)
Theorem X8_dewpoint_is_mandatory :
  (forall x, extract2 re_int_pair x = None -> dewpoint_of x = Raise ValueError)
  /\ dewpoint_of None = Raise ValueError
  /\ (forall s, no_digit s -> dewpoint_of (Some s) = Raise ValueError)
  /\ dewpoint_of (Some (of_string "5")) = Raise ValueError
  /\ (forall col x, In x col -> extract2 re_int_pair x = None ->
        exists e, dewpoint_column col = Raise e)
  /\ (forall x f c, dewpoint_of x = Ok (f, c) -> (0 <= f)%Z /\ (0 <= c)%Z).
Proof.
  assert (H0 : forall x, extract2 re_int_pair x = None ->
                         dewpoint_of x = Raise ValueError).
  { intros x H. unfold dewpoint_of. by rewrite H. }
  split; [done|]. split; [by vm_compute|].
  split; [intros s Hs; by apply H0, group12_re_int_pair_none|].
  split; [by vm_compute|]. split; [|apply dewpoint_of_nonneg].
  intros col x Hin Hx. unfold dewpoint_column.
  destruct (str_accessor col) as [col'|] eqn:E; cbn [bind]; [|eauto].
  apply NormalizerFacts.str_accessor_Ok in E as ->.
  apply (traverse_raise dewpoint_of col x ValueError Hin). by apply H0.
Qed.

(** X9: a text with a single run of two or more digits has no second
    number for [(\d+).*?(\d+)], and the matcher cuts the run in front
    of its last digit: the first value is the run without its last
    digit, the second is that digit.  [45°F] gives 4 and 5, for the
    dewpoint and for the wind chill alike. *)
Theorem X9_lone_reading_is_cut_in_two (pre run : str) (c : ascii)
        (rest : str) :
  no_digit pre -> run <> [] -> all_digits run -> isdigit c = true ->
  no_digit rest ->
  let text := pre ++ run ++ c :: rest in
  extract2 re_int_pair (Some text) = Some (run, [c])
  /\ dewpoint_of (Some text)
     = (do f <- to_int64 (digits_val run); Ok (f, digit_val c))
  /\ wind_chill_of (Some text)
     = Ok (replace0 (fillna0 (f64_of_decimal false (digits_val run) 0)),
           replace0 (fillna0 (f64_of_decimal false (digit_val c) 0)))
  /\ dewpoint_of (Some (Sample.deg "45" "F")) = Ok (4, 5)%Z.
Proof.
  intros Hpre Hne Hrun Hc Hrest text.
  assert (Hx : extract2 re_int_pair (Some text) = Some (run, [c]))
    by by apply group12_lone_run.
  assert (Hd : all_digits [c]) by (unfold all_digits; simpl; by rewrite Hc).
  assert (Hv : digits_val [c] = digit_val c) by (unfold digits_val; simpl; lia).
  pose proof (digit_val_range c Hc) as Hr.
  split; [done|]. split; [|split; [|by vm_compute]].
  - unfold dewpoint_of. rewrite Hx.
    rewrite !astype_int_digits by done. rewrite Hv.
    destruct (to_int64 (digits_val run)); cbn [bind]; [|done].
    unfold to_int64, in_int64, int64_min, int64_max.
    destruct (Z.leb_spec (- 2 ^ 63) (digit_val c)); [|lia].
    destruct (Z.leb_spec (digit_val c) (2 ^ 63 - 1)); [|lia]. done.
  - unfold wind_chill_of. rewrite Hx.
    rewrite !astype_float_digits by done. by rewrite Hv.
Qed.

(** The text [45°F] is such a text. *)
Lemma X9_witness :
  extract2 re_int_pair (Some (Sample.deg "45" "F"))
  = Some (of_string "4", of_string "5").
Proof.
  refine (proj1 (X9_lone_reading_is_cut_in_two [] (of_string "4") "5"%char
                   (degree :: of_string "F") _ _ _ _ _)); by vm_compute.
Defined.

End PairFacts.

Module BarometerFacts.
Import Py Re Num Pd Normalizer PyFacts FieldFacts LocationFacts.

Lemma contains_in_i s : contains (of_string "in") s = true -> In "i"%char s.
Proof.
  induction s as [|c s IH]; [done|]. simpl.
  intros [H|H]%orb_true_iff; [|right; auto].
  apply andb_true_iff in H as [H _]. apply ch_eqb_eq in H. by left.
Qed.

(** [split()] of a text that holds a character other than whitespace has
    a first element. *)
Lemma split_ws_from_nonempty cur s :
  cur <> [] \/ (exists c, In c s /\ isspace c = false) ->
  split_ws_from cur s <> [].
Proof.
  revert cur. induction s as [|c0 s IH]; intros cur H; simpl.
  - destruct H as [H|(c & [] & _)]. by destruct cur.
  - destruct (isspace c0) eqn:E0.
    + destruct cur as [|x cur]; [|done]. apply IH. right.
      destruct H as [H|(c & [<-|Hc] & Hs)]; [done|congruence|eauto].
    + apply IH. by left.
Qed.

Lemma py_float_raises s e : py_float s = Raise e -> e = ValueError.
Proof.
  unfold py_float. destruct (read_sign (trim s)) as [neg t].
  destruct (_ || _); [done|]. destruct (str_eqb _ _); [done|].
  destruct (digitpart t) as [ip r1].
  destruct (match r1 with [] => _ | _ => _ end) as [fp r2].
  destruct (ip ++ fp); [by intros [= <-]|].
  destruct (read_exponent r2); [done|by intros [= <-]].
Qed.

(** X10: the conversion of one barometer text.  The test [x != "NA"]
    is redundant, since a text that holds [in] is not [NA]; the result is
    null exactly for the texts without [in]; a text with [in] has a first
    token, so [split()[0]] never fails, and the only exception is the
    [ValueError] of [float] on a token that is not a number, as for
    [Rising] and for [30.12in]. *)
Theorem X10_barometer_raises_value_error_only :
  (forall x, contains (of_string "in") x = true ->
             str_eqb x (of_string "NA") = false)
  /\ (forall x, barometer_of x = Ok None <-> contains (of_string "in") x = false)
  /\ (forall x, contains (of_string "in") x = true ->
        exists tok rest,
          split_ws x = tok :: rest
          /\ barometer_of x
             = (do v <- py_float tok; Ok (Some (v * MB_PER_INHG)%float)))
  /\ (forall x e, barometer_of x = Raise e -> e = ValueError)
  /\ barometer_of (of_string "Rising") = Raise ValueError
  /\ barometer_of (of_string "30.12in") = Raise ValueError.
Proof.
  assert (Hna : forall x, contains (of_string "in") x = true ->
                          str_eqb x (of_string "NA") = false).
  { intros x Hx. destruct (str_eqb x (of_string "NA")) eqn:E; [|done].
    apply str_eqb_eq in E as ->. by vm_compute in Hx. }
  assert (Htok : forall x, contains (of_string "in") x = true ->
            exists tok rest,
              split_ws x = tok :: rest
              /\ barometer_of x
                 = (do v <- py_float tok; Ok (Some (v * MB_PER_INHG)%float))).
  { intros x Hx. unfold barometer_of. rewrite Hx, (Hna x Hx). cbn [andb negb].
    destruct (split_ws x) as [|tok rest] eqn:E.
    - exfalso. apply (split_ws_from_nonempty [] x); [|exact E].
      right. exists "i"%char. split; [by apply contains_in_i|by vm_compute].
    - by exists tok, rest. }
  split; [done|]. split; [|split; [done|split; [|split; by vm_compute]]].
  - intros x. split.
    + intros H. destruct (contains (of_string "in") x) eqn:E; [|done].
      destruct (Htok x E) as (tok & rest & _ & Hb). rewrite Hb in H.
      by destruct (py_float tok).
    + intros H. unfold barometer_of. by rewrite H.
  - intros x e H. destruct (contains (of_string "in") x) eqn:E.
    + destruct (Htok x E) as (tok & rest & _ & Hb). rewrite Hb in H.
      destruct (py_float tok) eqn:Ef; [done|]. simpl in H. injection H as <-.
      by apply py_float_raises in Ef.
    + unfold barometer_of in H. by rewrite E in H.
Qed.

End BarometerFacts.

(** ** The parts of a location *)

Module SplitFacts.
Import Py Re Num Pd Normalizer PyFacts FieldFacts LocationFacts.

Lemma startswith_app p a b : startswith p a = true -> startswith p (a ++ b) = true.
Proof.
  revert a. induction p as [|x p IH]; intros [|y a]; simpl; try done.
  intros [-> H]%andb_true_iff. simpl. by apply IH.
Qed.

(** The first separator of a text that has one. *)
Lemma first_separator s :
  contains (of_string ", ") s = true ->
  exists a b, s = a ++ of_string ", " ++ b /\ unsplit a.
Proof.
  unfold unsplit. induction s as [|c s IH]; [done|].
  cbn [contains]. destruct (startswith (of_string ", ") (c :: s)) eqn:E.
  - intros _. exists [], (drop 1 s). split; [|done].
    simpl in E. apply andb_true_iff in E as [E1 E2].
    apply ch_eqb_eq in E1 as <-.
    destruct s as [|c2 s]; [done|]. apply andb_true_iff in E2 as [E2 _].
    apply ch_eqb_eq in E2 as <-. done.
  - cbn [orb]. intros (a & b & -> & Ha)%IH. exists (c :: a), b. split; [done|].
    cbn [contains]. rewrite Ha, orb_false_r.
    destruct (startswith (of_string ", ") (c :: a)) eqn:E'; [|done].
    change (c :: a ++ of_string ", " ++ b)
      with ((c :: a) ++ of_string ", " ++ b) in E.
    by rewrite (startswith_app _ _ _ E') in E.
Qed.

Lemma split_from_nonempty sep cur s k : split_from sep cur s k <> [].
Proof.
  revert cur k. induction s as [|c s IH]; intros cur k; simpl; [done|].
  destruct k; [|apply IH]. destruct (startswith sep (c :: s)); [done|apply IH].
Qed.

(** The pieces of a location: one without a separator, or two that the
    separator joins, or more. *)
Lemma split_cases s :
  (unsplit s /\ split (of_string ", ") s = [s])
  \/ (exists a b, s = joined (a, b) /\ unsplit a /\ unsplit b
                  /\ split (of_string ", ") s = [a; b])
  \/ 3 <= length (split (of_string ", ") s).
Proof.
  destruct (contains (of_string ", ") s) eqn:E.
  - right. apply first_separator in E as (a & b & -> & Ha).
    unfold split. rewrite split_from_sep by done. cbn [rev app].
    destruct (contains (of_string ", ") b) eqn:Eb.
    + right. apply first_separator in Eb as (a2 & b2 & -> & Ha2).
      rewrite split_from_sep by done.
      pose proof (split_from_nonempty (of_string ", ") [] b2 0).
      destruct (split_from _ _ b2 0); [done|]. simpl. lia.
    + left. exists a, b. rewrite split_from_unsplit by done. done.
  - left. split; [done|]. by apply split_unsplit.
Qed.

Lemma width_bound (ls : list (list str)) l :
  In l ls -> length l <= foldr Nat.max 0 (map (@length str) ls).
Proof.
  induction ls as [|l0 ls IH]; [done|]. simpl.
  intros [->|H]; [lia|]. specialize (IH H). lia.
Qed.

(** X11: when the split of the locations succeeds, nothing of a
    location is lost: either the location is [city, state] for the city
    and the state it got, neither of which holds a separator, or it has
    no separator, and then the city is the whole text and the state the
    text [None]. *)
Theorem X11_city_and_state_rejoin (col : list str) (out : list (str * str))
        (i : nat) (s c st : str) :
  split_location col = Ok out -> col !! i = Some s -> out !! i = Some (c, st) ->
  (s = joined (c, st) /\ unsplit c /\ unsplit st)
  \/ (unsplit s /\ c = s /\ st = of_string "None").
Proof.
  unfold split_location, str_accessor.
  destruct (numeric_column (map Some col)); cbn [bind]; [done|]. cbv zeta.
  destruct (_ =? 2) eqn:Ew; [|done]. apply Nat.eqb_eq in Ew.
  intros [= <-] Hi Ho.
  rewrite !list_lookup_fmap, Hi in Ho. cbv beta iota delta [fmap option_fmap option_map] in Ho.
  change [","%char; " "%char] with (of_string ", ") in Ho.
  change ["N"%char; "o"%char; "n"%char; "e"%char] with (of_string "None") in Ho.
  assert (Hlen : length (split (of_string ", ") s) <= 2).
  { rewrite <- Ew. apply width_bound. apply in_map.
    by apply list_elem_of_In, list_elem_of_lookup_2 with i. }
  destruct (split_cases s) as [[Hs E]|[(a & b & -> & Ha & Hb & E)|H3]];
    [| |lia]; rewrite E in Ho; injection Ho as <- <-; [by right|by left].
Qed.

(** The location [Denver, CO] and its two parts. *)
Lemma X11_witness :
  of_string "Denver, CO" = joined (of_string "Denver", of_string "CO").
Proof.
  destruct (X11_city_and_state_rejoin [of_string "Denver, CO"]
              [(of_string "Denver", of_string "CO")] 0
              (of_string "Denver, CO") (of_string "Denver") (of_string "CO"))
    as [[H _]|[H _]]; [by vm_compute|done|done|exact H|by vm_compute in H].
Defined.

End SplitFacts.

(** ** Instants *)

Module ClockFacts.
Import Py Dt Normalizer DtFacts NormalizerFacts Clock.

Section Ordinals.
Local Open Scope Z_scope.

Lemma is_leap_cycle n400 n100 n4 n1 :
  0 <= n400 -> 0 <= n100 <= 3 -> 0 <= n4 <= 24 -> 0 <= n1 <= 3 ->
  is_leap (n400 * 400 + 1 + n100 * 100 + n4 * 4 + n1)
  = (n1 =? 3) && (negb (n4 =? 24) || (n100 =? 3)).
Proof.
  intros H400 H100 H4 H1. unfold is_leap.
  set (y := n400 * 400 + 1 + n100 * 100 + n4 * 4 + n1).
  assert (M4 : y mod 4 = (n1 + 1) mod 4).
  { subst y. replace (n400 * 400 + 1 + n100 * 100 + n4 * 4 + n1)
      with ((n1 + 1) + (n400 * 100 + n100 * 25 + n4) * 4) by lia.
    apply Z.mod_add. lia. }
  assert (M100 : y mod 100 = (n4 * 4 + n1 + 1) mod 100).
  { subst y. replace (n400 * 400 + 1 + n100 * 100 + n4 * 4 + n1)
      with ((n4 * 4 + n1 + 1) + (n400 * 4 + n100) * 100) by lia.
    apply Z.mod_add. lia. }
  assert (M400 : y mod 400 = (n100 * 100 + n4 * 4 + n1 + 1) mod 400).
  { subst y. replace (n400 * 400 + 1 + n100 * 100 + n4 * 4 + n1)
      with ((n100 * 100 + n4 * 4 + n1 + 1) + n400 * 400) by lia.
    apply Z.mod_add. lia. }
  rewrite M4, M100, M400. clearbody y. clear M4 M100 M400.
  destruct (Z.eqb_spec n1 3) as [->|H13].
  - replace ((3 + 1) mod 4) with 0 by reflexivity. cbn [Z.eqb andb].
    destruct (Z.eqb_spec n4 24) as [->|H424].
    + replace ((24 * 4 + 3 + 1) mod 100) with 0 by reflexivity.
      cbn [Z.eqb negb orb].
      destruct (Z.eqb_spec n100 3) as [->|H1003].
      * reflexivity.
      * assert (n100 = 0 \/ n100 = 1 \/ n100 = 2) as [->|[->| ->]] by lia;
          reflexivity.
    + cbn [negb orb].
      assert ((n4 * 4 + 3 + 1) mod 100 <> 0).
      { rewrite Z.mod_small by lia. lia. }
      destruct (Z.eqb_spec ((n4 * 4 + 3 + 1) mod 100) 0); [done|]. reflexivity.
  - cbn [andb].
    assert ((n1 + 1) mod 4 <> 0).
    { rewrite Z.mod_small by lia. lia. }
    destruct (Z.eqb_spec ((n1 + 1) mod 4) 0); [done|]. reflexivity.
Qed.

Lemma days_before_year_cycle n400 n100 n4 n1 :
  0 <= n400 -> 0 <= n100 <= 3 -> 0 <= n4 <= 24 -> 0 <= n1 <= 3 ->
  days_before_year (n400 * 400 + 1 + n100 * 100 + n4 * 4 + n1)
  = n400 * 146097 + n100 * 36524 + n4 * 1461 + n1 * 365.
Proof.
  intros H400 H100 H4 H1. unfold days_before_year. cbv zeta.
  replace (n400 * 400 + 1 + n100 * 100 + n4 * 4 + n1 - 1)
    with (n400 * 400 + n100 * 100 + n4 * 4 + n1) by lia.
  set (y := n400 * 400 + n100 * 100 + n4 * 4 + n1).
  Z.to_euclidean_division_equations. lia.
Qed.


(** [_ymd2ord] undoes [_ord2ymd]: the date of an ordinal has that
    ordinal. *)
Lemma ymd2ord_ord2ymd n0 :
  1 <= n0 <= MAXORDINAL ->
  let '(y, m, d) := ord2ymd n0 in ymd2ord y m d = n0.
Proof.
  unfold MAXORDINAL, ord2ymd. intros Hn.
  set (n := n0 - 1).
  set (n400 := n / 146097). set (r1 := n mod 146097).
  set (n100 := r1 / 36524). set (r2 := r1 mod 36524).
  set (n4 := r2 / 1461). set (r3 := r2 mod 1461).
  set (n1 := r3 / 365). set (r4 := r3 mod 365).
  assert (E1 : n = 146097 * n400 + r1 /\ 0 <= r1 < 146097)
    by (subst n400 r1; split; [apply Z.div_mod|apply Z.mod_pos_bound]; lia).
  assert (E2 : r1 = 36524 * n100 + r2 /\ 0 <= r2 < 36524)
    by (subst n100 r2; split; [apply Z.div_mod|apply Z.mod_pos_bound]; lia).
  assert (E3 : r2 = 1461 * n4 + r3 /\ 0 <= r3 < 1461)
    by (subst n4 r3; split; [apply Z.div_mod|apply Z.mod_pos_bound]; lia).
  assert (E4 : r3 = 365 * n1 + r4 /\ 0 <= r4 < 365)
    by (subst n1 r4; split; [apply Z.div_mod|apply Z.mod_pos_bound]; lia).
  assert (Hn' : 0 <= n <= 3652058) by (subst n; lia).
  assert (Hn0 : n0 = n + 1) by (subst n; lia).
  clearbody n400 r1 n100 r2 n4 r3 n1 r4 n. clear Hn.
  assert (B400 : 0 <= n400) by lia.
  assert (B100 : 0 <= n100 <= 4) by lia.
  assert (B4 : 0 <= n4 <= 24) by lia.
  assert (B1 : 0 <= n1 <= 4) by lia.
  destruct (Z.eqb_spec n1 4) as [H14|H14]; simpl orb.
  { cbv iota beta.
    assert (n100 <= 3) by lia. assert (n4 <= 23) by lia.
    replace (n400 * 400 + 1 + n100 * 100 + n4 * 4 + n1 - 1)
      with (n400 * 400 + 1 + n100 * 100 + n4 * 4 + 3) by lia.
    unfold ymd2ord, days_before_month.
    rewrite days_before_year_cycle, is_leap_cycle by lia.
    change (tab DAYS_BEFORE_MONTH 12) with 334.
    destruct (Z.eqb_spec n4 24); [lia|]. cbn. lia. }
  destruct (Z.eqb_spec n100 4) as [H1004|H1004]; cbv iota.
  { cbv beta.
    replace (n400 * 400 + 1 + n100 * 100 + n4 * 4 + n1 - 1)
      with (n400 * 400 + 1 + 3 * 100 + 24 * 4 + 3) by lia.
    unfold ymd2ord, days_before_month.
    rewrite days_before_year_cycle, is_leap_cycle by lia.
    change (tab DAYS_BEFORE_MONTH 12) with 334. cbn. lia. }
  set (leap := (n1 =? 3) && (negb (n4 =? 24) || (n100 =? 3))).
  set (m := (r4 + 50) / 32).
  assert (Em : 32 * m <= r4 + 50 < 32 * m + 32).
  { subst m. pose proof (Z.div_mod (r4 + 50) 32 ltac:(lia)).
    pose proof (Z.mod_pos_bound (r4 + 50) 32 ltac:(lia)). lia. }
  clearbody m.
  set (y := n400 * 400 + 1 + n100 * 100 + n4 * 4 + n1).
  assert (Hy : days_before_year y
               = n400 * 146097 + n100 * 36524 + n4 * 1461 + n1 * 365)
    by (subst y; apply days_before_year_cycle; lia).
  assert (Hl : is_leap y = leap) by (subst y leap; apply is_leap_cycle; lia).
  clearbody y leap.
  assert (Hm : m = 1 \/ m = 2 \/ m = 3 \/ m = 4 \/ m = 5 \/ m = 6 \/ m = 7
               \/ m = 8 \/ m = 9 \/ m = 10 \/ m = 11 \/ m = 12) by lia.
  repeat destruct Hm as [->|Hm]; try subst m;
    destruct leap;
    cbv [tab DAYS_BEFORE_MONTH DAYS_IN_MONTH];
    repeat match goal with
           | |- context [Z.to_nat ?k] =>
               let v := eval vm_compute in (Z.to_nat k) in
               change (Z.to_nat k) with v
           | |- context [(?a - ?b)] =>
               is_ground_Z a b;
               let v := eval vm_compute in (a - b) in change (a - b) with v
           end;
    cbn [nth andb];
    repeat match goal with
           | |- context [(?a <? ?b)] => destruct (Z.ltb_spec a b)
           | |- context [(?a =? ?b)] => destruct (Z.eqb_spec a b)
           end; cbn [andb] in *; cbv iota beta in *;
    unfold ymd2ord, days_before_month; rewrite Hy, Hl;
    cbv [tab DAYS_BEFORE_MONTH DAYS_IN_MONTH];
    repeat match goal with
           | |- context [Z.to_nat ?k] =>
               let v := eval vm_compute in (Z.to_nat k) in
               change (Z.to_nat k) with v
           end;
    cbn [nth andb Z.ltb Z.compare Pos.compare Pos.compare_cont]; lia.
Qed.

(** Going [off] seconds back moves the instant by [off] seconds. *)
Lemma minus_seconds_exact dt off u :
  minus_seconds dt off = Ok u -> seconds_of u = seconds_of dt - off.
Proof.
  unfold minus_seconds, seconds_of.
  set (secs := hour dt * 3600 + minute dt * 60 + second dt - off).
  set (ord := ymd2ord (year dt) (month dt) (day dt) + secs / 86400).
  destruct (Z.leb_spec 1 ord); [|done].
  destruct (Z.leb_spec ord MAXORDINAL); [|done]. cbn [andb].
  pose proof (ymd2ord_ord2ymd ord ltac:(lia)) as Hr.
  destruct (ord2ymd ord) as [[y m] d]. intros [= <-]. cbn.
  rewrite Hr.
  pose proof (Z.div_mod secs 86400 ltac:(lia)).
  pose proof (Z.mod_pos_bound secs 86400 ltac:(lia)) as Hs.
  set (r := secs mod 86400) in *. clearbody r.
  pose proof (Z.div_mod r 3600 ltac:(lia)).
  pose proof (Z.mod_pos_bound r 3600 ltac:(lia)).
  pose proof (Z.div_mod (r mod 3600) 60 ltac:(lia)).
  pose proof (Z.mod_pos_bound (r mod 3600) 60 ltac:(lia)).
  assert (r mod 60 = (r mod 3600) mod 60)
    by (Z.to_euclidean_division_equations; lia).
  pose proof (Z.mod_pos_bound (r mod 3600) 60 ltac:(lia)).
  subst ord. lia.
Qed.

End Ordinals.

(** X12: the conversion to UTC moves the instant by exactly the offset
    of the zone and keeps the microseconds, across the ends of days,
    months and years; for a text whose zone is [CST] the rendered time is
    21600 seconds after the local time that was read. *)
Theorem X12_utc_conversion_is_exact (w : worker) (x : str) (s : str) :
  last_update_of w x = Ok s ->
  exists a u,
    parse w tzinfos x = Ok a /\ astimezone_utc w a = Ok u /\ s = strftime u
    /\ seconds_of u = (seconds_of a.1.1 - utcoffset w a)%Z
    /\ microsecond u = microsecond a.1.1
    /\ (forall res, parse_text w x = Some res ->
          tzname res = Some "CST"%string ->
          seconds_of u = (seconds_of (naive res) + 21600)%Z).
Proof.
  unfold last_update_of. intros H.
  destruct (parse w tzinfos x) as [a|] eqn:Ea; cbn [bind] in H; [|done].
  destruct (astimezone_utc w a) as [u|] eqn:Eu; cbn [bind] in H; [|done].
  injection H as <-. exists a, u.
  assert (Hs : seconds_of u = (seconds_of a.1.1 - utcoffset w a)%Z
               /\ microsecond u = microsecond a.1.1).
  { destruct a as [[dt tz] fold]. unfold astimezone_utc in Eu. cbn [fst].
    unfold utcoffset.
    destruct tz as [[off| |]|].
    - split; [by apply minus_seconds_exact|].
      by apply minus_seconds_range in Eu as (_ & _ & _ & _ & _ & _ & ?).
    - injection Eu as <-. split; [lia|done].
    - split; [by apply minus_seconds_exact|].
      by apply minus_seconds_range in Eu as (_ & _ & _ & _ & _ & _ & ?).
    - split; [by apply minus_seconds_exact|].
      by apply minus_seconds_range in Eu as (_ & _ & _ & _ & _ & _ & ?). }
  destruct Hs as [Hs Hu]. repeat split; try done.
  intros res Hp Hn. rewrite Hs. unfold parse in Ea. rewrite Hp in Ea.
  injection Ea as <-. unfold build_tzaware. rewrite Hn.
  change (tzinfos !! "CST"%string) with (Some (-21600)%Z). cbn. lia.
Qed.

(** The last update of the sample page is such a text. *)
Lemma X12_witness :
  seconds_of (mkdt 2023 2 2 18 53 0 0)
  = (seconds_of (mkdt 2023 2 2 12 53 0 0) + 21600)%Z.
Proof.
  destruct (X12_utc_conversion_is_exact Sample.utc_worker
              (of_string "2 Feb 12:53 pm CST")
              (of_string "2023-02-02 18:53:00.000000"))
    as (a & u & Ha & Hu & _ & _ & _ & H); [by vm_compute|].
  vm_compute in Ha. injection Ha as <-.
  vm_compute in Hu. injection Hu as <-.
  exact (H _ eq_refl eq_refl).
Defined.

End ClockFacts.

(** ** The loads *)

Module WriteFacts.
Import Loader LoaderFacts Warehouse.

Section Write.
Implicit Types (w : gmap string dataset) (batch : list Typed.record).

Lemma table_of_ensure w :
  table_of DATASET_ID DAILY_TABLE_ID
    (ensure_schema DATASET_ID DAILY_TABLE_ID SCHEMA w).1
  = Some (match table_of DATASET_ID DAILY_TABLE_ID w with
          | Some t => t
          | None => mktable SCHEMA []
          end).
Proof.
  unfold table_of, ensure_schema.
  destruct (w !! DATASET_ID) as [ds|] eqn:Hds.
  - destruct (tables ds !! DAILY_TABLE_ID) as [t|] eqn:Ht; cbn [fst].
    + by rewrite Hds.
    + rewrite lookup_insert_eq. cbn [tables]. by rewrite lookup_insert_eq.
  - cbn [tables]. rewrite lookup_empty. cbn [fst].
    rewrite lookup_insert_eq. cbn [tables]. by rewrite lookup_insert_eq.
Qed.

Lemma table_of_load_append batch w t :
  table_of DATASET_ID DAILY_TABLE_ID w = Some t ->
  table_of DATASET_ID DAILY_TABLE_ID
    (load_append DATASET_ID DAILY_TABLE_ID batch w)
  = Some (mktable (schema t) (rows t ++ batch)).
Proof.
  unfold table_of, load_append.
  destruct (w !! DATASET_ID) as [ds|] eqn:Hds; [|done].
  intros Ht. rewrite Ht. rewrite lookup_insert_eq. cbn [tables].
  by rewrite lookup_insert_eq.
Qed.

(** The table, the rows and the calls of one run. *)
Lemma write_table batch w :
  table_of DATASET_ID DAILY_TABLE_ID (write_weather_data_to_bigquery batch w).1
  = Some (match table_of DATASET_ID DAILY_TABLE_ID w with
          | Some t => mktable (schema t) (rows t ++ batch)
          | None => mktable SCHEMA batch
          end).
Proof.
  unfold write_weather_data_to_bigquery.
  pose proof (table_of_ensure w) as He.
  destruct (ensure_schema DATASET_ID DAILY_TABLE_ID SCHEMA w) as [w1 log1].
  cbn [fst snd] in *.
  rewrite (table_of_load_append batch w1 _ He).
  by destruct (table_of DATASET_ID DAILY_TABLE_ID w).
Qed.

Lemma write_rows batch w :
  daily_rows (write_weather_data_to_bigquery batch w).1 = daily_rows w ++ batch.
Proof.
  unfold daily_rows. rewrite write_table.
  by destruct (table_of DATASET_ID DAILY_TABLE_ID w).
Qed.

Lemma write_log batch w :
  (write_weather_data_to_bigquery batch w).2
  = (ensure_schema DATASET_ID DAILY_TABLE_ID SCHEMA w).2
    ++ [LoadAppend DATASET_ID DAILY_TABLE_ID (length batch)].
Proof.
  unfold write_weather_data_to_bigquery.
  by destruct (ensure_schema DATASET_ID DAILY_TABLE_ID SCHEMA w).
Qed.

(** X13: one run of the Loader.  Afterwards the destination table
    exists and holds the rows it held, followed by the batch; its schema
    is the one it had, or [SCHEMA] when the table was created; the last
    call is the load, the only one, of as many rows as the batch has. *)
Theorem X13_load_appends_the_batch batch w :
  let w' := (write_weather_data_to_bigquery batch w).1 in
  let log := (write_weather_data_to_bigquery batch w).2 in
  table_of DATASET_ID DAILY_TABLE_ID w'
  = Some (match table_of DATASET_ID DAILY_TABLE_ID w with
          | Some t => mktable (schema t) (rows t ++ batch)
          | None => mktable SCHEMA batch
          end)
  /\ daily_rows w' = daily_rows w ++ batch
  /\ length (daily_rows w') = length (daily_rows w) + length batch
  /\ last log = Some (LoadAppend DATASET_ID DAILY_TABLE_ID (length batch))
  /\ (forall d t n, In (LoadAppend d t n) log ->
        d = DATASET_ID /\ t = DAILY_TABLE_ID /\ n = length batch).
Proof.
  intros w' log. subst w' log.
  split; [apply write_table|]. split; [apply write_rows|].
  split; [by rewrite write_rows, length_app|].
  rewrite write_log. split; [by rewrite last_snoc|].
  intros d t n [Hin|[Hin|[]]]%in_app_or.
  - exfalso. rewrite ensure_schema_calls in Hin.
    destruct (w !! DATASET_ID) as [ds|]; [destruct (tables ds !! DAILY_TABLE_ID)|];
      simpl in Hin; intuition discriminate.
  - by injection Hin as <- <- <-.
Qed.

(** X14: the Loader touches the destination table only: every other
    dataset, every other table and the location of the dataset are as
    they were, and the destination keeps its schema and the rows it
    had. *)
Theorem X14_load_touches_one_table batch w :
  let w' := (write_weather_data_to_bigquery batch w).1 in
  (forall d, d <> DATASET_ID -> w' !! d = w !! d)
  /\ (forall d t, (d, t) <> (DATASET_ID, DAILY_TABLE_ID) ->
        table_of d t w' = table_of d t w)
  /\ (forall ds, w !! DATASET_ID = Some ds ->
        exists ds', w' !! DATASET_ID = Some ds'
                    /\ ds_location ds' = ds_location ds)
  /\ (forall t, table_of DATASET_ID DAILY_TABLE_ID w = Some t ->
        exists t', table_of DATASET_ID DAILY_TABLE_ID w' = Some t'
                   /\ schema t' = schema t
                   /\ rows t' = rows t ++ batch).
Proof.
  intros w'. subst w'. unfold write_weather_data_to_bigquery.
  assert (H1 : forall d t, (d, t) <> (DATASET_ID, DAILY_TABLE_ID) ->
             table_of d t (ensure_schema DATASET_ID DAILY_TABLE_ID SCHEMA w).1
             = table_of d t w).
  { intros d t Hne. unfold table_of, ensure_schema.
    destruct (w !! DATASET_ID) as [ds|] eqn:Hds.
    - destruct (tables ds !! DAILY_TABLE_ID) as [t0|] eqn:Ht; cbn [fst]; [done|].
      destruct (decide (d = DATASET_ID)) as [->|Hd].
      + rewrite lookup_insert_eq, Hds. cbn [tables].
        rewrite lookup_insert_ne; [done|congruence].
      + by rewrite lookup_insert_ne.
    - cbn [tables]. rewrite lookup_empty. cbn [fst].
      destruct (decide (d = DATASET_ID)) as [->|Hd].
      + rewrite lookup_insert_eq, Hds. cbn [tables].
        rewrite lookup_insert_ne by congruence. by rewrite lookup_empty.
      + rewrite lookup_insert_ne by done. by rewrite lookup_insert_ne. }
  assert (H2 : forall w1 d t, (d, t) <> (DATASET_ID, DAILY_TABLE_ID) ->
             table_of d t (load_append DATASET_ID DAILY_TABLE_ID batch w1)
             = table_of d t w1).
  { intros w1 d t Hne. unfold table_of, load_append.
    destruct (w1 !! DATASET_ID) as [ds|] eqn:Hds; [|done].
    destruct (tables ds !! DAILY_TABLE_ID) as [t0|] eqn:Ht; [|done].
    destruct (decide (d = DATASET_ID)) as [->|Hd].
    - rewrite lookup_insert_eq, Hds. cbn [tables].
      rewrite lookup_insert_ne; [done|congruence].
    - by rewrite lookup_insert_ne. }
  assert (H3 : forall d, d <> DATASET_ID ->
             (ensure_schema DATASET_ID DAILY_TABLE_ID SCHEMA w).1 !! d = w !! d).
  { intros d Hd. unfold ensure_schema.
    destruct (w !! DATASET_ID) as [ds|] eqn:Hds.
    - destruct (tables ds !! DAILY_TABLE_ID); cbn [fst]; [done|].
      by rewrite lookup_insert_ne.
    - cbn [tables]. rewrite lookup_empty. cbn [fst].
      rewrite lookup_insert_ne by done. by rewrite lookup_insert_ne. }
  assert (H4 : forall w1 d, d <> DATASET_ID ->
             load_append DATASET_ID DAILY_TABLE_ID batch w1 !! d = w1 !! d).
  { intros w1 d Hd. unfold load_append.
    destruct (w1 !! DATASET_ID) as [ds|]; [|done].
    destruct (tables ds !! DAILY_TABLE_ID); [|done].
    by rewrite lookup_insert_ne. }
  pose proof (table_of_ensure w) as He.
  destruct (ensure_schema DATASET_ID DAILY_TABLE_ID SCHEMA w) as [w1 log1] eqn:E.
  cbn [fst snd] in *.
  split; [intros d Hd; by rewrite H4, H3|].
  split; [intros d t Hne; by rewrite H2, H1|].
  split.
  - intros ds Hds.
    assert (exists ds1, w1 !! DATASET_ID = Some ds1
                        /\ ds_location ds1 = ds_location ds) as (ds1 & Hds1 & Hloc).
    { unfold ensure_schema in E. rewrite Hds in E.
      destruct (tables ds !! DAILY_TABLE_ID); injection E as <- _.
      - eauto.
      - rewrite lookup_insert_eq. eauto. }
    unfold load_append. rewrite Hds1.
    destruct (tables ds1 !! DAILY_TABLE_ID); [|eauto].
    rewrite lookup_insert_eq. eauto.
  - intros t Ht. rewrite Ht in He.
    rewrite (table_of_load_append batch w1 t He). eauto.
Qed.

(** X15: loads accumulate.  A second run creates nothing and loads;
    two runs in succession leave the warehouse that one run with both
    batches leaves, so loading the same batch twice stores every row
    twice. *)
Theorem X15_loads_accumulate b1 b2 w :
  let w1 := (write_weather_data_to_bigquery b1 w).1 in
  let w2 := (write_weather_data_to_bigquery b2 w1).1 in
  (write_weather_data_to_bigquery b2 w1).2
  = [LoadAppend DATASET_ID DAILY_TABLE_ID (length b2)]
  /\ daily_rows w2 = daily_rows w ++ b1 ++ b2
  /\ w2 = (write_weather_data_to_bigquery (b1 ++ b2) w).1
  /\ (forall b, daily_rows
                  (write_weather_data_to_bigquery b
                     (write_weather_data_to_bigquery b w).1).1
                = daily_rows w ++ b ++ b).
Proof.
  intros w1 w2.
  assert (Hrows : forall b b' w0,
            daily_rows (write_weather_data_to_bigquery b'
                          (write_weather_data_to_bigquery b w0).1).1
            = daily_rows w0 ++ b ++ b').
  { intros b b' w0. by rewrite !write_rows, <- app_assoc. }
  split; [|split; [apply Hrows|split; [|intros b; apply Hrows]]].
  - subst w1. unfold write_weather_data_to_bigquery at 1.
    pose proof (write_table b1 w) as Ht.
    rewrite (ensure_schema_noop DATASET_ID DAILY_TABLE_ID SCHEMA); [done|].
    unfold table_of in Ht. unfold has_table.
    destruct ((write_weather_data_to_bigquery b1 w).1 !! DATASET_ID) as [ds|];
      [|done].
    eauto.
  - subst w1 w2. unfold write_weather_data_to_bigquery.
    destruct (ensure_schema DATASET_ID DAILY_TABLE_ID SCHEMA w) as [wa loga] eqn:Ea.
    cbn [fst].
    pose proof (table_of_ensure w) as He. rewrite Ea in He. cbn [fst] in He.
    pose proof (table_of_load_append b1 wa _ He) as H1.
    rewrite (ensure_schema_noop DATASET_ID DAILY_TABLE_ID SCHEMA).
    2:{ unfold table_of in H1. unfold has_table.
        destruct (load_append DATASET_ID DAILY_TABLE_ID b1 wa !! DATASET_ID)
          as [ds|]; [eauto|done]. }
    cbn [fst]. unfold load_append at 1 3. unfold table_of in He.
    destruct (wa !! DATASET_ID) as [ds|] eqn:Hds; [|done]. rewrite He.
    unfold load_append. rewrite Hds, He, lookup_insert_eq. cbn [tables ds_location].
    rewrite lookup_insert_eq, insert_insert_eq. cbn [schema rows].
    by rewrite insert_insert_eq, <- app_assoc.
Qed.

End Write.

End WriteFacts.

(** ** The runs of the DAG *)

Module RunFacts.
Import Py Re Dt Extractor Normalizer Loader ExtractorFacts NormalizerFacts
  Warehouse WriteFacts Dag.

Lemma scrape_cities_locations get cities data recs :
  scrape_cities get cities data = Ok recs ->
  exists new, recs = data ++ new
    /\ map Raw.location new
       = map (fun c => of_string (Name c)) (List.filter (fetched get) cities).
Proof.
  revert data. induction cities as [|c cities IH]; intros data; simpl.
  - intros [= <-]. exists []. by rewrite app_nil_r.
  - unfold fetched at 1. destruct (get (NWS_URL c)) as [|page] eqn:E.
    + apply IH.
    + destruct (scrape_page c page) as [r0|] eqn:E0; simpl; [|done].
      intros (new & -> & H)%IH. exists (r0 :: new).
      split; [by rewrite <- app_assoc|]. simpl. rewrite H. f_equal.
      by apply scrape_page_Ok in E0 as (el & _ & _ & ? & _).
Qed.

Lemma labelled_raises label page e :
  labelled label page = Raise e -> e = AttributeError.
Proof.
  unfold labelled. destruct (after_label label page); [|done].
  destruct (find _ _); [done|]. by intros [= <-].
Qed.

Lemma scrape_page_raises c page e :
  scrape_page c page = Raise e -> e = AttributeError \/ e = ValueError.
Proof.
  unfold scrape_page.
  destruct (find_class "span" "smallTxt" page) as [el|]; cbn [bind];
    [|intros [= <-]; by left].
  destruct (findall re_number (strip (text el))) as [|a [|b [|e0 [|? ?]]]];
    cbn [bind]; try (intros [= <-]; by right).
  repeat match goal with
         | |- bind (labelled ?l page) _ = Raise _ -> _ =>
             let E := fresh "E" in
             destruct (labelled l page) eqn:E; cbn [bind];
             [|intros [= <-]; left; by apply labelled_raises in E]
         end.
  done.
Qed.

Lemma scrape_cities_raises get cities data e :
  scrape_cities get cities data = Raise e ->
  exists c page e', In c cities /\ get (NWS_URL c) = Content page
                 /\ scrape_page c page = Raise e' /\ e = e'.
Proof.
  revert data. induction cities as [|c cities IH]; intros data; simpl; [done|].
  destruct (get (NWS_URL c)) as [|page] eqn:E.
  - intros (c' & page' & e' & ? & ? & ? & ?)%IH. exists c', page', e'. auto.
  - destruct (scrape_page c page) as [r|e0] eqn:E0; cbn [bind].
    + intros (c' & page' & e' & ? & ? & ? & ?)%IH. exists c', page', e'. auto.
    + intros [= <-]. exists c, page, e0. auto.
Qed.

Lemma scrape_locations get recs :
  scrape_weather_data get = Ok recs ->
  map Raw.location recs
  = map (fun c => of_string (Name c)) (List.filter (fetched get) CITIES).
Proof. by intros (new & -> & H)%scrape_cities_locations. Qed.

Lemma scrape_none_fetched get :
  (forall c, In c CITIES -> get (NWS_URL c) = GetRaised) ->
  scrape_weather_data get = Ok [].
Proof.
  intros Hall. unfold scrape_weather_data. rewrite scrape_cities_skip.
  assert (List.filter (fetched get) CITIES = []) as ->; [|done].
  generalize dependent CITIES. intros cs Hcs.
  induction cs as [|c cs IH]; [done|]. simpl. unfold fetched at 1.
  rewrite (Hcs c) by by left. apply IH. intros c' Hc'. apply Hcs. by right.
Qed.

(** X16: the records follow the configured cities.  The locations of
    the records emitted are the names of the cities whose fetch returned,
    in the order of [CITIES], at most eleven; when every fetch raises the
    batch is empty; and when the task raises, it is with the
    [AttributeError] or the [ValueError] of a page that was fetched. *)
Theorem X16_records_follow_the_cities (get : string -> response) :
  (forall recs, scrape_weather_data get = Ok recs ->
     map Raw.location recs
     = map (fun c => of_string (Name c)) (List.filter (fetched get) CITIES)
     /\ length recs <= 11)
  /\ ((forall c, In c CITIES -> get (NWS_URL c) = GetRaised) ->
      scrape_weather_data get = Ok [])
  /\ (forall e, scrape_weather_data get = Raise e ->
        (e = AttributeError \/ e = ValueError)
        /\ exists c page, In c CITIES /\ get (NWS_URL c) = Content page
                          /\ scrape_page c page = Raise e).
Proof.
  split; [|split; [apply scrape_none_fetched|]].
  - intros recs H%scrape_locations. split; [done|].
    apply (f_equal (@length _)) in H. rewrite !length_map in H. rewrite H.
    pose proof (List.filter_length_le (fetched get) CITIES) as Hl.
    change (length CITIES) with 11 in Hl. exact Hl.
  - intros e (c & page & e' & Hin & Hget & Hp & ->)%scrape_cities_raises.
    split; [by apply scrape_page_raises in Hp|]. by exists c, page.
Qed.

Lemma find_filter {A} (p q : A -> bool) l :
  (forall x, p x = true -> q x = true) ->
  find p (List.filter q l) = find p l.
Proof.
  intros Hpq. induction l as [|y l IH]; [done|]. simpl.
  destruct (q y) eqn:Eq; simpl.
  - destruct (p y); [done|apply IH].
  - destruct (p y) eqn:Ep; [|apply IH]. apply Hpq in Ep. congruence.
Qed.

Lemma has_tag_not_heading t e :
  String.eqb t "h2" = false ->
  has_tag t e = true -> negb (has_tag "h2" e) = true.
Proof.
  unfold has_tag. intros Ht H%String.eqb_eq. rewrite H.
  by rewrite Ht.
Qed.

Lemma after_label_without_headings label page :
  after_label label (without_headings page)
  = option_map without_headings (after_label label page).
Proof.
  unfold without_headings.
  induction page as [|e page IH]; [done|]. simpl.
  destruct (has_tag "h2" e) eqn:Eh; simpl.
  - assert (has_tag "td" e = false) as ->; [|apply IH].
    unfold has_tag in *. apply String.eqb_eq in Eh. by rewrite Eh.
  - destruct (has_tag "td" e && has_string label e); [done|apply IH].
Qed.

Lemma labelled_without_headings label page :
  labelled label (without_headings page) = labelled label page.
Proof.
  unfold labelled. rewrite after_label_without_headings.
  destruct (after_label label page) as [rest|]; [|done]. simpl.
  unfold without_headings. rewrite find_filter; [done|].
  intros e. by apply has_tag_not_heading.
Qed.

Lemma find_class_without_headings t c page :
  String.eqb t "h2" = false ->
  find_class t c (without_headings page) = find_class t c page.
Proof.
  intros Ht. unfold find_class, without_headings. apply find_filter.
  intros e [H _]%andb_true_iff. by apply (has_tag_not_heading t).
Qed.

(** X17: the heading of the page is read and not used.  Two pages that
    hold the same elements beside their [h2] headings, in the same
    order, give the same record, or raise the same exception, whatever
    headings they hold and wherever. *)
Theorem X17_page_heading_is_unused (c : city) (page page' : soup) :
  without_headings page = without_headings page' ->
  scrape_page c page = scrape_page c page'.
Proof.
  intros H.
  assert (Hp : forall p, scrape_page c p = scrape_page c (without_headings p)).
  { intros p. unfold scrape_page.
    rewrite !find_class_without_headings by done.
    by rewrite !labelled_without_headings. }
  by rewrite (Hp page), (Hp page'), H.
Qed.

(** The sample page without its heading gives the sample record. *)
Lemma X17_witness :
  scrape_page (mkcity "Duluth, MN" "") (skipn 1 Sample.page_ok)
  = Ok Sample.duluth.
Proof.
  refine (eq_trans
            (X17_page_heading_is_unused (mkcity "Duluth, MN" "")
               (skipn 1 Sample.page_ok) Sample.page_ok _) _).
  - by vm_compute.
  - vm_compute. reflexivity.
Defined.

Lemma transform_locations w data out :
  transform_weather_data w data = Ok out ->
  map Typed.location out = map Raw.location data.
Proof.
  intros H. unfold transform_weather_data in H.
  destruct (transform_columns w data) as [cs|] eqn:E; cbn [bind] in H; [|done].
  injection H as <-.
  apply transform_columns_Ok in E as (_ & Hloc & _).
  rewrite map_map. unfold row. cbn. rewrite Hloc.
  rewrite <- (length_map Raw.location data). apply map_nth_seq.
Qed.

(** X18: a run of the DAG that completes has appended one row for each
    city whose page was fetched, in the order of the cities and under
    their configured names, in one load; a run in which every fetch
    raises fails in the Normalizer, on the missing [location] column, and
    loads nothing. *)
Theorem X18_a_run_appends_one_row_per_page (get : string -> response)
        (w : worker)
        (wh : gmap string dataset) :
  (forall wh' log, weather_data_pipeline get w wh = Ok (wh', log) ->
     exists typed,
       daily_rows wh' = daily_rows wh ++ typed
       /\ map Typed.location typed
          = map (fun c => of_string (Name c)) (List.filter (fetched get) CITIES)
       /\ length (daily_rows wh')
          = length (daily_rows wh)
            + length (List.filter (fetched get) CITIES)
       /\ In (LoadAppend DATASET_ID DAILY_TABLE_ID
                (length (List.filter (fetched get) CITIES))) log)
  /\ ((forall c, In c CITIES -> get (NWS_URL c) = GetRaised) ->
      weather_data_pipeline get w wh = Raise KeyError)
  /\ is_ok (weather_data_pipeline (Sample.web "" "" []) Sample.utc_worker ∅)
     = true.
Proof.
  split; [|split; [|by vm_compute]].
  - intros wh' log. unfold weather_data_pipeline.
    destruct (scrape_weather_data get) as [raw|] eqn:Es; cbn [bind]; [|done].
    destruct (transform_weather_data w raw) as [typed|] eqn:Et; cbn [bind]; [|done].
    intros [= H]. exists typed.
    pose proof (write_rows typed wh) as Hr.
    pose proof (write_log typed wh) as Hlog.
    rewrite H in Hr, Hlog. cbn [fst snd] in Hr, Hlog.
    apply transform_locations in Et.
    pose proof (scrape_locations get raw Es) as Hl.
    assert (Hn : length typed = length (List.filter (fetched get) CITIES)).
    { rewrite <- (length_map Typed.location), Et, Hl. by rewrite length_map. }
    split; [done|]. split; [by rewrite Et|].
    split; [by rewrite Hr, length_app, Hn|].
    rewrite Hlog, <- Hn. apply in_or_app. right. by left.
  - intros Hall. unfold weather_data_pipeline.
    by rewrite (scrape_none_fetched get Hall).
Qed.

End RunFacts.

(** ** Renderings *)

Module RenderFacts.
Import Py Num Dt Normalizer PyFacts FieldFacts DtFacts NormalizerFacts
  Clock ClockFacts.

Lemma digits_val_snoc ds c :
  digits_val (ds ++ [c]) = (10 * digits_val ds + digit_val c)%Z.
Proof. unfold digits_val. by rewrite fold_left_app. Qed.

Lemma digit_val_digit_char n : digit_val (digit_char n) = (n mod 10)%Z.
Proof.
  unfold digit_val, digit_char, code.
  pose proof (Z.mod_pos_bound n 10 ltac:(lia)).
  rewrite nat_ascii_embedding by lia. lia.
Qed.

Lemma fold_digits_app acc ds :
  fold_left (fun a c => 10 * a + digit_val c)%Z ds acc
  = (acc * 10 ^ Z.of_nat (length ds) + digits_val ds)%Z.
Proof.
  revert acc. induction ds as [|c ds IH] using rev_ind; intros acc.
  - simpl. unfold digits_val. simpl. lia.
  - rewrite fold_left_app, length_app, digits_val_snoc. cbn [fold_left length].
    rewrite IH. rewrite Nat2Z.inj_add, Z.pow_add_r by lia.
    change (10 ^ Z.of_nat 1)%Z with 10%Z. lia.
Qed.

Lemma digits_val_app a b :
  digits_val (a ++ b)
  = (digits_val a * 10 ^ Z.of_nat (length b) + digits_val b)%Z.
Proof. unfold digits_val at 1. by rewrite fold_left_app, fold_digits_app. Qed.

(** The numeral of a number reads back as the number. *)
Lemma numeral_value fuel : forall n acc,
  (0 <= n < 2 ^ Z.of_nat fuel)%Z -> 1 <= fuel ->
  digits_val (numeral fuel n acc)
  = (n * 10 ^ Z.of_nat (length acc) + digits_val acc)%Z.
Proof.
  induction fuel as [|fuel IH]; intros n acc Hn Hf; [lia|].
  cbn [numeral]. destruct (Z.ltb_spec n 10) as [Hlt|Hge].
  - change (digit_char n :: acc) with ([digit_char n] ++ acc).
    rewrite digits_val_app. unfold digits_val at 1. cbn [fold_left].
    rewrite digit_val_digit_char, Z.mod_small by lia. lia.
  - assert (1 <= fuel).
    { destruct fuel; [|lia]. change (2 ^ Z.of_nat 1)%Z with 2%Z in Hn. lia. }
    rewrite IH; [| |done].
    + cbn [length]. rewrite Nat2Z.inj_succ, Z.pow_succ_r by lia.
      change (digit_char n :: acc) with ([digit_char n] ++ acc).
      rewrite digits_val_app. unfold digits_val at 1. cbn [fold_left].
      rewrite digit_val_digit_char.
      pose proof (Z.div_mod n 10 ltac:(lia)). lia.
    + split; [apply Z.div_pos; lia|].
      apply Z.div_lt_upper_bound; [lia|].
      rewrite Nat2Z.inj_succ, Z.pow_succ_r in Hn by lia. lia.
Qed.

Lemma digits_val_zeros k ds :
  digits_val (repeat "0"%char k ++ ds) = digits_val ds.
Proof.
  rewrite digits_val_app.
  assert (digits_val (repeat "0"%char k) = 0%Z) as ->; [|lia].
  induction k as [|k IH]; [done|].
  replace (repeat "0"%char (S k)) with (repeat "0"%char k ++ ["0"%char])
    by (by rewrite <- repeat_cons).
  rewrite digits_val_snoc, IH. reflexivity.
Qed.

Lemma pad_value w n : (0 <= n)%Z -> digits_val (pad w n) = n.
Proof.
  intros Hn. unfold pad. rewrite digits_val_zeros.
  rewrite numeral_value; [simpl; unfold digits_val; simpl; lia| |lia].
  split; [done|].
  rewrite Nat2Z.inj_succ, Z2Nat.id by apply Z.log2_nonneg.
  destruct (Z.eq_dec n 0%Z) as [->|Hne]; [done|].
  apply Z.log2_spec. lia.
Qed.

(** [int] reads a padded field back. *)
Lemma py_int_pad w n :
  1 <= w -> (0 <= n < 10 ^ Z.of_nat w)%Z -> py_int (pad w n) = Ok n.
Proof.
  intros Hw Hn. destruct (pad_spec w n Hw Hn) as [Hlen Hd].
  destruct (pad w n) as [|c ds] eqn:E; [simpl in Hlen; lia|].
  rewrite py_int_digits by done. rewrite <- E. f_equal. apply pad_value. lia.
Qed.


Lemma valid_widths dt :
  valid dt ->
  (0 <= year dt < 10 ^ Z.of_nat 4 /\ 0 <= month dt < 10 ^ Z.of_nat 2
   /\ 0 <= day dt < 10 ^ Z.of_nat 2 /\ 0 <= hour dt < 10 ^ Z.of_nat 2
   /\ 0 <= minute dt < 10 ^ Z.of_nat 2 /\ 0 <= second dt < 10 ^ Z.of_nat 2
   /\ 0 <= microsecond dt < 10 ^ Z.of_nat 6)%Z.
Proof.
  unfold valid, days_in_month. intros (Hy & Hm & Hd & Hh & Hmi & Hs & Hu).
  change (10 ^ Z.of_nat 4)%Z with 10000%Z.
  change (10 ^ Z.of_nat 2)%Z with 100%Z.
  change (10 ^ Z.of_nat 6)%Z with 1000000%Z.
  assert (tab DAYS_IN_MONTH (month dt) <= 31)%Z.
  { assert (Hc : (month dt = 1 \/ month dt = 2 \/ month dt = 3 \/ month dt = 4
                  \/ month dt = 5 \/ month dt = 6 \/ month dt = 7
                  \/ month dt = 8 \/ month dt = 9 \/ month dt = 10
                  \/ month dt = 11 \/ month dt = 12)%Z) by lia.
    repeat destruct Hc as [->|Hc]; try rewrite Hc; by vm_compute. }
  destruct (_ && _); lia.
Qed.

(** The fields of a rendering, by their places, when the year has four
    digits. *)
Lemma strftime_slices dt :
  valid dt -> (1000 <= year dt)%Z ->
  let s := strftime dt in
  length s = 26
  /\ slice s 0 4 = pad 4 (year dt) /\ slice s 5 2 = pad 2 (month dt)
  /\ slice s 8 2 = pad 2 (day dt) /\ slice s 11 2 = pad 2 (hour dt)
  /\ slice s 14 2 = pad 2 (minute dt) /\ slice s 17 2 = pad 2 (second dt)
  /\ slice s 20 6 = pad 6 (microsecond dt).
Proof.
  intros (Hy & Hm & Hd & Hh & Hmi & Hs & Hu)%valid_widths Hk. unfold strftime.
  rewrite decimal_four by (change (10 ^ Z.of_nat 4)%Z with 10000%Z in Hy; lia).
  clear Hk.
  destruct (pad_spec 4 (year dt) ltac:(lia) Hy) as [L1 _].
  destruct (pad_spec 2 (month dt) ltac:(lia) Hm) as [L2 _].
  destruct (pad_spec 2 (day dt) ltac:(lia) Hd) as [L3 _].
  destruct (pad_spec 2 (hour dt) ltac:(lia) Hh) as [L4 _].
  destruct (pad_spec 2 (minute dt) ltac:(lia) Hmi) as [L5 _].
  destruct (pad_spec 2 (second dt) ltac:(lia) Hs) as [L6 _].
  destruct (pad_spec 6 (microsecond dt) ltac:(lia) Hu) as [L7 _].
  generalize dependent (pad 4 (year dt)). intros p1 L1.
  generalize dependent (pad 2 (month dt)). intros p2 L2.
  generalize dependent (pad 2 (day dt)). intros p3 L3.
  generalize dependent (pad 2 (hour dt)). intros p4 L4.
  generalize dependent (pad 2 (minute dt)). intros p5 L5.
  generalize dependent (pad 2 (second dt)). intros p6 L6.
  generalize dependent (pad 6 (microsecond dt)). intros p7 L7.
  clear Hy Hm Hd Hh Hmi Hs Hu. cbv zeta.
  destruct p1 as [|? [|? [|? [|? [|? ?]]]]]; try discriminate L1.
  destruct p2 as [|? [|? [|? ?]]]; try discriminate L2.
  destruct p3 as [|? [|? [|? ?]]]; try discriminate L3.
  destruct p4 as [|? [|? [|? ?]]]; try discriminate L4.
  destruct p5 as [|? [|? [|? ?]]]; try discriminate L5.
  destruct p6 as [|? [|? [|? ?]]]; try discriminate L6.
  destruct p7 as [|? [|? [|? [|? [|? [|? [|? ?]]]]]]]; try discriminate L7.
  repeat split; reflexivity.
Qed.

(** The rendering of an earlier year is shorter. *)
Lemma strftime_short dt :
  valid dt -> (year dt < 1000)%Z -> length (strftime dt) < 26.
Proof.
  intros Hv Hk. pose proof Hv as (Hy & _).
  apply valid_widths in Hv as (_ & Hm & Hd & Hh & Hmi & Hs & Hu).
  unfold strftime.
  destruct (decimal_short (year dt) ltac:(lia)) as [L1 _].
  destruct (pad_spec 2 (month dt) ltac:(lia) Hm) as [L2 _].
  destruct (pad_spec 2 (day dt) ltac:(lia) Hd) as [L3 _].
  destruct (pad_spec 2 (hour dt) ltac:(lia) Hh) as [L4 _].
  destruct (pad_spec 2 (minute dt) ltac:(lia) Hmi) as [L5 _].
  destruct (pad_spec 2 (second dt) ltac:(lia) Hs) as [L6 _].
  destruct (pad_spec 6 (microsecond dt) ltac:(lia) Hu) as [L7 _].
  rewrite !length_app, L2, L3, L4, L5, L6, L7. simpl. lia.
Qed.


Section Dates.
Local Open Scope Z_scope.

(** The date of an ordinal is a date of the calendar. *)
Lemma ord2ymd_valid n0 :
  1 <= n0 <= MAXORDINAL ->
  let '(y, m, d) := ord2ymd n0 in
  1 <= y <= 9999 /\ 1 <= m <= 12 /\ 1 <= d <= days_in_month y m.
Proof.
  unfold MAXORDINAL, ord2ymd. intros Hn.
  set (n := n0 - 1).
  set (n400 := n / 146097). set (r1 := n mod 146097).
  set (n100 := r1 / 36524). set (r2 := r1 mod 36524).
  set (n4 := r2 / 1461). set (r3 := r2 mod 1461).
  set (n1 := r3 / 365). set (r4 := r3 mod 365).
  assert (E1 : n = 146097 * n400 + r1 /\ 0 <= r1 < 146097)
    by (subst n400 r1; split; [apply Z.div_mod|apply Z.mod_pos_bound]; lia).
  assert (E2 : r1 = 36524 * n100 + r2 /\ 0 <= r2 < 36524)
    by (subst n100 r2; split; [apply Z.div_mod|apply Z.mod_pos_bound]; lia).
  assert (E3 : r2 = 1461 * n4 + r3 /\ 0 <= r3 < 1461)
    by (subst n4 r3; split; [apply Z.div_mod|apply Z.mod_pos_bound]; lia).
  assert (E4 : r3 = 365 * n1 + r4 /\ 0 <= r4 < 365)
    by (subst n1 r4; split; [apply Z.div_mod|apply Z.mod_pos_bound]; lia).
  assert (Hn' : 0 <= n <= 3652058) by (subst n; lia).
  clearbody n400 r1 n100 r2 n4 r3 n1 r4 n. clear Hn n0.
  destruct (Z.eqb_spec n1 4) as [H14|H14]; simpl orb.
  { cbv iota. unfold days_in_month.
    change (tab DAYS_IN_MONTH 12) with 31.
    change (12 =? 2) with false. cbn [andb]. lia. }
  destruct (Z.eqb_spec n100 4) as [H1004|H1004]; cbv iota.
  { unfold days_in_month.
    change (tab DAYS_IN_MONTH 12) with 31.
    change (12 =? 2) with false. cbn [andb]. lia. }
  set (leap := (n1 =? 3) && (negb (n4 =? 24) || (n100 =? 3))).
  set (m := (r4 + 50) / 32).
  assert (Em : 32 * m <= r4 + 50 < 32 * m + 32).
  { subst m. pose proof (Z.div_mod (r4 + 50) 32 ltac:(lia)).
    pose proof (Z.mod_pos_bound (r4 + 50) 32 ltac:(lia)). lia. }
  clearbody m.
  set (y := n400 * 400 + 1 + n100 * 100 + n4 * 4 + n1).
  assert (Hy : 1 <= y <= 9999) by (subst y; lia).
  assert (Hl : is_leap y = leap) by (subst y leap; apply is_leap_cycle; lia).
  clearbody y leap.
  assert (Hm : m = 1 \/ m = 2 \/ m = 3 \/ m = 4 \/ m = 5 \/ m = 6 \/ m = 7
               \/ m = 8 \/ m = 9 \/ m = 10 \/ m = 11 \/ m = 12) by lia.
  repeat destruct Hm as [->|Hm]; try subst m;
    destruct leap;
    cbv [tab DAYS_BEFORE_MONTH DAYS_IN_MONTH];
    repeat match goal with
           | |- context [Z.to_nat ?k] =>
               let v := eval vm_compute in (Z.to_nat k) in
               change (Z.to_nat k) with v
           | |- context [(?a - ?b)] =>
               is_ground_Z a b;
               let v := eval vm_compute in (a - b) in change (a - b) with v
           end;
    cbn [nth andb];
    repeat match goal with
           | |- context [(?a <? ?b)] => destruct (Z.ltb_spec a b)
           | |- context [(?a =? ?b)] => destruct (Z.eqb_spec a b)
           end; cbn [andb] in *; cbv iota beta in *;
    unfold days_in_month; rewrite Hl;
    cbv [tab DAYS_BEFORE_MONTH DAYS_IN_MONTH];
    repeat match goal with
           | |- context [Z.to_nat ?k] =>
               let v := eval vm_compute in (Z.to_nat k) in
               change (Z.to_nat k) with v
           end;
    cbn [nth andb Z.eqb Pos.eqb]; lia.
Qed.

(** What [minus_seconds] returns is a date of the calendar and a time of
    the day. *)
Lemma minus_seconds_valid dt off u :
  0 <= microsecond dt < 1000000 ->
  minus_seconds dt off = Ok u -> valid u.
Proof.
  intros Hus H.
  pose proof (minus_seconds_range _ _ _ H) as (_ & _ & _ & Hh & Hmi & Hs & Hu).
  unfold minus_seconds in H.
  set (secs := hour dt * 3600 + minute dt * 60 + second dt - off) in *.
  set (ord := ymd2ord (year dt) (month dt) (day dt) + secs / 86400) in *.
  destruct (Z.leb_spec 1 ord); [|done].
  destruct (Z.leb_spec ord MAXORDINAL); [|done]. cbn [andb] in H.
  pose proof (ord2ymd_valid ord ltac:(lia)) as Hr.
  destruct (ord2ymd ord) as [[y m] d]. injection H as <-.
  unfold valid. cbn in *. lia.
Qed.

End Dates.

(** X20: the rendering of a date and time, of a year of four digits,
    is read back field by field: it has 26 characters, and [int] reads
    the year, the month, the day, the hour, the minute, the second and
    the microsecond at their places; so a date and time with the same
    rendering is the same date and time. *)
Theorem X20_rendering_reads_back (dt : datetime) :
  valid dt -> (1000 <= year dt)%Z ->
  let s := strftime dt in
  length s = 26
  /\ py_int (slice s 0 4) = Ok (year dt)
  /\ py_int (slice s 5 2) = Ok (month dt)
  /\ py_int (slice s 8 2) = Ok (day dt)
  /\ py_int (slice s 11 2) = Ok (hour dt)
  /\ py_int (slice s 14 2) = Ok (minute dt)
  /\ py_int (slice s 17 2) = Ok (second dt)
  /\ py_int (slice s 20 6) = Ok (microsecond dt)
  /\ (forall dt', valid dt' -> strftime dt' = s -> dt' = dt).
Proof.
  intros Hv Hy s.
  assert (Hread : forall u, valid u -> (1000 <= year u)%Z ->
            py_int (slice (strftime u) 0 4) = Ok (year u)
            /\ py_int (slice (strftime u) 5 2) = Ok (month u)
            /\ py_int (slice (strftime u) 8 2) = Ok (day u)
            /\ py_int (slice (strftime u) 11 2) = Ok (hour u)
            /\ py_int (slice (strftime u) 14 2) = Ok (minute u)
            /\ py_int (slice (strftime u) 17 2) = Ok (second u)
            /\ py_int (slice (strftime u) 20 6) = Ok (microsecond u)).
  { intros u Hu Hk.
    destruct (strftime_slices u Hu Hk)
      as (_ & -> & -> & -> & -> & -> & -> & ->).
    apply valid_widths in Hu as (? & ? & ? & ? & ? & ? & ?).
    repeat split; apply py_int_pad; (done || lia). }
  split; [by apply strftime_slices|].
  destruct (Hread dt Hv Hy) as (H1 & H2 & H3 & H4 & H5 & H6 & H7).
  repeat (split; [done|]).
  intros dt' Hv' Heq.
  assert (Hy' : (1000 <= year dt')%Z).
  { destruct (Z.le_gt_cases 1000 (year dt')) as [|Hlt]; [done|].
    pose proof (strftime_short dt' Hv' ltac:(lia)) as Hs.
    rewrite Heq in Hs. subst s.
    destruct (strftime_slices dt Hv Hy) as [Hlen _]. lia. }
  destruct (Hread dt' Hv' Hy') as (G1 & G2 & G3 & G4 & G5 & G6 & G7).
  rewrite Heq in G1, G2, G3, G4, G5, G6, G7. subst s.
  destruct dt, dt'. cbn in *. congruence.
Qed.

(** The hour of a rendering. *)
Lemma X20_witness :
  py_int (slice (of_string "2023-02-02 18:53:00.000000") 11 2) = Ok 18%Z.
Proof.
  refine (proj1 (proj2 (proj2 (proj2 (proj2
            (X20_rendering_reads_back (mkdt 2023 2 2 18 53 0 0) _ _)))))).
  - unfold valid. by vm_compute.
  - by vm_compute.
Defined.

(** X21: the last update that the Normalizer renders for a text whose
    zone the table holds is a date of the calendar and a time of the day:
    the day exists in its month, in a leap year as in any other. *)
Theorem X21_utc_times_are_calendar_times (w : worker) (x : str) (res : parsed)
        (name : string) (s : str) :
  parse_text w x = Some res -> tzname res = Some name ->
  is_Some (tzinfos !! name) ->
  (0 <= microsecond (naive res) < 1000000)%Z ->
  last_update_of w x = Ok s ->
  exists u, s = strftime u /\ valid u
            /\ minus_seconds (naive res) (-21600) = Ok u.
Proof.
  intros Hp Hn [off Hoff] Hus H.
  pose proof Hoff as [-> ->]%tzinfos_lookup.
  rewrite (last_update_of_table w x res _ _ Hp Hn Hoff) in H.
  destruct (minus_seconds (naive res) (-21600)) as [u|] eqn:E; cbn [bind] in H;
    [|done].
  injection H as <-. exists u. split; [done|]. split; [|done].
  by apply (minus_seconds_valid (naive res) (-21600)).
Qed.

(** The last update of the sample page, moved to UTC. *)
Lemma X21_witness :
  valid (mkdt 2023 2 2 18 53 0 0).
Proof.
  destruct (X21_utc_times_are_calendar_times Sample.utc_worker
              (of_string "2 Feb 12:53 pm CST")
              (mkparsed (mkdt 2023 2 2 12 53 0 0) (Some "CST"%string) None)
              "CST" (of_string "2023-02-02 18:53:00.000000"))
    as (u & _ & Hv & Hu).
  - by vm_compute.
  - done.
  - exists (-21600)%Z. by vm_compute.
  - simpl. lia.
  - by vm_compute.
  - vm_compute in Hu. injection Hu as <-. exact Hv.
Defined.

End RenderFacts.

(** ** Elevations and locations of a batch *)

Module OutputFacts.
Import Py Re Num Dt Pd Extractor Normalizer PyFacts FieldFacts LocationFacts
  ExtractorFacts NormalizerFacts SplitFacts RunFacts.

Lemma elev_of_digits ds :
  ds <> [] -> all_digits ds -> (digits_val ds < 30000)%Z ->
  (do x <- py_float ds;
   match trunc x with
   | Some z => Ok (Some z)
   | None => Raise (if is_nan x then ValueError else OverflowError)
   end) = Ok (Some (digits_val ds)).
Proof.
  intros Hne Hds Hlt. destruct ds as [|c ds]; [done|].
  rewrite py_float_digits by done. cbn [bind].
  assert (H : holds_upto elev_exact 30000 = true) by (vm_compute; reflexivity).
  pose proof (holds_upto_spec _ _ H (digits_val (c :: ds))) as He.
  unfold elev_exact in He.
  assert (Hr : (0 <= digits_val (c :: ds) < Z.of_N 30000)%Z)
    by (split; [exact (digits_val_nonneg _ Hds)|exact Hlt]).
  specialize (He Hr).
  destruct (trunc _) as [z|]; [|done].
  by apply Z.eqb_eq in He as ->.
Qed.

(** X23: an elevation written in digits is kept as it is.  In a column
    whose tokens are runs of digits of value below 30000 each elevation
    is the value of its token: the passage through float64 loses
    nothing. *)
Theorem X23_elevation_is_exact (col : list str) :
  (forall s, In s col ->
     s <> [] /\ all_digits s /\ (digits_val s < 30000)%Z) ->
  elev_column col = Ok (map (fun s => Some (digits_val s)) col).
Proof.
  intros Hcol. unfold elev_column.
  assert (numeric_column (map Some col) = true) as ->.
  { unfold numeric_column. apply forallb_forall.
    intros x (s & <- & Hs)%in_map_iff.
    destruct (Hcol s Hs) as (Hne & Hd & _).
    destruct s as [|c s]; [done|]. by rewrite py_float_digits. }
  induction col as [|s col IH]; [done|].
  cbn [traverse map].
  destruct (Hcol s (or_introl eq_refl)) as (Hne & Hd & Hlt).
  rewrite elev_of_digits by done. cbn [bind].
  rewrite IH; [done|]. intros s' Hs'. apply Hcol. by right.
Qed.

(** Two elevations. *)
Lemma X23_witness :
  elev_column [of_string "1417"; of_string "5285"] = Ok [Some 1417%Z; Some 5285%Z].
Proof.
  apply (X23_elevation_is_exact [of_string "1417"; of_string "5285"]).
  intros s [<-|[<-|[]]]; by vm_compute.
Defined.

(** The locations [city, state] are split into their parts. *)
Lemma split_location_joined rows :
  rows <> [] -> (forall cs, In cs rows -> unsplit cs.1 /\ unsplit cs.2) ->
  split_location (map joined rows) = Ok rows.
Proof.
  intros Hne Hrows. unfold split_location, str_accessor.
  rewrite joined_not_numeric by done. cbn [bind]. cbv zeta.
  assert (Hp : map (split (of_string ", ")) (map joined rows)
               = map (fun cs => [cs.1; cs.2]) rows).
  { rewrite map_map. apply map_ext_in. intros [c s] Hin.
    destruct (Hrows _ Hin). by apply split_joined. }
  rewrite Hp. rewrite (width_const _ 2).
  - cbn [Nat.eqb]. f_equal. rewrite map_map. rewrite <- (map_id rows) at 2.
    apply map_ext. by intros [c s].
  - by destruct rows.
  - intros l (cs & <- & _)%in_map_iff. done.
Qed.

(** Every configured name is a city and a state. *)
Lemma CITIES_names c :
  In c CITIES ->
  exists cs, of_string (Name c) = joined cs /\ unsplit cs.1 /\ unsplit cs.2.
Proof.
  intros Hin.
  destruct (split_cases (of_string (Name c))) as [[_ H]|[(a & b & H & Ha & Hb & _)|H]].
  - exfalso. apply (f_equal (@length _)) in H. simpl in Hin.
    repeat destruct Hin as [<-|Hin]; try destruct Hin; by vm_compute in H.
  - by exists (a, b).
  - exfalso. simpl in Hin.
    repeat destruct Hin as [<-|Hin]; try destruct Hin; vm_compute in H; lia.
Qed.

Lemma joined_rows (ls : list str) :
  (forall l, In l ls ->
     exists cs, l = joined cs /\ unsplit cs.1 /\ unsplit cs.2) ->
  exists rows, ls = map joined rows
               /\ forall cs, In cs rows -> unsplit cs.1 /\ unsplit cs.2.
Proof.
  intros Hall. induction ls as [|l ls IH]; [by exists []|].
  destruct IH as (rows & -> & Hr); [intros; apply Hall; by right|].
  destruct (Hall l (or_introl eq_refl)) as (cs & -> & Hcs).
  exists (cs :: rows). split; [done|]. intros cs' [<-|Hin]; auto.
Qed.

(** X24: the locations of an extracted batch are always split.  They
    are names of [CITIES], each a city and a state with one separator
    between them, so on a batch of the Extractor that is not empty the
    split succeeds and gives each record the city and the state of its
    name. *)
Theorem X24_configured_locations_always_split (get : string -> response)
        (recs : list Raw.record) :
  scrape_weather_data get = Ok recs -> recs <> [] ->
  exists rows,
    split_location (map Raw.location recs) = Ok rows
    /\ map Raw.location recs = map joined rows
    /\ forall cs, In cs rows -> unsplit cs.1 /\ unsplit cs.2.
Proof.
  intros H Hne. apply scrape_locations in H.
  assert (Hall : forall l, In l (map Raw.location recs) ->
            exists cs, l = joined cs /\ unsplit cs.1 /\ unsplit cs.2).
  { rewrite H. intros l (c & <- & Hc)%in_map_iff.
    apply CITIES_names. by apply filter_In in Hc as [? _]. }
  destruct (joined_rows _ Hall) as (rows & Hmap & Hr). exists rows.
  split; [|done]. rewrite Hmap. apply split_location_joined; [|done].
  destruct rows; [|done]. by destruct recs.
Qed.

(** The eleven names, all pages fetched. *)
Lemma X24_witness :
  exists rows,
    split_location (map (fun c => of_string (Name c)) CITIES) = Ok rows.
Proof.
  destruct (scrape_weather_data (Sample.web "" "" [])) as [recs|e] eqn:E;
    [|by vm_compute in E].
  destruct (X24_configured_locations_always_split _ recs E) as (rows & Hs & _).
  - intros ->. by vm_compute in E.
  - exists rows. rewrite <- Hs. f_equal.
    apply scrape_locations in E. rewrite E. reflexivity.
Defined.

End OutputFacts.

(** ** Fields that every record lacks *)

Module AbsenceFacts.
Import Py Re Num Dt Pd Normalizer NormalizerFacts.

(** What the other statements of the task returned. *)
Lemma transform_columns_rest w data cs :
  transform_columns w data = Ok cs ->
  traverse py_float (map Raw.lat data) = Ok (c_lat cs)
  /\ traverse py_float (map Raw.lon data) = Ok (c_lon cs)
  /\ elev_column (map Raw.elev_ft data) = Ok (c_elev_ft cs)
  /\ humidity_column (map Raw.humidity data) = Ok (c_humidity cs)
  /\ wind_speed_column (map Raw.wind_speed data) = Ok (c_wind_speed cs)
  /\ vis_miles_column (map Raw.vis_miles data) = Ok (c_vis_miles cs).
Proof.
  unfold transform_columns. destruct data as [|r data]; [done|].
  intros H.
  bind_ok H v1 E1. bind_ok H v2 E2. bind_ok H v3 E3. bind_ok H v4 E4.
  bind_ok H v5 E5. bind_ok H v6 E6. bind_ok H v7 E7. bind_ok H v8 E8.
  bind_ok H v9 E9. bind_ok H v10 E10. bind_ok H v11 E11. bind_ok H v12 E12.
  bind_ok H v13 E13.
  injection H as <-. cbn. repeat split; done.
Qed.

Lemma numeric_column_all_absent {A} (f : A -> option str) (data : list A) :
  (forall r, In r data -> f r = None) -> numeric_column (map f data) = true.
Proof.
  intros H. unfold numeric_column. apply forallb_forall.
  intros x (r & <- & Hr)%in_map_iff. by rewrite (H r Hr).
Qed.

(** X19: no text field may be absent from every record.  When one of
    the eight fields that a page may lack is null in all the records of a
    batch, [read_json] makes its column numeric and the Normalizer
    raises, whichever field it is. *)
Theorem X19_no_field_may_be_absent_everywhere (w : worker)
        (data : list Raw.record) (f : Raw.record -> option str) :
  In f TEXT_FIELDS -> (forall r, In r data -> f r = None) ->
  exists e, transform_weather_data w data = Raise e.
Proof.
  intros Hf Hall.
  pose proof (numeric_column_all_absent f data Hall) as Hn.
  destruct (transform_weather_data w data) as [out|e] eqn:H; [exfalso|eauto].
  unfold transform_weather_data in H. bind_ok H cs E. clear H.
  pose proof (transform_columns_rest _ _ _ E) as (_ & _ & _ & Hh & Hw & Hv).
  apply transform_columns_Ok in E as (_ & _ & _ & Ht & _ & Hb & Hd & Hc & Hl).
  unfold temp_f_column, humidity_column, wind_speed_column, dewpoint_column,
    vis_miles_column, wind_chill_column, str_accessor, barometer_column,
    last_update_column in *.
  simpl in Hf.
  repeat destruct Hf as [<-|Hf]; try destruct Hf; rewrite Hn in *; done.
Qed.

(** The batch of a mild day has no wind chill. *)
Lemma X19_witness :
  exists e, transform_weather_data Sample.utc_worker
              [Sample.mild "Denver, CO"; Sample.mild "Seattle, WA"] = Raise e.
Proof.
  apply (X19_no_field_may_be_absent_everywhere Sample.utc_worker _ Raw.wind_chill).
  - simpl. tauto.
  - intros r [<-|[<-|[]]]; reflexivity.
Defined.

End AbsenceFacts.
